(** * The SQL backup codec of [src/utils/sqlHelpers.ts]

    A shallow embedding of [sqlEscape], [extractValues], [generateSQL] and
    [parseSQL], and the properties of the backup format that follow from
    the code.  Further modules embed the code around the codec: the file
    names of [src/utils/exportUtils.ts], the category filter of the
    filter bar, the storage service that keeps the history of saved
    statements, the SQL export and import, the category list and the
    filter of the application component, the amounts of the Excel
    import and the category list of
    [src/components/TransactionTable.tsx].

    Conventions of the embedding.

    - A JavaScript string is the list of its UTF-16 code units; a code unit
      is an [N].  [lit] turns an ASCII literal into such a list.
    - A JavaScript Number is [NaN], an infinity, or an exact decimal
      [m / 10^scale] with a sign.  [Number(text)] yields the exact decimal
      value of the literal; it becomes zero or an infinity exactly where
      binary64 rounding does (so truthiness is exact).  Between those
      bounds the decimal stands for the binary64 value nearest to it: a
      binary64 value is represented by the shortest decimal that
      identifies it, which is what [Number::toString] prints and what
      [Number] reads back.  The two zeros are not distinguished; the
      program cannot tell them apart ([String], truthiness and [===]
      agree on them).
    - The clock is an input: [generateSQL] receives the text of
      [new Date().toISOString()] and the two readings of [Date.now()],
      [parseSQL] receives its one reading of [Date.now()].
    - A thrown [Error] is the [Error] branch of [result]. *)

From Stdlib Require Import List NArith ZArith Lia Bool String Ascii.
Import ListNotations.

(** ** JavaScript strings *)

Module JS.

Local Open Scope N_scope.

Abbreviation jschar := N (only parsing).
Abbreviation jsstring := (list N) (only parsing).

Fixpoint lit (s : string) : jsstring :=
  match s with
  | EmptyString => []
  | String a s' => N_of_ascii a :: lit s'
  end.

Definition nl : jsstring := [10].
Definition QUOTE : jschar := 39.
Definition LPAREN : jschar := 40.
Definition RPAREN : jschar := 41.
Definition SEMI : jschar := 59.
Definition MINUS : jschar := 45.
Definition DOT : jschar := 46.

(** [\d] *)
Definition is_digit (c : jschar) : bool := (48 <=? c) && (c <=? 57).

(** [\s]: WhiteSpace and LineTerminator code units; this is also the set
    that [Number] trims from a string. *)
Definition is_space (c : jschar) : bool :=
  ((9 <=? c) && (c <=? 13)) || (c =? 32) || (c =? 160) || (c =? 5760)
  || ((8192 <=? c) && (c <=? 8202)) || (c =? 8232) || (c =? 8233)
  || (c =? 8239) || (c =? 8287) || (c =? 12288) || (c =? 65279).

(** Canonicalisation of the [i] flag without the [u] flag: a code unit is
    compared through its upper-case form, and a code unit above 127 is
    never folded onto an ASCII one; the patterns of this file only hold
    ASCII literals, so only ASCII letters fold. *)
Definition upper (c : jschar) : jschar :=
  if (97 <=? c) && (c <=? 122) then c - 32 else c.

Definition eq_ci (a b : jschar) : bool := upper a =? upper b.

(** A literal of the pattern matched at the start of [s], with [eqc] the
    comparison of characters; the result is the text after it. *)
Fixpoint prefix_with (eqc : jschar -> jschar -> bool) (p s : jsstring)
  : option jsstring :=
  match p with
  | [] => Some s
  | a :: p' =>
      match s with
      | [] => None
      | c :: s' => if eqc a c then prefix_with eqc p' s' else None
      end
  end.

(** Under the [i] flag. *)
Definition prefix_ci : jsstring -> jsstring -> option jsstring :=
  prefix_with eq_ci.

(** Without it. *)
Definition prefix_cs : jsstring -> jsstring -> option jsstring :=
  prefix_with N.eqb.

(** Greedy [X*] for a one-character class [X], in a position where no
    shorter repetition can make the rest of the pattern match. *)
Fixpoint drop_while (p : jschar -> bool) (s : jsstring) : jsstring :=
  match s with
  | [] => []
  | c :: s' => if p c then drop_while p s' else s
  end.

(** [s.substring(a, b)]: the arguments are clamped to [0, length] and
    swapped when [a > b]. *)
Definition substring (s : jsstring) (a b : Z) : jsstring :=
  let len := Z.of_nat (List.length s) in
  let a' := Z.min (Z.max a 0) len in
  let b' := Z.min (Z.max b 0) len in
  let lo := Z.min a' b' in
  let hi := Z.max a' b' in
  firstn (Z.to_nat (hi - lo)) (skipn (Z.to_nat lo) s).

(** [xs.join(sep)] *)
Fixpoint join (sep : jsstring) (xs : list jsstring) : jsstring :=
  match xs with
  | [] => []
  | [x] => x
  | x :: rest => x ++ sep ++ join sep rest
  end.

(** ** Decimal digits *)

Fixpoint digits_aux (fuel : nat) (n : N) (acc : jsstring) : jsstring :=
  match fuel with
  | O => acc
  | S f =>
      if n <? 10 then (48 + n) :: acc
      else digits_aux f (n / 10) ((48 + n mod 10) :: acc)
  end.

(** The decimal digits of [n], most significant first. *)
Definition digitsN (n : N) : jsstring :=
  digits_aux (S (N.to_nat (N.log2 n))) n [].

(** The number a run of digits denotes in base [b]. *)
Definition digit_val (c : jschar) : N :=
  if is_digit c then c - 48
  else if (97 <=? c) && (c <=? 102) then c - 87
  else if (65 <=? c) && (c <=? 70) then c - 55
  else 0.

Definition digits_val (b : N) (s : jsstring) : N :=
  fold_left (fun acc c => b * acc + digit_val c) s 0.

(** The text of an integer: [Date.now()] is an integral Number of at
    most 16 digits, which [Number::toString] prints as plain digits. *)
Definition digitsZ (z : Z) : jsstring :=
  if (z <? 0)%Z then MINUS :: digitsN (Z.abs_N z) else digitsN (Z.abs_N z).

(** ** Numbers *)

Inductive number :=
| NaN
| Inf (neg : bool)
| Dec (neg : bool) (m : N) (scale : nat).

Definition zero : number := Dec false 0 0.

(** Trailing zeros of the fraction carry no information. *)
Fixpoint strip (m : N) (scale : nat) : N * nat :=
  match scale with
  | O => (m, O)
  | S k => if m mod 10 =? 0 then strip (m / 10) k else (m, scale)
  end.

(** The Number of value [(-1)^neg * m * 10^e], rounded to zero or to an
    infinity where binary64 does: at or below half the least subnormal
    [2^-1075] it is zero, at or above [2^1024 - 2^970] it is infinite.
    Between the two the exact decimal is kept and stands for the Number
    nearest to it; they are the same for a whole number below [2^53]. *)
Definition mkNumber (neg : bool) (m : N) (e : Z) : number :=
  if m =? 0 then zero
  else if (0 <=? e)%Z then
    let v := m * 10 ^ Z.to_N e in
    if 2 ^ 1024 - 2 ^ 970 <=? v then Inf neg else Dec neg v 0
  else
    let d := 10 ^ Z.to_N (- e) in
    if m * 2 ^ 1075 <=? d then zero
    else if (2 ^ 1024 - 2 ^ 970) * d <=? m then Inf neg
    else let (m', s') := strip m (Z.to_nat (- e)) in Dec neg m' s'.

Definition numOfZ (z : Z) : number := mkNumber (z <? 0)%Z (Z.abs_N z) 0.

(** Truthiness of a Number: zero and [NaN] are falsy. *)
Definition truthy_num (x : number) : bool :=
  match x with
  | NaN => false
  | Inf _ => true
  | Dec _ m _ => negb (m =? 0)
  end.

(** [span p s]: the longest prefix of [s] in the class [p], and the rest. *)
Fixpoint span (p : jschar -> bool) (s : jsstring) : jsstring * jsstring :=
  match s with
  | [] => ([], [])
  | c :: s' =>
      if p c then let (a, b) := span p s' in (c :: a, b) else ([], s)
  end.

Definition trim (s : jsstring) : jsstring :=
  rev (drop_while is_space (rev (drop_while is_space s))).

Definition is_hex (c : jschar) : bool :=
  is_digit c || ((97 <=? c) && (c <=? 102)) || ((65 <=? c) && (c <=? 70)).
Definition is_oct (c : jschar) : bool := (48 <=? c) && (c <=? 55).
Definition is_bin (c : jschar) : bool := (48 <=? c) && (c <=? 49).

(** NonDecimalIntegerLiteral: [0x], [0o] or [0b] and digits, unsigned. *)
Definition parse_radix (b : N) (ok : jschar -> bool) (ds : jsstring)
  : number :=
  match ds with
  | [] => NaN
  | _ => if forallb ok ds then mkNumber false (digits_val b ds) 0 else NaN
  end.

Definition parse_nondecimal (t : jsstring) : option number :=
  match t with
  | z :: k :: ds =>
      if z =? 48 then
        if (k =? 120) || (k =? 88) then Some (parse_radix 16 is_hex ds)
        else if (k =? 111) || (k =? 79) then Some (parse_radix 8 is_oct ds)
        else if (k =? 98) || (k =? 66) then Some (parse_radix 2 is_bin ds)
        else None
      else None
  | _ => None
  end.

(** An optional sign. *)
Definition parse_sign (r : jsstring) : bool * jsstring :=
  match r with
  | c :: r' =>
      if c =? 43 then (false, r')
      else if c =? MINUS then (true, r')
      else (false, r)
  | [] => (false, r)
  end.

(** ExponentPart, which must end the literal. *)
Definition parse_exponent (r : jsstring) : option Z :=
  match r with
  | [] => Some 0%Z
  | c :: r' =>
      if (c =? 101) || (c =? 69) then
        let (neg, ds) := parse_sign r' in
        match ds with
        | [] => None
        | _ => if forallb is_digit ds then
                 let e := Z.of_N (digits_val 10 ds) in
                 Some (if neg then (- e)%Z else e)
               else None
        end
      else None
  end.

(** The fraction after the integer part: a decimal point and digits. *)
Definition parse_fraction (r : jsstring) : jsstring * jsstring :=
  match r with
  | c :: r' => if c =? DOT then span is_digit r' else ([], r)
  | [] => ([], r)
  end.

(** StrUnsignedDecimalLiteral. *)
Definition parse_unsigned (neg : bool) (t : jsstring) : number :=
  match prefix_cs (lit "Infinity") t with
  | Some [] => Inf neg
  | _ =>
      let (ip, r1) := span is_digit t in
      let (fp, r2) := parse_fraction r1 in
      match ip ++ fp with
      | [] => NaN
      | ds =>
          match parse_exponent r2 with
          | None => NaN
          | Some e => mkNumber neg (digits_val 10 ds) (e - Z.of_nat (List.length fp))
          end
      end
  end.

(** [Number(s)] for a string [s] (StringToNumber). *)
Definition StringToNumber (s : jsstring) : number :=
  match trim s with
  | [] => zero
  | t =>
      match parse_nondecimal t with
      | Some x => x
      | None => let (neg, t') := parse_sign t in parse_unsigned neg t'
      end
  end.

(** Trailing zeros of a digit string. *)
Definition strip_zeros (ds : jsstring) : jsstring :=
  rev (drop_while (fun c => c =? 48) (rev ds)).

(** [Number::toString(x)] in radix 10.  With [s] the digits of the
    shortest decimal, [k] their count and [n] the position of the decimal
    point, the four cases are those of the language definition. *)
Definition NumberToString (x : number) : jsstring :=
  match x with
  | NaN => lit "NaN"
  | Inf neg => (if neg then [MINUS] else []) ++ lit "Infinity"
  | Dec neg m scale =>
      if m =? 0 then lit "0"
      else
        let ds := digitsN m in
        let s := strip_zeros ds in
        let k := Z.of_nat (List.length s) in
        let n := (Z.of_nat (List.length ds) - Z.of_nat scale)%Z in
        (if neg then [MINUS] else []) ++
        (if ((k <=? n) && (n <=? 21))%Z then
           s ++ repeat 48 (Z.to_nat (n - k))
         else if ((0 <? n) && (n <=? 21))%Z then
           firstn (Z.to_nat n) s ++ [DOT] ++ skipn (Z.to_nat n) s
         else if ((-6 <? n) && (n <=? 0))%Z then
           lit "0." ++ repeat 48 (Z.to_nat (- n)) ++ s
         else
           let e := (n - 1)%Z in
           let mant :=
             match s with
             | [d] => [d]
             | d :: rest => d :: DOT :: rest
             | [] => []
             end in
           mant ++ [101] ++ (if (0 <=? e)%Z then [43] else [MINUS])
                ++ digitsN (Z.abs_N e))
  end.

(** ** Values of a tuple: [string | number | null] *)

Inductive value :=
| VStr (s : jsstring)
| VNum (x : number)
| VNull.

Definition truthy (v : value) : bool :=
  match v with
  | VStr s => match s with [] => false | _ => true end
  | VNum x => truthy_num x
  | VNull => false
  end.

(** [v || d] *)
Definition or_else (v d : value) : value := if truthy v then v else d.

(** [String(v)] *)
Definition String_ (v : value) : jsstring :=
  match v with
  | VStr s => s
  | VNum x => NumberToString x
  | VNull => lit "null"
  end.

(** [Number(v)] *)
Definition Number_ (v : value) : number :=
  match v with
  | VStr s => StringToNumber s
  | VNum x => x
  | VNull => zero
  end.

(** [s === t] on strings *)
Fixpoint str_eqb (s t : jsstring) : bool :=
  match s, t with
  | [], [] => true
  | a :: s', b :: t' => (a =? b) && str_eqb s' t'
  | _, _ => false
  end.

End JS.

(** ** The data model of [src/types.ts] *)

Module Types.
Import JS.

Inductive TxType := CREDIT | DEBIT.

Record Transaction := {
  date : jsstring;
  amount : number;
  description : jsstring;
  transaction_code : jsstring;
  partner_name : jsstring;
  partner_account : jsstring;
  type : TxType;
  category : option jsstring   (* category?: string *)
}.

Record StatementData := {
  id : option jsstring;
  fileName : option jsstring;
  savedAt : option number;
  bankName : option jsstring;
  accountHolder : option jsstring;
  period : option jsstring;
  transactions : list Transaction
}.

Definition TxType_text (t : TxType) : jsstring :=
  match t with CREDIT => lit "CREDIT" | DEBIT => lit "DEBIT" end.

End Types.

(** ** [src/utils/sqlHelpers.ts] *)

Module SqlHelpers.
Import JS Types.
Local Open Scope N_scope.

(** [str.replace] of every quote by two quotes. *)
Fixpoint escape_quotes (s : jsstring) : jsstring :=
  match s with
  | [] => []
  | c :: s' =>
      if c =? QUOTE then QUOTE :: QUOTE :: escape_quotes s'
      else c :: escape_quotes s'
  end.

(** [replace] of every two quotes by one: the pairs are found left to
    right and do not overlap. *)
Fixpoint unescape_quotes (s : jsstring) : jsstring :=
  match s with
  | [] => []
  | a :: s' =>
      match s' with
      | [] => [a]
      | b :: s'' =>
          if (a =? QUOTE) && (b =? QUOTE) then QUOTE :: unescape_quotes s''
          else a :: unescape_quotes s'
      end
  end.

Definition sqlEscape (str : option jsstring) : jsstring :=
  match str with
  | None => lit "NULL"
  | Some s => [QUOTE] ++ escape_quotes s ++ [QUOTE]
  end.

(** *** [sqlValueRegex]

    The pattern, flags [gi], is an alternation of three branches, tried
    in this order at each position:
    - a quote, the group 1 of [[^']] or two quotes, repeated, and a quote;
    - group 2, the word NULL;
    - group 3, [[-\d]+] followed by an optional [\.\d+].
    One function per branch.  A match is the capture group that took part
    and the text after the match. *)

Inductive capture :=
| Group1 (body : jsstring)    (* match[1] *)
| Group2                      (* match[2] *)
| Group3 (text : jsstring).   (* match[3] *)

(** The first branch after the opening quote.  The star is greedy: at a
    quote followed by a quote the pair is taken as one iteration, and
    only when the rest then fails to match does the matcher backtrack
    and close the literal at the first quote of the pair. *)
Fixpoint quoted_body (t : jsstring) : option (jsstring * jsstring) :=
  match t with
  | [] => None
  | c :: t' =>
      if c =? QUOTE then
        match t' with
        | [] => Some ([], t')
        | q :: t'' =>
            if q =? QUOTE then
              match quoted_body t'' with
              | Some (b, r) => Some (QUOTE :: QUOTE :: b, r)
              | None => Some ([], t')
              end
            else Some ([], t')
        end
      else
        match quoted_body t' with
        | Some (b, r) => Some (c :: b, r)
        | None => None
        end
  end.

(** [[-\d]] *)
Definition is_minus_or_digit (c : jschar) : bool := (c =? MINUS) || is_digit c.

(** [[-\d]+(?:\.\d+)?]: both repetitions are greedy and nothing follows
    them, so each takes its longest run. *)
Definition number_token (s : jsstring) : option (jsstring * jsstring) :=
  let (run, r) := span is_minus_or_digit s in
  match run with
  | [] => None
  | _ =>
      match r with
      | [] => Some (run, r)
      | c :: r' =>
          if c =? DOT then
            let (fr, r'') := span is_digit r' in
            match fr with
            | [] => Some (run, r)
            | _ => Some (run ++ DOT :: fr, r'')
            end
          else Some (run, r)
      end
  end.

(** The regular expression at one position: the alternatives in order. *)
Definition match_value (s : jsstring) : option (capture * jsstring) :=
  match
    match s with
    | c :: t => if c =? QUOTE then quoted_body t else None
    | [] => None
    end
  with
  | Some (b, r) => Some (Group1 b, r)
  | None =>
      match prefix_ci (lit "NULL") s with
      | Some r => Some (Group2, r)
      | None =>
          match number_token s with
          | Some (t, r) => Some (Group3 t, r)
          | None => None
          end
      end
  end.

(** The body of the [while] loop of [extractValues]. *)
Definition value_of (m : capture) : value :=
  match m with
  | Group1 b => VStr (unescape_quotes b)
  | Group2 => VNull
  | Group3 t => VNum (StringToNumber t)
  end.

(** [while ((match = sqlValueRegex.exec(str)) !== null)]: [exec] looks
    for the leftmost match from [lastIndex] on and leaves [lastIndex]
    after it.  Every match takes at least one character, so [fuel] above
    the length of the text never runs out. *)
Fixpoint extract_loop (fuel : nat) (s : jsstring) : list value :=
  match fuel with
  | O => []
  | S f =>
      match match_value s with
      | Some (m, rest) => value_of m :: extract_loop f rest
      | None =>
          match s with
          | [] => []
          | _ :: s' => extract_loop f s'
          end
      end
  end.

Definition extractValues (str : jsstring) : list value :=
  extract_loop (S (List.length str)) str.

(** *** [generateSQL] *)

Definition createStatements : jsstring :=
  lit "CREATE TABLE IF NOT EXISTS statements (" ++ nl ++
  lit "    id TEXT PRIMARY KEY," ++ nl ++
  lit "    file_name TEXT," ++ nl ++
  lit "    bank_name TEXT," ++ nl ++
  lit "    account_holder TEXT," ++ nl ++
  lit "    period TEXT," ++ nl ++
  lit "    saved_at INTEGER" ++ nl ++
  lit ");" ++ nl ++ nl.

Definition createTransactions : jsstring :=
  lit "CREATE TABLE IF NOT EXISTS transactions (" ++ nl ++
  lit "    id INTEGER PRIMARY KEY AUTOINCREMENT," ++ nl ++
  lit "    statement_id TEXT," ++ nl ++
  lit "    date TEXT," ++ nl ++
  lit "    amount REAL," ++ nl ++
  lit "    description TEXT," ++ nl ++
  lit "    transaction_code TEXT," ++ nl ++
  lit "    partner_name TEXT," ++ nl ++
  lit "    partner_account TEXT," ++ nl ++
  lit "    type TEXT," ++ nl ++
  lit "    category TEXT," ++ nl ++
  lit "    FOREIGN KEY(statement_id) REFERENCES statements(id)" ++ nl ++
  lit ");" ++ nl ++ nl.

(** [x || d] for an optional string: absent and empty are falsy. *)
Definition str_or (x : option jsstring) (d : jsstring) : jsstring :=
  match x with
  | Some (c :: s) => c :: s
  | _ => d
  end.

(** [const stmtId = data.id || Date.now().toString()] *)
Definition stmtIdOf (nowId : Z) (data : StatementData) : jsstring :=
  str_or (id data) (digitsZ nowId).

(** The three comment lines that open the document. *)
Definition headerComment (iso : jsstring) (data : StatementData) : jsstring :=
  lit "-- Smart Bank Statement Backup" ++ nl ++
  lit "-- Created at: " ++ iso ++ nl ++
  lit "-- Bank: " ++ str_or (bankName data) (lit "Unknown") ++ nl ++ nl.

Definition insertStatement (nowId nowSaved : Z) (data : StatementData)
  : jsstring :=
  lit "INSERT INTO statements (id, file_name, bank_name, account_holder, period, saved_at) VALUES ("
    ++ nl ++
  lit "    " ++ sqlEscape (Some (stmtIdOf nowId data)) ++ lit "," ++ nl ++
  lit "    " ++ sqlEscape (fileName data) ++ lit "," ++ nl ++
  lit "    " ++ sqlEscape (bankName data) ++ lit "," ++ nl ++
  lit "    " ++ sqlEscape (accountHolder data) ++ lit "," ++ nl ++
  lit "    " ++ sqlEscape (period data) ++ lit "," ++ nl ++
  lit "    " ++ digitsZ nowSaved ++ nl ++
  lit ");" ++ nl ++ nl.

(** The tuple of one transaction, the callback of [transactions.map]. *)
Definition txRow (stmtId : jsstring) (tx : Transaction) : jsstring :=
  lit "(" ++ sqlEscape (Some stmtId) ++ lit ", " ++
  sqlEscape (Some (date tx)) ++ lit ", " ++
  NumberToString (amount tx) ++ lit ", " ++
  sqlEscape (Some (description tx)) ++ lit ", " ++
  sqlEscape (Some (transaction_code tx)) ++ lit ", " ++
  sqlEscape (Some (partner_name tx)) ++ lit ", " ++
  sqlEscape (Some (partner_account tx)) ++ lit ", " ++
  sqlEscape (Some (TxType_text (type tx))) ++ lit ", " ++
  sqlEscape (category tx) ++ lit ")".

Definition insertTransactions (stmtId : jsstring) (txs : list Transaction)
  : jsstring :=
  match txs with
  | [] => []
  | _ =>
      lit "INSERT INTO transactions (statement_id, date, amount, description, transaction_code, partner_name, partner_account, type, category) VALUES"
        ++ nl ++
      join (lit "," ++ nl) (map (txRow stmtId) txs) ++ lit ";" ++ nl
  end.

(** [generateSQL(data)], with [iso] the text of [new Date().toISOString()],
    [nowId] the reading of [Date.now()] behind the default id and
    [nowSaved] the reading written into the [saved_at] column. *)
Definition generateSQL (iso : jsstring) (nowId nowSaved : Z)
  (data : StatementData) : jsstring :=
  let stmtId := stmtIdOf nowId data in
  headerComment iso data ++
  createStatements ++
  createTransactions ++
  insertStatement nowId nowSaved data ++
  insertTransactions stmtId (transactions data).

(** *** [parseSQL] *)

(** The lazy group followed by a closing parenthesis and a semicolon:
    at least one character is captured, and the capture ends at the first
    place from there on where the two closing characters follow. *)
Fixpoint lazy_capture (s : jsstring) : option jsstring :=
  match s with
  | [] => None
  | c :: s' =>
      match prefix_cs [RPAREN; SEMI] s' with
      | Some _ => Some [c]
      | None =>
          match lazy_capture s' with
          | Some cap => Some (c :: cap)
          | None => None
          end
      end
  end.

Definition not_rparen (c : jschar) : bool := negb (c =? RPAREN).

(** A parenthesised list [\([^)]+\)]: the run stops at the first
    closing parenthesis, and no shorter run is followed by one. *)
Definition paren_group (s : jsstring) : option jsstring :=
  match s with
  | [] => None
  | c :: s1 =>
      if c =? LPAREN then
        match span not_rparen s1 with
        | (_ :: _, r :: s2) => if r =? RPAREN then Some s2 else None
        | _ => None
        end
      else None
  end.

(** The metadata pattern at one position: the words INSERT INTO
    statements, spaces, a parenthesised list, spaces, the word VALUES,
    spaces, an opening parenthesis and the lazy group; the result is
    [stmtMatch[1]].  The space runs are greedy and each is followed by a
    character that is no space, so no other split can match. *)
Definition match_statements_at (s : jsstring) : option jsstring :=
  match prefix_ci (lit "INSERT INTO statements") s with
  | None => None
  | Some s1 =>
      match paren_group (drop_while is_space s1) with
      | None => None
      | Some s2 =>
          match prefix_ci (lit "VALUES") (drop_while is_space s2) with
          | None => None
          | Some s3 =>
              match drop_while is_space s3 with
              | [] => None
              | c :: s4 => if c =? LPAREN then lazy_capture s4 else None
              end
          end
      end
  end.

(** [sqlContent.match(...)]: the leftmost position with a match. *)
Fixpoint search_statements (s : jsstring) : option jsstring :=
  match match_statements_at s with
  | Some cap => Some cap
  | None =>
      match s with
      | [] => None
      | _ :: s' => search_statements s'
      end
  end.

(** [insertRegex] at one position: the words INSERT INTO transactions,
    spaces, an optional parenthesised list, spaces and the word VALUES;
    the result is the text after the match.  When the list is present
    the text after the first space run starts with a parenthesis, so the
    branch without the list cannot match, and conversely. *)
Definition match_insert_at (s : jsstring) : option jsstring :=
  match prefix_ci (lit "INSERT INTO transactions") s with
  | None => None
  | Some s1 =>
      let s2 := drop_while is_space s1 in
      match paren_group s2 with
      | Some s3 => prefix_ci (lit "VALUES") (drop_while is_space s3)
      | None => prefix_ci (lit "VALUES") s2
      end
  end.

(** [insertRegex.exec(sqlContent)] from [lastIndex], where [s] is the
    text from [lastIndex] on: the index after the leftmost match, which
    is [match.index + match[0].length] and the next [lastIndex], and the
    text from there on. *)
Fixpoint search_insert (lastIndex : Z) (s : jsstring)
  : option (Z * jsstring) :=
  match match_insert_at s with
  | Some rest =>
      Some ((lastIndex + Z.of_nat (List.length s - List.length rest))%Z, rest)
  | None =>
      match s with
      | [] => None
      | _ :: s' => search_insert (lastIndex + 1)%Z s'
      end
  end.

Definition col (cols : list value) (i : nat) : value := nth i cols VNull.

(** The object pushed for a tuple of at least nine values. *)
Definition txOfCols (cols : list value) : Transaction :=
  {| date := String_ (or_else (col cols 1) (VStr []));
     amount := Number_ (or_else (col cols 2) (VNum zero));
     description := String_ (or_else (col cols 3) (VStr []));
     transaction_code := String_ (or_else (col cols 4) (VStr []));
     partner_name := String_ (or_else (col cols 5) (VStr []));
     partner_account := String_ (or_else (col cols 6) (VStr []));
     type := if str_eqb (String_ (col cols 7)) (lit "CREDIT")
             then CREDIT else DEBIT;
     category := Some (String_ (or_else (col cols 8) (VStr []))) |}.

(** What the scanner does with a completed tuple. *)
Definition pushTuple (tupleStr : jsstring) (txs : list Transaction)
  : list Transaction :=
  let cols := extractValues tupleStr in
  if (9 <=? List.length cols)%nat then txs ++ [txOfCols cols] else txs.

(** The two loops of the scanner.  What is done with a completed tuple
    is the parameter [push] of the section, over a list of [A]: in
    [parseSQL] it is [pushTuple] over the transactions. *)
Section Scanner.

Variable A : Type.
Variable push : jsstring -> list A -> list A.

(** The inner [while (currentIndex < sqlContent.length)] loop.  [rest] is
    the text of [sqlContent] from [currentIndex] on; the other arguments
    are the variables of the loop. *)
Fixpoint scan (sqlContent rest : jsstring) (currentIndex : Z)
  (inString : bool) (parenDepth tupleStart : Z) (txs : list A)
  : list A :=
  match rest with
  | [] => txs
  | char :: rest' =>
      if inString then
        if char =? QUOTE then
          match rest' with
          | next :: rest'' =>
              if next =? QUOTE then
                scan sqlContent rest'' (currentIndex + 2) true
                     parenDepth tupleStart txs
              else
                scan sqlContent rest' (currentIndex + 1) false
                     parenDepth tupleStart txs
          | [] =>
              scan sqlContent rest' (currentIndex + 1) false
                   parenDepth tupleStart txs
          end
        else
          scan sqlContent rest' (currentIndex + 1) true
               parenDepth tupleStart txs
      else if char =? QUOTE then
        scan sqlContent rest' (currentIndex + 1) true
             parenDepth tupleStart txs
      else if char =? LPAREN then
        scan sqlContent rest' (currentIndex + 1) false (parenDepth + 1)
             (if (parenDepth =? 0)%Z then currentIndex else tupleStart) txs
      else if char =? RPAREN then
        let parenDepth' := (parenDepth - 1)%Z in
        if (parenDepth' =? 0)%Z && negb (tupleStart =? -1)%Z then
          let tupleStr := substring sqlContent (tupleStart + 1) currentIndex in
          scan sqlContent rest' (currentIndex + 1) false parenDepth' (-1)
               (push tupleStr txs)
        else
          scan sqlContent rest' (currentIndex + 1) false
               parenDepth' tupleStart txs
      else if (char =? SEMI) && (parenDepth =? 0)%Z then
        txs
      else
        scan sqlContent rest' (currentIndex + 1) false
             parenDepth tupleStart txs
  end.

(** The outer [while ((match = insertRegex.exec(sqlContent)) !== null)]
    loop.  [rest] is the text from [lastIndex] on.  The inner loop leaves
    [lastIndex] alone: the next search starts after the marker, not where
    the scan stopped.  A marker takes more than one character, so [fuel]
    above the length of the text never runs out. *)
Fixpoint insert_loop (fuel : nat) (sqlContent rest : jsstring)
  (lastIndex : Z) (txs : list A) : list A :=
  match fuel with
  | O => txs
  | S f =>
      match search_insert lastIndex rest with
      | None => txs
      | Some (currentIndex, rest') =>
          insert_loop f sqlContent rest' currentIndex
            (scan sqlContent rest' currentIndex false 0 (-1) txs)
      end
  end.

Definition scanWith (sqlContent : jsstring) : list A :=
  insert_loop (S (List.length sqlContent)) sqlContent sqlContent 0 [].

End Scanner.

Arguments scan {A} push sqlContent rest currentIndex inString parenDepth
  tupleStart txs.
Arguments insert_loop {A} push fuel sqlContent rest lastIndex txs.
Arguments scanWith {A} push sqlContent.

(** The transactions of [parseSQL]. *)
Definition scanTransactions (sqlContent : jsstring) : list Transaction :=
  scanWith pushTuple sqlContent.

(** The inner texts of the completed tuples, in the order in which the
    scanner completes them. *)
Definition completedTuples (sqlContent : jsstring) : list jsstring :=
  scanWith (fun tupleStr acc => acc ++ [tupleStr]) sqlContent.

Inductive error :=
| ErrNoStatements      (* the statements table was not found *)
| ErrShortStatements   (* the statements row has too few fields *)
| ErrCorrupt.          (* the file is corrupt or of the wrong format *)

Inductive result (A : Type) :=
| Ok (a : A)
| Error (e : error).
Arguments Ok {A} a.
Arguments Error {A} e.

(** [try { body } catch (error) { handler }] *)
Definition try_catch {A} (body : result A) (handler : error -> result A)
  : result A :=
  match body with
  | Ok a => Ok a
  | Error e => handler e
  end.

(** The body of the [try] block. *)
Definition parseSQL_body (now : Z) (sqlContent : jsstring)
  : result StatementData :=
  match search_statements sqlContent with
  | None => Error ErrNoStatements
  | Some stmtValuesStr =>
      let stmtData := extractValues stmtValuesStr in
      if (List.length stmtData <? 6)%nat then Error ErrShortStatements
      else
        let transactions := scanTransactions sqlContent in
        Ok {| id := Some (String_ (or_else (col stmtData 0) (VStr [])));
              fileName := Some (String_ (or_else (col stmtData 1)
                                           (VStr (lit "Recovered_Statement"))));
              bankName := Some (String_ (or_else (col stmtData 2) (VStr [])));
              accountHolder :=
                Some (String_ (or_else (col stmtData 3) (VStr [])));
              period := Some (String_ (or_else (col stmtData 4) (VStr [])));
              savedAt := Some (Number_ (or_else (col stmtData 5)
                                          (VNum (numOfZ now))));
              transactions := transactions |}
  end.

(** [parseSQL(sqlContent)], with [now] the reading of [Date.now()]. *)
Definition parseSQL (now : Z) (sqlContent : jsstring)
  : result StatementData :=
  try_catch (parseSQL_body now sqlContent) (fun _ => Error ErrCorrupt).

End SqlHelpers.

(** ** Vocabulary of the properties *)

Module Props.
Import JS Types SqlHelpers.
Local Open Scope N_scope.

(** The literal [p] occurs in [s], with [eqc] the comparison of
    characters. *)
Fixpoint occurs_with (eqc : jschar -> jschar -> bool) (p s : jsstring)
  : bool :=
  match prefix_with eqc p s with
  | Some _ => true
  | None =>
      match s with
      | [] => false
      | _ :: s' => occurs_with eqc p s'
      end
  end.

Definition occurs_ci : jsstring -> jsstring -> bool := occurs_with eq_ci.
Definition occurs_cs : jsstring -> jsstring -> bool := occurs_with N.eqb.

Definition quote_free (s : jsstring) : bool :=
  forallb (fun c => negb (c =? QUOTE)) s.

(** The two words that open both insert markers do not occur in [s]. *)
Definition marker_free (s : jsstring) : bool :=
  negb (occurs_ci (lit "INSERT INTO") s).

(** No closing parenthesis followed by a semicolon in [s]. *)
Definition no_close (s : jsstring) : bool :=
  negb (occurs_cs [RPAREN; SEMI] s).

(** What a text field of the metadata has to avoid. *)
Definition meta_safe (s : jsstring) : bool := marker_free s && no_close s.

Definition opt_forall (p : jsstring -> bool) (o : option jsstring) : bool :=
  match o with
  | Some s => p s
  | None => true
  end.

(** A finite Number that [Number::toString] prints without an exponent:
    zero, or a decimal with no trailing zero in its fraction whose point
    lies at most 21 places after and less than 6 places before its first
    digit, that is [1e-6 <= |x| < 1e21]. *)
Definition plain_amount (x : number) : bool :=
  match x with
  | Dec neg m scale =>
      if m =? 0 then negb neg && (scale =? 0)%nat
      else
        ((scale =? 0)%nat || negb (m mod 10 =? 0)) &&
        (let n := (Z.of_nat (List.length (digitsN m)) - Z.of_nat scale)%Z in
         (-6 <? n)%Z && (n <=? 21)%Z)
  | _ => false
  end.

(** A transaction without marker text and with a plain amount. *)
Definition tx_safe (tx : Transaction) : bool :=
  marker_free (date tx) && plain_amount (amount tx) &&
  marker_free (description tx) && marker_free (transaction_code tx) &&
  marker_free (partner_name tx) && marker_free (partner_account tx) &&
  opt_forall marker_free (category tx).

(** A record without marker text, without the closing pair in its
    metadata and with plain amounts. *)
Definition record_safe (r : StatementData) : bool :=
  opt_forall meta_safe (id r) && opt_forall meta_safe (fileName r) &&
  opt_forall meta_safe (bankName r) && opt_forall meta_safe (accountHolder r) &&
  opt_forall meta_safe (period r) && forallb tx_safe (transactions r).

(** No quote character in any text field. *)
Definition tx_quote_free (tx : Transaction) : bool :=
  quote_free (date tx) && quote_free (description tx) &&
  quote_free (transaction_code tx) && quote_free (partner_name tx) &&
  quote_free (partner_account tx) && opt_forall quote_free (category tx).

Definition record_quote_free (r : StatementData) : bool :=
  opt_forall quote_free (id r) && opt_forall quote_free (fileName r) &&
  opt_forall quote_free (bankName r) &&
  opt_forall quote_free (accountHolder r) &&
  opt_forall quote_free (period r) && forallb tx_quote_free (transactions r).

(** What decoding makes of an encoded transaction: an absent category
    comes back as the empty string. *)
Definition decodedTx (tx : Transaction) : Transaction :=
  {| date := date tx;
     amount := amount tx;
     description := description tx;
     transaction_code := transaction_code tx;
     partner_name := partner_name tx;
     partner_account := partner_account tx;
     type := type tx;
     category := Some (match category tx with Some c => c | None => [] end) |}.

(** What decoding makes of an encoded record, given the three clock
    readings: the id and the text fields with their defaults, and the
    clock of the encoder in [savedAt] (the clock of the decoder when
    that reading is zero). *)
Definition decodedRecord (nowId nowSaved now : Z) (r : StatementData)
  : StatementData :=
  {| id := Some (stmtIdOf nowId r);
     fileName := Some (str_or (fileName r) (lit "Recovered_Statement"));
     savedAt := Some (Number_ (or_else (VNum (numOfZ nowSaved))
                                       (VNum (numOfZ now))));
     bankName := Some (str_or (bankName r) []);
     accountHolder := Some (str_or (accountHolder r) []);
     period := Some (str_or (period r) []);
     transactions := map decodedTx (transactions r) |}.

(** Decoding fails on [t]: no metadata statement, or fewer than six
    values in it. *)
Definition metadata_failure (t : jsstring) : bool :=
  match search_statements t with
  | None => true
  | Some v => (List.length (extractValues v) <? 6)%nat
  end.

(** The sixth value of the metadata tuple of [t]. *)
Definition sixthValue (t : jsstring) : value :=
  match search_statements t with
  | None => VNull
  | Some v => col (extractValues v) 5
  end.

Definition long_enough (cols : list value) : bool :=
  (9 <=? List.length cols)%nat.

(** The text of a document before the words INSERT INTO statements. *)
Fixpoint beforeStatements (s : jsstring) : jsstring :=
  match prefix_cs (lit "INSERT INTO statements") s with
  | Some _ => []
  | None =>
      match s with
      | [] => []
      | c :: s' => c :: beforeStatements s'
      end
  end.

(** The declarations of the two tables. *)
Definition tablesPreamble : jsstring := createStatements ++ createTransactions.

Definition transactionsOf (x : result StatementData) : list Transaction :=
  match x with
  | Ok r => transactions r
  | Error _ => []
  end.

(** A character that can open one of the three branches of
    [sqlValueRegex]. *)
Definition opens_value (c : jschar) : bool :=
  N.eqb c QUOTE || eq_ci 78%N c || is_minus_or_digit c.

(** [r] does not start with a quote. *)
Definition no_quote_ahead (r : jsstring) : Prop :=
  match r with
  | [] => True
  | c :: _ => N.eqb c QUOTE = false
  end.

(** An optional string written by [sqlEscape]. *)
Definition valueOfOpt (o : option jsstring) : value :=
  match o with
  | Some s => VStr s
  | None => VNull
  end.

(** The pieces of the two insert statements of [generateSQL]: the text
    up to the opening parenthesis of the metadata tuple, the text inside
    that tuple, the text inside the tuple of a transaction, and the
    transaction marker with its column list. *)
Definition metaHead : jsstring :=
  lit "INSERT INTO statements (id, file_name, bank_name, account_holder, period, saved_at) VALUES (".

Definition metadataInner (nowId nowSaved : Z) (data : StatementData)
  : jsstring :=
  nl ++
  lit "    " ++ sqlEscape (Some (stmtIdOf nowId data)) ++ lit "," ++ nl ++
  lit "    " ++ sqlEscape (fileName data) ++ lit "," ++ nl ++
  lit "    " ++ sqlEscape (bankName data) ++ lit "," ++ nl ++
  lit "    " ++ sqlEscape (accountHolder data) ++ lit "," ++ nl ++
  lit "    " ++ sqlEscape (period data) ++ lit "," ++ nl ++
  lit "    " ++ digitsZ nowSaved ++ nl.

Definition rowInner (stmtId : jsstring) (tx : Transaction) : jsstring :=
  sqlEscape (Some stmtId) ++ lit ", " ++
  sqlEscape (Some (date tx)) ++ lit ", " ++
  NumberToString (amount tx) ++ lit ", " ++
  sqlEscape (Some (description tx)) ++ lit ", " ++
  sqlEscape (Some (transaction_code tx)) ++ lit ", " ++
  sqlEscape (Some (partner_name tx)) ++ lit ", " ++
  sqlEscape (Some (partner_account tx)) ++ lit ", " ++
  sqlEscape (Some (TxType_text (type tx))) ++ lit ", " ++
  sqlEscape (category tx).

Definition txHead : jsstring :=
  lit "INSERT INTO transactions (statement_id, date, amount, description, transaction_code, partner_name, partner_account, type, category) VALUES".

(** The character [c] matches no character of the literal [p]. *)
Definition not_in (eqc : jschar -> jschar -> bool) (c : jschar)
  (p : jsstring) : bool :=
  forallb (fun a => negb (eqc a c)) p.

(** A search for the literal [p] passes over [a]: whatever follows [a],
    no match of [p] starts inside [a]. *)
Definition Skippable (eqc : jschar -> jschar -> bool) (p a : jsstring)
  : Prop :=
  forall a1 a2 rest,
    a = a1 ++ a2 -> a2 <> [] -> prefix_with eqc p (a2 ++ rest) = None.

(** The text of a decimal numeral: sign, integer part, fraction. *)
Definition numeral (neg : bool) (ip fp : jsstring) : jsstring :=
  (if neg then [MINUS] else []) ++ ip ++
  match fp with
  | [] => []
  | _ => DOT :: fp
  end.

(** [r] does not go on with a digit, a minus sign or a decimal point. *)
Definition sep_ahead (r : jsstring) : Prop :=
  match r with
  | [] => True
  | c :: _ => is_minus_or_digit c = false /\ N.eqb c DOT = false
  end.

(** A character the scanner passes over outside a string literal. *)
Definition plain_char (c : jschar) : bool :=
  negb (c =? QUOTE) && negb (c =? LPAREN) && negb (c =? RPAREN)
  && negb (c =? SEMI).

(** The characters of a numeral. *)
Definition numeral_char (c : jschar) : bool :=
  is_digit c || (c =? MINUS) || (c =? DOT).

(** The scanner passes over [inner] outside a string literal and leaves
    its state as it found it. *)
Definition Passes {A} (push : jsstring -> list A -> list A)
  (inner : jsstring) : Prop :=
  forall content rest i d ts acc,
    no_quote_ahead rest ->
    scan push content (inner ++ rest) i false d ts acc
    = scan push content rest (i + Z.of_nat (List.length inner)) false d ts acc.

(** A tuple in its parentheses. *)
Definition paren (inner : jsstring) : jsstring :=
  LPAREN :: inner ++ [RPAREN].

(** The separator of the rows. *)
Definition rowSep : jsstring := lit "," ++ nl.

(** A value as it is written into a tuple: a text in quotes or the
    word NULL, as [sqlEscape] writes them, or a Number. *)
Inductive field :=
| FText (o : option jsstring)
| FNumber (a : number).

Definition fieldText (f : field) : jsstring :=
  match f with
  | FText o => sqlEscape o
  | FNumber a => NumberToString a
  end.

Definition fieldValue (f : field) : value :=
  match f with
  | FText o => valueOfOpt o
  | FNumber a => VNum a
  end.


(** The text inside the parentheses of a tuple of any number of
    values. *)
Definition tupleInner (fs : list field) : jsstring :=
  join (lit ", ") (map fieldText fs).

(** A transaction statement, laid out as the encoder lays it out, whose
    tuples hold any number of values each. *)
Definition statementOfTuples (rows : list (list field)) : jsstring :=
  txHead ++ nl ++ join rowSep (map paren (map tupleInner rows))
  ++ lit ";" ++ nl.

End Props.

(** ** Sample records and documents *)

Module Samples.
Import JS Types SqlHelpers Props.
Local Open Scope N_scope.

Definition iso : jsstring := lit "2024-01-01T00:00:00.000Z".

Definition txAtm : Transaction :=
  {| date := lit "01/01/2024";
     amount := Dec true 50000 0;
     description := lit "ATM fee";
     transaction_code := lit "FT001";
     partner_name := lit "ATM";
     partner_account := lit "0011";
     type := DEBIT;
     category := Some (lit "Fees") |}.

Definition withDescription (d : jsstring) (tx : Transaction) : Transaction :=
  {| date := date tx;
     amount := amount tx;
     description := d;
     transaction_code := transaction_code tx;
     partner_name := partner_name tx;
     partner_account := partner_account tx;
     type := type tx;
     category := category tx |}.

Definition withAmount (a : number) (tx : Transaction) : Transaction :=
  {| date := date tx;
     amount := a;
     description := description tx;
     transaction_code := transaction_code tx;
     partner_name := partner_name tx;
     partner_account := partner_account tx;
     type := type tx;
     category := category tx |}.

Definition withCategory (c : option jsstring) (tx : Transaction)
  : Transaction :=
  {| date := date tx;
     amount := amount tx;
     description := description tx;
     transaction_code := transaction_code tx;
     partner_name := partner_name tx;
     partner_account := partner_account tx;
     type := type tx;
     category := c |}.

Definition statementOf (file : jsstring) (saved : option number)
  (txs : list Transaction) : StatementData :=
  {| id := Some (lit "s1");
     fileName := Some file;
     savedAt := saved;
     bankName := Some (lit "Bank A");
     accountHolder := Some (lit "A Holder");
     period := Some (lit "01/2024");
     transactions := txs |}.

Definition janStatement (txs : list Transaction) : StatementData :=
  statementOf (lit "jan.pdf") None txs.

(** The same statement of another bank. *)
Definition bankB : StatementData :=
  {| id := Some (lit "s1");
     fileName := Some (lit "jan.pdf");
     savedAt := None;
     bankName := Some (lit "Bank B");
     accountHolder := Some (lit "A Holder");
     period := Some (lit "01/2024");
     transactions := [] |}.

(** Encoding at clock readings 1700 and 1800, decoding at 1900. *)
Definition roundTrip (r : StatementData) : result StatementData :=
  parseSQL 1900 (generateSQL iso 1700 1800 r).

(** The description of the specification's quoting example; 34 is the
    double quote. *)
Definition obrien : jsstring := lit "O'Brien's " ++ [34] ++ lit "gift" ++ [34].

(** A description that holds the transaction marker and a tuple. *)
Definition dropMarker : jsstring :=
  lit "; DROP INSERT INTO transactions VALUES (1,2,3,4,5,6,7,8,9)".

Definition plainMarker : jsstring :=
  lit "INSERT INTO transactions VALUES (1,2,3,4,5,6,7,8,9)".

(** The transaction that the tuple inside the two descriptions above
    decodes to. *)
Definition phantomTx : Transaction :=
  {| date := lit "2";
     amount := Dec false 3 0;
     description := lit "4";
     transaction_code := lit "5";
     partner_name := lit "6";
     partner_account := lit "7";
     type := DEBIT;
     category := Some (lit "9") |}.

(** A document whose sixth metadata value is the null token. *)
Definition docNullSavedAt : jsstring :=
  lit "INSERT INTO statements (id) VALUES ('s1', 'f', 'b', 'h', 'p', NULL);".

Definition rowOf (d : jsstring) (a : N) : Transaction :=
  {| date := d;
     amount := Dec false a 0;
     description := lit "d";
     transaction_code := lit "c";
     partner_name := lit "n";
     partner_account := lit "a";
     type := DEBIT;
     category := Some (lit "k") |}.

(** A document whose first transaction statement has no terminator. *)
Definition docUnterminated : jsstring :=
  lit "INSERT INTO statements (id) VALUES ('s1', 'f', 'b', 'h', 'p', 1);"
    ++ nl ++
  lit "INSERT INTO transactions VALUES ('s1', 'A', 1, 'd', 'c', 'n', 'a', 'DEBIT', 'k')"
    ++ nl ++
  lit "INSERT INTO transactions VALUES ('s1', 'B', 2, 'd', 'c', 'n', 'a', 'DEBIT', 'k'), ('s1', 'C', 3, 'd', 'c', 'n', 'a', 'DEBIT', 'k');"
    ++ nl.

(** A document with a tuple cut down to five columns between two
    complete ones. *)
Definition docTruncatedTuple : jsstring :=
  lit "INSERT INTO statements (id) VALUES ('s1', 'f', 'b', 'h', 'p', 1);"
    ++ nl ++
  lit "INSERT INTO transactions VALUES ('s1', 'A', 1, 'd', 'c', 'n', 'a', 'DEBIT', 'k'), ('s1', 'B', 2, 'd', 'c'), ('s1', 'C', 3, 'd', 'c', 'n', 'a', 'DEBIT', 'k');"
    ++ nl.

(** Records without quote characters on which the round trip of the
    transactions fails: a closing pair in the file name, an absent
    category, marker text in a description, an amount printed with an
    exponent. *)
Definition rCloseInFile : StatementData :=
  statementOf (lit "jan(1);.pdf") None [txAtm].

Definition rNoCategory : StatementData :=
  janStatement [withCategory None txAtm].

Definition rMarker : StatementData :=
  janStatement [withDescription plainMarker txAtm].

Definition rHuge : StatementData :=
  janStatement [withAmount (Dec false (10 ^ 21) 0) txAtm].

(** Marker text in the description of the first of two transactions. *)
Definition rMarkerThenRow : StatementData :=
  janStatement [withDescription plainMarker txAtm; rowOf (lit "B") 2].

(** A record on which it holds: delimiters in a description, a
    fraction, an absent holder. *)
Definition rPlain : StatementData :=
  {| id := None;
     fileName := Some (lit "jan.pdf");
     savedAt := None;
     bankName := Some (lit "Bank A");
     accountHolder := None;
     period := Some (lit "01/2024");
     transactions :=
       [txAtm;
        withDescription (lit "a), (b; DROP TABLE x, y") txAtm;
        withAmount (Dec false 1999 2) (withCategory None txAtm)] |}.

(** A tuple of nine values, and a statement of four tuples of which
    the second has five values and the third none. *)
Definition tupleOf (d : jsstring) (a : N) : list field :=
  [FText (Some (lit "s1")); FText (Some d); FNumber (Dec false a 0);
   FText (Some (lit "d")); FText (Some (lit "c")); FText (Some (lit "n"));
   FText (Some (lit "a")); FText (Some (lit "DEBIT")); FText (Some (lit "k"))].

Definition tuplesWithShort : list (list field) :=
  [tupleOf (lit "A") 1; firstn 5 (tupleOf (lit "B") 2); [];
   tupleOf (lit "C") 3].

End Samples.

(** ** File names of the exports: [src/utils/exportUtils.ts] *)

Module ExportUtils.
Import JS Types SqlHelpers.
Local Open Scope N_scope.

Definition SLASH : jschar := 47.
Definition UNDERSCORE : jschar := 95.

(** The class of characters that are neither a slash nor a dot. *)
Definition not_slash_dot (c : jschar) : bool :=
  negb (c =? SLASH) && negb (c =? DOT).

(** The extension pattern at one position: a dot, then one or more
    characters of the class above, then the end of the text. *)
Definition match_extension_at (s : jsstring) : bool :=
  match s with
  | c :: t =>
      (c =? DOT) && match t with [] => false | _ => forallb not_slash_dot t end
  | [] => false
  end.

(** [name.replace(pattern, empty)] for the extension pattern: the
    leftmost match is removed, and as it ends at the end of the text what
    is left is the text before it. *)
Fixpoint remove_extension (s : jsstring) : jsstring :=
  if match_extension_at s then []
  else
    match s with
    | [] => []
    | c :: s' => c :: remove_extension s'
    end.

(** [const cleanName = (data.fileName || 'backup').replace(...)] in
    [exportExcelBackup]; [handleExportSQL] computes the same from the
    current file name. *)
Definition cleanName (fileName : option jsstring) : jsstring :=
  remove_extension (str_or fileName (lit "backup")).

(** The name under which [exportExcelBackup] writes the workbook. *)
Definition backupFileName (data : StatementData) : jsstring :=
  cleanName (fileName data) ++ lit "_FullBackup.xlsx".

(** The class [a-zA-Z0-9]. *)
Definition is_alnum (c : jschar) : bool :=
  ((97 <=? c) && (c <=? 122)) || ((65 <=? c) && (c <=? 90)) || is_digit c.

(** [const cleanBankName = (data.bankName || 'Statement').replace(...)]
    in [exportRawData]: the flag [g] replaces every character outside the
    class by an underscore. *)
Definition cleanBankName (data : StatementData) : jsstring :=
  map (fun c => if is_alnum c then c else UNDERSCORE)
      (str_or (bankName data) (lit "Statement")).

End ExportUtils.

(** ** The category filter of the filter bar *)

Module FilterBar.
Import JS.

(** [FilterCriteria] of [src/types.ts]. *)
Record FilterCriteria := {
  keyword : jsstring;
  startDate : jsstring;
  endDate : jsstring;
  minAmount : jsstring;
  maxAmount : jsstring;
  categories : list jsstring
}.

(** [current.includes(cat)] on an array of strings. *)
Definition includes (current : list jsstring) (cat : jsstring) : bool :=
  existsb (fun c => str_eqb c cat) current.

(** [handleChange('categories', value)]: what is handed to
    [onCriteriaChange]. *)
Definition handleChange_categories (criteria : FilterCriteria)
  (value : list jsstring) : FilterCriteria :=
  {| keyword := keyword criteria;
     startDate := startDate criteria;
     endDate := endDate criteria;
     minAmount := minAmount criteria;
     maxAmount := maxAmount criteria;
     categories := value |}.

(** [handleCategoryToggle(cat)] *)
Definition handleCategoryToggle (criteria : FilterCriteria) (cat : jsstring)
  : FilterCriteria :=
  let current := categories criteria in
  if includes current cat then
    handleChange_categories criteria
      (filter (fun c => negb (str_eqb c cat)) current)
  else
    handleChange_categories criteria (current ++ [cat]).

End FilterBar.

(** ** The history of saved statements: the storage service

    [localStorage] holds one text under [STORAGE_KEY], the JSON of an
    array of statements.  The text is modelled by the array that
    [JSON.parse] returns from it.  [JSON.stringify] followed by
    [JSON.parse] hands a statement back unchanged when its Numbers are
    finite ([NaN] and the infinities are written as null); [json_exact]
    says so of a statement.  The identifier that [generateId] draws and
    the reading of [Date.now()] are inputs, and so is whether
    [localStorage.setItem] succeeds. *)

Module Storage.
Import JS Types SqlHelpers.

Inductive entry :=
| Absent       (* [getItem] returns null or the empty string *)
| Unreadable   (* [JSON.parse] throws, or what it returns is no array *)
| Items (savedItems : list StatementData).

Definition is_finite (x : number) : bool :=
  match x with
  | Dec _ _ _ => true
  | _ => false
  end.

Definition json_exact (data : StatementData) : bool :=
  forallb (fun tx => is_finite (amount tx)) (transactions data) &&
  match savedAt data with
  | Some x => is_finite x
  | None => true
  end.

(** [item.id === id] for a string [id]. *)
Definition has_id (i : jsstring) (item : StatementData) : bool :=
  match id item with
  | Some j => str_eqb j i
  | None => false
  end.

(** [savedItems.findIndex(p)]: the first index at which [p] holds, or
    [-1]. *)
Fixpoint findIndex_from (p : StatementData -> bool)
  (savedItems : list StatementData) (i : Z) : Z :=
  match savedItems with
  | [] => (-1)%Z
  | item :: rest => if p item then i else findIndex_from p rest (i + 1)%Z
  end.

Definition findIndex (p : StatementData -> bool)
  (savedItems : list StatementData) : Z :=
  findIndex_from p savedItems 0%Z.

(** [savedItems[k] = x] for an index [k] inside the array, which is
    where [findIndex] points; elsewhere the list is left as it is. *)
Fixpoint assign (savedItems : list StatementData) (k : nat)
  (x : StatementData) : list StatementData :=
  match savedItems, k with
  | [], _ => []
  | _ :: rest, O => x :: rest
  | item :: rest, S k' => item :: assign rest k' x
  end.

(** [{ ...data, id: data.id || generateId(), fileName: data.fileName ||
    fileName, savedAt: Date.now() }] *)
Definition newData (now : Z) (generated : jsstring) (data : StatementData)
  (name : jsstring) : StatementData :=
  {| id := Some (str_or (id data) generated);
     fileName := Some (str_or (fileName data) name);
     savedAt := Some (numOfZ now);
     bankName := bankName data;
     accountHolder := accountHolder data;
     period := period data;
     transactions := transactions data |}.

(** [saveStatementToStorage(data, fileName)]: the new entry and the
    statement returned, or [None] when the function throws, in which
    case the entry is as it was. *)
Definition saveStatementToStorage (now : Z) (generated : jsstring)
  (writable : bool) (store : entry) (data : StatementData)
  (name : jsstring) : option (entry * StatementData) :=
  match
    match store with
    | Absent => Some []
    | Unreadable => None
    | Items l => Some l
    end
  with
  | None => None
  | Some savedItems =>
      let nd := newData now generated data name in
      let existingIndex :=
        findIndex (has_id (str_or (id data) generated)) savedItems in
      let savedItems' :=
        if (0 <=? existingIndex)%Z
        then assign savedItems (Z.to_nat existingIndex) nd
        else savedItems ++ [nd] in
      if writable then Some (Items savedItems', nd) else None
  end.

(** [getStatementById(id)]; [None] is its null. *)
Definition getStatementById (i : jsstring) (store : entry)
  : option StatementData :=
  match store with
  | Items savedItems => find (has_id i) savedItems
  | _ => None
  end.


(** No two statements of the entry share an id. *)
Fixpoint unique_ids (savedItems : list StatementData) : bool :=
  match savedItems with
  | [] => true
  | item :: rest =>
      match id item with
      | Some i => negb (existsb (has_id i) rest)
      | None => true
      end && unique_ids rest
  end.

Definition items_of (store : entry) : list StatementData :=
  match store with
  | Items savedItems => savedItems
  | _ => []
  end.

End Storage.

(** ** The SQL export and import of the application component *)

Module App.
Import JS Types SqlHelpers ExportUtils.

(** [{ ...data, fileName: currentFileName }] *)
Definition withFileName (data : StatementData) (currentFileName : jsstring)
  : StatementData :=
  {| id := id data;
     fileName := Some currentFileName;
     savedAt := savedAt data;
     bankName := bankName data;
     accountHolder := accountHolder data;
     period := period data;
     transactions := transactions data |}.

(** [handleExportSQL] with a statement in [data]: the text of the file
    offered for download and the name it is offered under. *)
Definition handleExportSQL (iso : jsstring) (nowId nowSaved : Z)
  (data : StatementData) (currentFileName : jsstring)
  : jsstring * jsstring :=
  (generateSQL iso nowId nowSaved (withFileName data currentFileName),
   cleanName (Some currentFileName) ++ lit "_backup.sql").

(** The branch of [handleFileUpload] for a file whose name ends in
    [.sql], with [name] the name of the file and [content] its text: the
    values of [data] and of [currentFileName] once the branch is through.
    The handler first sets the current file name to [name]; when
    [parseSQL] throws, [data] keeps its value. *)
Definition handleFileUpload_sql (now : Z) (name content : jsstring)
  (data : option StatementData) : option StatementData * jsstring :=
  match parseSQL now content with
  | Ok result => (Some result, str_or (fileName result) name)
  | Error _ => (data, name)
  end.

(** The default category, the word Khac with an acute accent on its
    third letter. *)
Definition KHAC : jsstring := [75; 104; 225; 99]%N.

(** [t.category || 'Khac'] *)
Definition categoryOrDefault (t : Transaction) : jsstring :=
  str_or (category t) KHAC.

(** [set.add(x)] on a set of strings, kept in insertion order. *)
Definition set_add (set : list jsstring) (x : jsstring) : list jsstring :=
  if FilterBar.includes set x then set else set ++ [x].

(** [Array.from(new Set(xs))]: the distinct strings of [xs] in the order
    of their first occurrence. *)
Definition from_set (xs : list jsstring) : list jsstring :=
  fold_left set_add xs [].

(** [s < t] on strings: the order of the code units. *)
Fixpoint str_ltb (s t : jsstring) : bool :=
  match s, t with
  | _, [] => false
  | [], _ :: _ => true
  | a :: s', b :: t' => (a <? b)%N || ((a =? b)%N && str_ltb s' t')
  end.

(** [xs.sort()] without a comparator: strings are compared by code
    units and the sort is stable; each string is put before the first
    one of the sorted rest that is not below it. *)
Fixpoint sort_insert (x : jsstring) (sorted : list jsstring)
  : list jsstring :=
  match sorted with
  | [] => [x]
  | y :: rest => if str_ltb y x then y :: sort_insert x rest else x :: sorted
  end.

Definition sort (xs : list jsstring) : list jsstring :=
  fold_right sort_insert [] xs.

(** [uniqueCategories] with a statement in [data]. *)
Definition uniqueCategories (data : StatementData) : list jsstring :=
  sort (from_set (map categoryOrDefault (transactions data))).

(** Every string is below the next one. *)
Fixpoint increasing (xs : list jsstring) : bool :=
  match xs with
  | x :: (y :: _) as rest => str_ltb x y && increasing rest
  | _ => true
  end.

End App.

(** ** Amounts of the Excel import *)

Module ExcelProcessor.
Import JS.
Local Open Scope N_scope.

(** An ExponentPart at the start of [r], if there is one: the letter e,
    an optional sign and one or more digits; its value, or zero. *)
Definition exponent_prefix (r : jsstring) : Z :=
  match r with
  | c :: r' =>
      if (c =? 101) || (c =? 69) then
        let (neg, r'') := parse_sign r' in
        let (ds, _) := span is_digit r'' in
        match ds with
        | [] => 0%Z
        | _ =>
            let e := Z.of_N (digits_val 10 ds) in
            if neg then (- e)%Z else e
        end
      else 0%Z
  | [] => 0%Z
  end.

(** [parseFloat(s)]: the value of the longest prefix of [s], after its
    leading white space, that is a StrDecimalLiteral: a sign, and the
    word Infinity or digits with an optional fraction and an optional
    exponent; [NaN] when there is no such prefix.  The value is the
    exact decimal of the prefix, which stands for the Number nearest to
    it; for a whole number below [2^53] the two are the same, and the
    properties of [parseVNAmount] are stated within that bound. *)
Definition parseFloat (s : jsstring) : number :=
  let (neg, u) := parse_sign (drop_while is_space s) in
  match prefix_cs (lit "Infinity") u with
  | Some _ => Inf neg
  | None =>
      let (ip, r1) := span is_digit u in
      let (fp, r2) := parse_fraction r1 in
      match ip ++ fp with
      | [] => NaN
      | ds =>
          mkNumber neg (digits_val 10 ds)
                   (exponent_prefix r2 - Z.of_nat (List.length fp))
      end
  end.

(** The class of the first [replace] under the flag [i]: the dong sign,
    the letters V, N and D in either case, and white space. *)
Definition is_currency_or_space (c : jschar) : bool :=
  (c =? 8363) || (upper c =? 86) || (upper c =? 78) || (upper c =? 68)
  || is_space c.

(** The class of the second [replace]: a dot or a comma. *)
Definition is_dot_or_comma (c : jschar) : bool := (c =? DOT) || (c =? 44).

(** [str.startsWith('(') && str.endsWith(')')] *)
Definition in_parentheses (str : jsstring) : bool :=
  match str with
  | c :: _ => (c =? LPAREN) && (last str 0 =? RPAREN)
  | [] => false
  end.

(** [str.slice(1, -1)] *)
Definition slice_1_m1 (str : jsstring) : jsstring := removelast (tl str).

(** [parseVNAmount(val)] for a cell that holds a Number, a string or
    nothing. *)
Definition parseVNAmount (val : value) : number :=
  match val with
  | VNum x => x
  | VNull => zero
  | VStr [] => zero
  | VStr s =>
      let str := trim s in
      let str := filter (fun c => negb (is_currency_or_space c)) str in
      let str := if in_parentheses str then MINUS :: slice_1_m1 str
                 else str in
      let cleanStr := filter (fun c => negb (is_dot_or_comma c)) str in
      match parseFloat cleanStr with
      | NaN => zero
      | parsed => parsed
      end
  end.

End ExcelProcessor.

(** ** The categories of the transaction table:
       [src/components/TransactionTable.tsx] *)

Module TransactionTable.
Import JS Types App.
Local Open Scope N_scope.

(** [DEFAULT_CATEGORIES], by code units; the last one is the default
    category of the application. *)
Definition DEFAULT_CATEGORIES : list jsstring :=
  [[258; 110; 32; 117; 7889; 110; 103];
   [77; 117; 97; 32; 115; 7855; 109];
   [68; 105; 32; 99; 104; 117; 121; 7875; 110];
   [272; 105; 7879; 110; 47; 78; 432; 7899; 99; 47; 78; 101; 116];
   [78; 104; 224; 32; 99; 7917; 97];
   [76; 432; 417; 110; 103; 47; 84; 104; 432; 7903; 110; 103];
   [67; 104; 117; 121; 7875; 110; 32; 116; 105; 7873; 110];
   [71; 105; 7843; 105; 32; 116; 114; 237];
   [83; 7913; 99; 32; 107; 104; 7887; 101];
   [71; 105; 225; 111; 32; 100; 7909; 99];
   [272; 7847; 117; 32; 116; 432];
   [84; 114; 7843; 32; 110; 7907];
   [80; 104; 237; 32; 110; 103; 226; 110; 32; 104; 224; 110; 103];
   KHAC].

(** [tx.category && tx.category.trim() !== ''] *)
Definition has_category (tx : Transaction) : bool :=
  match category tx with
  | Some c => match trim c with [] => false | _ => true end
  | None => false
  end.

(** The callback of [transactions.forEach]. *)
Definition add_category (currentCats : list jsstring) (tx : Transaction)
  : list jsstring :=
  match category tx with
  | Some c => if has_category tx then set_add currentCats c else currentCats
  | None => currentCats
  end.

(** [availableCategories] *)
Definition availableCategories (transactions : list Transaction)
  : list jsstring :=
  sort (fold_left add_category transactions (from_set DEFAULT_CATEGORIES)).

End TransactionTable.

(** ** The filter of the application component *)

Module Filtering.
Import JS Types Props FilterBar App.
Local Open Scope N_scope.

(** [s.split(sep)] for a separator of one character. *)
Fixpoint split (sep : jschar) (s : jsstring) : list jsstring :=
  match s with
  | [] => [[]]
  | c :: s' =>
      if c =? sep then [] :: split sep s'
      else
        match split sep s' with
        | part :: parts => (c :: part) :: parts
        | [] => [[c]]
        end
  end.

(** [txDateStr], when [tx.date.split('/')] has three parts. *)
Definition txDateStr (tx : Transaction) : option jsstring :=
  match split 47 (date tx) with
  | [p0; p1; p2] => Some (p2 ++ lit "-" ++ p1 ++ lit "-" ++ p0)
  | _ => None
  end.

(** The filter is written over two operations of the language that are
    not modelled here: [toLowerCase] on strings and [<] on Numbers. *)
Section Filter.

Variable toLowerCase : jsstring -> jsstring.
Variable lessThan : number -> number -> bool.

(** The callback of [data.transactions.filter]. *)
Definition passes (criteria : FilterCriteria) (tx : Transaction) : bool :=
  if match keyword criteria with
     | [] => false
     | _ =>
         let kw := toLowerCase (keyword criteria) in
         let matchDesc := occurs_cs kw (toLowerCase (description tx)) in
         let matchPartner := occurs_cs kw (toLowerCase (partner_name tx)) in
         negb matchDesc && negb matchPartner
     end
  then false
  else if match minAmount criteria with
          | [] => false
          | _ => lessThan (amount tx) (StringToNumber (minAmount criteria))
          end
  then false
  else if match maxAmount criteria with
          | [] => false
          | _ => lessThan (StringToNumber (maxAmount criteria)) (amount tx)
          end
  then false
  else if match categories criteria with
          | [] => false
          | _ =>
              match category tx with
              | Some (c :: k) => negb (includes (categories criteria) (c :: k))
              | _ => true
              end
          end
  then false
  else
    match startDate criteria, endDate criteria with
    | [], [] => true
    | _, _ =>
        match txDateStr tx with
        | Some d =>
            if match startDate criteria with
               | [] => false
               | _ => str_ltb d (startDate criteria)
               end
            then false
            else if match endDate criteria with
                    | [] => false
                    | _ => str_ltb (endDate criteria) d
                    end
            then false
            else true
        | None => true
        end
    end.

(** [filteredTransactions] with a statement in [data]. *)
Definition filteredTransactions (data : StatementData)
  (filterCriteria : FilterCriteria) : list Transaction :=
  filter (passes filterCriteria) (transactions data).

End Filter.

(** The criteria after the filter is cleared. *)
Definition clearedCriteria : FilterCriteria :=
  {| keyword := []; startDate := []; endDate := [];
     minAmount := []; maxAmount := []; categories := [] |}.

End Filtering.

(** ** The dispatch of an uploaded file *)

Module Upload.
Import JS Types SqlHelpers App.

(** [s.endsWith(suffix)] *)
Definition endsWith (s suffix : jsstring) : bool :=
  match prefix_cs (rev suffix) (rev s) with
  | Some _ => true
  | None => false
  end.

(** Where [handleFileUpload] takes a file.  What the PDF analysis and
    the Excel import make of a file is outside this model; of the SQL
    branch the outcome holds the values of [data] and of
    [currentFileName]. *)
Inductive outcome :=
| PdfBranch      (* handed to [analyzePdfStatement] *)
| ExcelBranch    (* handed to [processExcelFile] *)
| SqlBranch (data : option StatementData) (currentFileName : jsstring)
| Unsupported.   (* the handler throws: the format is not supported *)

Section Dispatch.

(** [toLowerCase] on strings is not modelled here. *)
Variable toLowerCase : jsstring -> jsstring.

(** [handleFileUpload(file)], with [name] the name of the file and
    [content] its text. *)
Definition handleFileUpload (now : Z) (name content : jsstring)
  (data : option StatementData) : outcome :=
  let fileNameLower := toLowerCase name in
  if endsWith fileNameLower (lit ".pdf") then PdfBranch
  else if endsWith fileNameLower (lit ".xlsx")
          || endsWith fileNameLower (lit ".xls") then ExcelBranch
  else if endsWith fileNameLower (lit ".sql") then
    let (data', currentFileName) :=
      handleFileUpload_sql now name content data in
    SqlBranch data' currentFileName
  else Unsupported.

End Dispatch.

End Upload.

(** ** Vocabulary of the further properties *)

Module MoreProps.
Import JS Types ExcelProcessor TransactionTable FilterBar.
Local Open Scope N_scope.

(** A character of an amount written with separators and a currency:
    a digit, a dot, a comma, white space, the dong sign or one of the
    letters V, N and D. *)
Definition separator_char (c : jschar) : bool :=
  is_digit c || is_dot_or_comma c || is_currency_or_space c.

(** The transaction has the category [c], and the table takes it up. *)
Definition has_category_named (c : jsstring) (tx : Transaction) : bool :=
  has_category tx &&
  match category tx with
  | Some k => str_eqb k c
  | None => false
  end.

(** The criteria without their two dates. *)
Definition withoutDates (criteria : FilterCriteria) : FilterCriteria :=
  {| keyword := keyword criteria; startDate := []; endDate := [];
     minAmount := minAmount criteria; maxAmount := maxAmount criteria;
     categories := categories criteria |}.

(** Criteria that hold two dates and nothing else. *)
Definition dateCriteria (startDate endDate : jsstring) : FilterCriteria :=
  {| keyword := []; startDate := startDate; endDate := endDate;
     minAmount := []; maxAmount := []; categories := [] |}.

(** A run of [n] digits. *)
Definition digits_of_length (n : nat) (s : jsstring) : bool :=
  (List.length s =? n)%nat && forallb is_digit s.

(** A date as the statements write it, day/month/year, and as the date
    fields of the filter write it, year-month-day. *)
Definition vnDate (d m y : jsstring) : jsstring :=
  d ++ lit "/" ++ m ++ lit "/" ++ y.

Definition isoDate (y m d : jsstring) : jsstring :=
  y ++ lit "-" ++ m ++ lit "-" ++ d.

(** The place of a date in the calendar: later dates have larger
    numbers. *)
Definition dayNumber (y m d : jsstring) : N :=
  digits_val 10 y * 10000 + digits_val 10 m * 100 + digits_val 10 d.

End MoreProps.

(** ** More sample records *)

Module MoreSamples.
Import JS Types SqlHelpers Props Samples Storage.
Local Open Scope N_scope.

(** Quotes and delimiters in the metadata and in a description. *)
Definition rQuoted : StatementData :=
  {| id := Some (lit "s'1");
     fileName := Some (lit "O'Brien (jan), v2.pdf");
     savedAt := None;
     bankName := Some (lit "Bank 'A'");
     accountHolder := None;
     period := Some (lit "01/2024");
     transactions :=
       [withDescription obrien txAtm;
        withAmount (Dec false 1999 2) (withCategory None txAtm)] |}.

(** A statement without an id, as the parsers hand it over. *)
Definition rFresh : StatementData :=
  {| id := None;
     fileName := None;
     savedAt := None;
     bankName := Some (lit "Bank A");
     accountHolder := None;
     period := None;
     transactions := [txAtm] |}.

(** A history of two statements. *)
Definition history : entry :=
  Items [statementOf (lit "jan.pdf") (Some (Dec false 1600 0)) [txAtm];
         {| id := Some (lit "s2");
            fileName := Some (lit "feb.pdf");
            savedAt := Some (Dec false 1650 0);
            bankName := None;
            accountHolder := None;
            period := None;
            transactions := [] |}].

(** A transaction dated year-month-day. *)
Definition txIsoDated : Transaction :=
  {| date := lit "2024-01-15";
     amount := Dec true 50000 0;
     description := lit "ATM fee";
     transaction_code := lit "FT001";
     partner_name := lit "ATM";
     partner_account := lit "0011";
     type := DEBIT;
     category := Some (lit "Fees") |}.

(** Filter criteria with two selected categories. *)
Definition sampleCriteria : FilterBar.FilterCriteria :=
  {| FilterBar.keyword := lit "atm";
     FilterBar.startDate := lit "2024-01-01";
     FilterBar.endDate := [];
     FilterBar.minAmount := lit "1000";
     FilterBar.maxAmount := [];
     FilterBar.categories := [lit "Fees"; lit "Other"] |}.

(** Filter criteria that select one category and nothing else. *)
Definition feesOnly : FilterBar.FilterCriteria :=
  {| FilterBar.keyword := [];
     FilterBar.startDate := [];
     FilterBar.endDate := [];
     FilterBar.minAmount := [];
     FilterBar.maxAmount := [];
     FilterBar.categories := [lit "Fees"] |}.

End MoreSamples.

(** * Properties *)

Import JS Types SqlHelpers Props Samples.

(** [lia] with quotients and remainders by a constant. *)
Ltac Zify.zify_post_hook ::= Z.to_euclidean_division_equations.

(** ** Failure of [parseSQL] *)

(** C7: decoding fails exactly when the metadata insert statement is not
    found or fewer than six values are extracted from it, and then with
    the one generic error; on every other text it returns a record. *)
Theorem decode_fails_iff_metadata_failure : forall now t,
  (metadata_failure t = true /\ parseSQL now t = Error ErrCorrupt) \/
  (metadata_failure t = false /\ exists r, parseSQL now t = Ok r).
Proof.
  intros now t. unfold metadata_failure, parseSQL, parseSQL_body.
  destruct (search_statements t) as [v|].
  - destruct (List.length (extractValues v) <? 6)%nat.
    + left. split; reflexivity.
    + right. split; [reflexivity|]. eexists. reflexivity.
  - left. split; reflexivity.
Qed.

(** The two failures and a success: no metadata statement, a metadata
    tuple of five values, and one of six. *)
Example decode_failures :
  parseSQL 1900 (lit "INSERT INTO transactions VALUES (1,2,3,4,5,6,7,8,9);")
  = Error ErrCorrupt /\
  parseSQL 1900 (lit "INSERT INTO statements (id) VALUES (1,2,3,4,5);")
  = Error ErrCorrupt /\
  metadata_failure (lit "INSERT INTO statements (id) VALUES (1,2,3,4,5,6);")
  = false.
Proof. vm_compute. repeat split; reflexivity. Qed.

(** The inner errors never reach the caller. *)
Lemma decode_error_is_generic : forall now t e,
  parseSQL now t = Error e -> e = ErrCorrupt.
Proof.
  intros now t e. unfold parseSQL, try_catch.
  destruct (parseSQL_body now t); intros H; now inversion H.
Qed.

(** ** The clock in [parseSQL] *)

(** C3, as stated, fails: the same text decoded at two clock readings
    gives two different records when its sixth metadata value is null. *)
Lemma decode_depends_on_clock :
  parseSQL 1 docNullSavedAt <> parseSQL 2 docNullSavedAt.
Proof. vm_compute. discriminate. Qed.

(** C3, amended: two runs of decode on the same text fail alike or return
    records that agree on every field but [savedAt]; their [savedAt]
    agree when the sixth metadata value is truthy, and are the two clock
    readings when it is falsy. *)
Theorem decode_clock_only_in_savedAt : forall now1 now2 t,
  match parseSQL now1 t, parseSQL now2 t with
  | Ok r1, Ok r2 =>
      id r1 = id r2 /\ fileName r1 = fileName r2 /\
      bankName r1 = bankName r2 /\ accountHolder r1 = accountHolder r2 /\
      period r1 = period r2 /\ transactions r1 = transactions r2 /\
      (if truthy (sixthValue t) then savedAt r1 = savedAt r2
       else savedAt r1 = Some (numOfZ now1) /\
            savedAt r2 = Some (numOfZ now2))
  | Error e1, Error e2 => e1 = e2
  | _, _ => False
  end.
Proof.
  intros now1 now2 t.
  unfold parseSQL, parseSQL_body, sixthValue, try_catch.
  destruct (search_statements t) as [v|]; [|reflexivity].
  destruct (List.length (extractValues v) <? 6)%nat; [reflexivity|].
  cbn [id fileName bankName accountHolder period transactions savedAt].
  repeat split.
  unfold or_else. destruct (truthy (col (extractValues v) 5)); auto.
Qed.

(** ** [saved_at] in [generateSQL] *)

(** The record's [savedAt] is not an input of the encoder. *)
Lemma encode_ignores_savedAt : forall iso nowId nowSaved i f s1 s2 b a p txs,
  generateSQL iso nowId nowSaved
    {| id := i; fileName := f; savedAt := s1; bankName := b;
       accountHolder := a; period := p; transactions := txs |} =
  generateSQL iso nowId nowSaved
    {| id := i; fileName := f; savedAt := s2; bankName := b;
       accountHolder := a; period := p; transactions := txs |}.
Proof. reflexivity. Qed.

(** C4: at the record saved at 1600000000000 and encoded when the clock
    reads 1800000000000, the sixth column of the metadata tuple is the
    clock reading, not the record's [savedAt]. *)
Example encode_restamps_savedAt :
  let r := statementOf (lit "jan.pdf") (Some (Dec false 1600000000000 0))
             [txAtm] in
  savedAt r = Some (Dec false 1600000000000 0) /\
  sixthValue (generateSQL iso 1700000000000 1800000000000 r)
  = VNum (Dec false 1800000000000 0).
Proof. vm_compute. split; reflexivity. Qed.

(** ** The preamble of [generateSQL] *)

(** C5, as stated, fails: the text before the metadata insert statement
    differs between two records that differ in their bank name. *)
Lemma text_before_metadata_depends_on_input :
  beforeStatements (generateSQL iso 1700 1800 (janStatement []))
  <> beforeStatements (generateSQL iso 1700 1800 bankB).
Proof. vm_compute. discriminate. Qed.

(** C5, amended: the output opens with the three comment lines, which
    carry the time of creation and the bank name; what follows them up to
    the metadata insert statement is the declaration of the two tables,
    the same text for every input. *)
Theorem preamble_after_comments_is_static : forall iso nowId nowSaved data,
  exists tail,
    generateSQL iso nowId nowSaved data = headerComment iso data ++ tail /\
    beforeStatements tail = tablesPreamble.
Proof.
  intros iso nowId nowSaved data.
  exists (tablesPreamble ++ insertStatement nowId nowSaved data ++
          insertTransactions (stmtIdOf nowId data) (transactions data)).
  split.
  - unfold generateSQL, tablesPreamble. now rewrite <- !app_assoc.
  - reflexivity.
Qed.

(** ** The numeric branch of [sqlValueRegex] *)

(** C6: the numeric branch takes any run of minus signs and digits; the
    runs [1-2] and [-] are matched whole and pushed as [NaN]. *)
Example numeric_branch_takes_minus_runs :
  match_value (lit "1-2") = Some (Group3 (lit "1-2"), []) /\
  extractValues (lit "1-2") = [VNum NaN] /\
  extractValues (lit "-") = [VNum NaN].
Proof. vm_compute. repeat split; reflexivity. Qed.

(** ** Markers inside string literals *)

(** C2: a description that holds the text [; DROP], the transaction
    marker and a tuple comes back intact, and a second transaction that
    the record never had is decoded from inside its literal. *)
Example marker_in_description_adds_tuple :
  transactionsOf (roundTrip (janStatement [withDescription dropMarker txAtm]))
  = [withDescription dropMarker txAtm; phantomTx].
Proof. vm_compute. reflexivity. Qed.

(** The quoting example of the specification, and delimiters inside a
    description, at a record without marker text. *)
Example obrien_round_trip :
  transactionsOf
    (roundTrip (janStatement
       [withDescription obrien txAtm;
        withDescription (lit "a), (b; DROP TABLE x, y") txAtm]))
  = [withDescription obrien txAtm;
     withDescription (lit "a), (b; DROP TABLE x, y") txAtm].
Proof. vm_compute. reflexivity. Qed.

(** ** Order of the decoded transactions *)

(** C9: in a document whose first transaction statement is not
    terminated, the scan of the first marker runs through the second
    statement and the scan of the second marker decodes its rows again:
    the rows A, B, C come back as A, B, C, B, C. *)
Example unterminated_statement_rows_twice :
  transactionsOf (parseSQL 1900 docUnterminated)
  = [rowOf (lit "A") 1; rowOf (lit "B") 2; rowOf (lit "C") 3;
     rowOf (lit "B") 2; rowOf (lit "C") 3].
Proof. vm_compute. reflexivity. Qed.

(** The same overlap in a document the encoder wrote: the tuple found
    inside the description of the first transaction is decoded after
    the second transaction, which follows it in the text. *)
Example marker_scan_after_rows :
  transactionsOf (roundTrip rMarkerThenRow)
  = [withDescription plainMarker txAtm; rowOf (lit "B") 2; phantomTx].
Proof. vm_compute. reflexivity. Qed.

(** ** Short tuples *)

(** Two scanners that differ only in what they do with a completed tuple
    run in lockstep. *)
Section ScannerSimulation.

Variables (A B : Type).
Variable pushA : jsstring -> list A -> list A.
Variable pushB : jsstring -> list B -> list B.
Variable R : list A -> list B -> Prop.
Hypothesis push_sim : forall s a b, R a b -> R (pushA s a) (pushB s b).

Lemma scan_sim_upto : forall n content rest,
  (List.length rest <= n)%nat ->
  forall i inS d ts a b, R a b ->
  R (scan pushA content rest i inS d ts a)
    (scan pushB content rest i inS d ts b).
Proof.
  induction n as [|n IH]; intros content rest Hlen i inS d ts a b Hab.
  - destruct rest; [assumption | simpl in Hlen; lia].
  - destruct rest as [|c rest']; [assumption|].
    simpl in Hlen.
    assert (H1 : (List.length rest' <= n)%nat) by lia.
    cbn [scan].
    destruct inS.
    + destruct (N.eqb c QUOTE).
      * destruct rest' as [|q rest'']; [apply IH; auto|].
        destruct (N.eqb q QUOTE); apply IH; auto.
        simpl in H1. lia.
      * apply IH; auto.
    + destruct (N.eqb c QUOTE); [apply IH; auto|].
      destruct (N.eqb c LPAREN); [apply IH; auto|].
      destruct (N.eqb c RPAREN).
      * destruct ((d - 1 =? 0)%Z && negb (ts =? -1)%Z); apply IH; auto.
      * destruct (N.eqb c SEMI && (d =? 0)%Z); [assumption|].
        apply IH; auto.
Qed.

Lemma scan_sim : forall content rest i inS d ts a b,
  R a b ->
  R (scan pushA content rest i inS d ts a)
    (scan pushB content rest i inS d ts b).
Proof.
  intros. eapply scan_sim_upto; eauto.
Qed.

Lemma insert_loop_sim : forall fuel content rest i a b,
  R a b ->
  R (insert_loop pushA fuel content rest i a)
    (insert_loop pushB fuel content rest i b).
Proof.
  induction fuel as [|f IH]; intros content rest i a b Hab; cbn [insert_loop].
  - assumption.
  - destruct (search_insert i rest) as [[j rest']|]; [|assumption].
    apply IH. now apply scan_sim.
Qed.

End ScannerSimulation.

Lemma pushTuple_filter : forall s tuples,
  pushTuple s (map txOfCols (filter long_enough (map extractValues tuples)))
  = map txOfCols (filter long_enough (map extractValues (tuples ++ [s]))).
Proof.
  intros s tuples. unfold pushTuple.
  rewrite map_app, filter_app, map_app. cbn [map filter].
  change (9 <=? List.length (extractValues s))%nat
    with (long_enough (extractValues s)).
  destruct (long_enough (extractValues s)); cbn [map].
  - reflexivity.
  - now rewrite app_nil_r.
Qed.

Lemma scanTransactions_completedTuples : forall t,
  scanTransactions t
  = map txOfCols (filter long_enough (map extractValues (completedTuples t))).
Proof.
  intros t. unfold scanTransactions, completedTuples, scanWith.
  apply insert_loop_sim
    with (R := fun txs tuples =>
                 txs = map txOfCols
                         (filter long_enough (map extractValues tuples))).
  - intros s a b ->. apply pushTuple_filter.
  - reflexivity.
Qed.


(** The truncated tuple of the specification's example: three completed
    tuples, the one of five values dropped, its neighbours decoded. *)
Example truncated_tuple_dropped :
  List.length (completedTuples docTruncatedTuple) = 3%nat /\
  transactionsOf (parseSQL 1900 docTruncatedTuple)
  = [rowOf (lit "A") 1; rowOf (lit "C") 3].
Proof. vm_compute. split; reflexivity. Qed.

(** ** The value extractor *)

Lemma list_ind2 (T : Type) (P : list T -> Prop) :
  P [] -> (forall a, P [a]) ->
  (forall a b l, P l -> P (b :: l) -> P (a :: b :: l)) ->
  forall l, P l.
Proof.
  intros H0 H1 H2 l.
  assert (H : P l /\ forall a, P (a :: l)).
  { induction l as [|b l [IH1 IH2]]; split; auto. }
  apply H.
Qed.

Lemma span_app : forall p s a b, span p s = (a, b) -> s = a ++ b.
Proof.
  induction s as [|c s IH]; intros a b H; cbn in H.
  - now inversion H.
  - destruct (p c).
    + destruct (span p s) as [a' b'] eqn:E. inversion H; subst.
      cbn. f_equal. now apply IH.
    + now inversion H.
Qed.

Lemma span_all : forall p s r,
  forallb p s = true ->
  match r with [] => True | c :: _ => p c = false end ->
  span p (s ++ r) = (s, r).
Proof.
  induction s as [|c s IH]; intros r Hs Hr.
  - destruct r as [|c r]; cbn; [reflexivity|]. cbn in Hr. now rewrite Hr.
  - cbn. cbn in Hs. apply andb_prop in Hs as [Hc Hs]. rewrite Hc.
    now rewrite IH.
Qed.

Lemma prefix_with_length : forall eqc p s r,
  prefix_with eqc p s = Some r ->
  List.length s = (List.length p + List.length r)%nat.
Proof.
  induction p as [|a p IH]; intros s r H; cbn in H.
  - now inversion H.
  - destruct s as [|c s]; [discriminate|].
    destruct (eqc a c); [|discriminate].
    cbn. f_equal. now apply IH.
Qed.

Lemma prefix_ci_length : forall p s r,
  prefix_ci p s = Some r ->
  List.length s = (List.length p + List.length r)%nat.
Proof. intros p s r. apply prefix_with_length. Qed.

Lemma quoted_body_eq : forall t,
  quoted_body t =
  match t with
  | [] => None
  | c :: t' =>
      if N.eqb c QUOTE then
        match t' with
        | [] => Some ([], t')
        | q :: t'' =>
            if N.eqb q QUOTE then
              match quoted_body t'' with
              | Some (b, r) => Some (QUOTE :: QUOTE :: b, r)
              | None => Some ([], t')
              end
            else Some ([], t')
        end
      else
        match quoted_body t' with
        | Some (b, r) => Some (c :: b, r)
        | None => None
        end
  end.
Proof. destruct t; reflexivity. Qed.

Lemma quoted_body_shorter : forall t b r,
  quoted_body t = Some (b, r) -> (List.length r < List.length t)%nat.
Proof.
  induction t as [|c|c q t IH1 IH2] using list_ind2; intros b r H.
  - discriminate.
  - cbn in H. destruct (N.eqb c QUOTE); inversion H; subst; cbn; lia.
  - rewrite quoted_body_eq in H. destruct (N.eqb c QUOTE).
    + destruct (N.eqb q QUOTE).
      * destruct (quoted_body t) as [[b' r']|] eqn:E.
        -- inversion H; subst. specialize (IH1 _ _ eq_refl). cbn. lia.
        -- inversion H; subst. cbn. lia.
      * inversion H; subst. cbn. lia.
    + destruct (quoted_body (q :: t)) as [[b' r']|] eqn:E; [|discriminate].
      inversion H; subst. specialize (IH2 _ _ eq_refl). cbn in *. lia.
Qed.

Lemma number_token_shorter : forall s t r,
  number_token s = Some (t, r) -> (List.length r < List.length s)%nat.
Proof.
  intros s t r H. unfold number_token in H.
  destruct (span is_minus_or_digit s) as [run r1] eqn:E1.
  apply span_app in E1. subst s.
  destruct run as [|c0 run]; [discriminate|].
  rewrite length_app. cbn [List.length].
  destruct r1 as [|c r1]; [inversion H; subst; cbn; lia|].
  destruct (N.eqb c DOT).
  - destruct (span is_digit r1) as [fr r2] eqn:E2.
    apply span_app in E2. subst r1.
    destruct fr; inversion H; subst; cbn; rewrite ?length_app; cbn; lia.
  - inversion H; subst. cbn. lia.
Qed.

Lemma match_value_shorter : forall s m r,
  match_value s = Some (m, r) -> (List.length r < List.length s)%nat.
Proof.
  intros s m r H. unfold match_value in H.
  destruct s as [|c t].
  - cbn in H. discriminate.
  - destruct (N.eqb c QUOTE) eqn:Ec.
    + destruct (quoted_body t) as [[b r']|] eqn:E.
      * inversion H; subst. apply quoted_body_shorter in E. cbn. lia.
      * destruct (prefix_ci (lit "NULL") (c :: t)) as [r'|] eqn:E2.
        -- inversion H; subst. apply prefix_ci_length in E2.
           rewrite E2. cbn. lia.
        -- destruct (number_token (c :: t)) as [[t' r']|] eqn:E3;
             [|discriminate].
           inversion H; subst. now apply number_token_shorter in E3.
    + destruct (prefix_ci (lit "NULL") (c :: t)) as [r'|] eqn:E2.
      * inversion H; subst. apply prefix_ci_length in E2.
        rewrite E2. cbn. lia.
      * destruct (number_token (c :: t)) as [[t' r']|] eqn:E3;
          [|discriminate].
        inversion H; subst. now apply number_token_shorter in E3.
Qed.

(** Fuel above the length of the text is never used up. *)
Lemma extract_loop_fuel : forall f1 f2 s,
  (List.length s < f1)%nat -> (List.length s < f2)%nat ->
  extract_loop f1 s = extract_loop f2 s.
Proof.
  induction f1 as [|f1 IH]; intros f2 s H1 H2; [lia|].
  destruct f2 as [|f2]; [lia|].
  cbn [extract_loop].
  destruct (match_value s) as [[m r]|] eqn:E.
  - f_equal. apply match_value_shorter in E. apply IH; lia.
  - destruct s as [|c s]; [reflexivity|]. cbn in H1, H2. apply IH; lia.
Qed.

(** The loop of [extractValues], one turn at a time. *)
Lemma extractValues_unfold : forall s,
  extractValues s =
  match match_value s with
  | Some (m, rest) => value_of m :: extractValues rest
  | None =>
      match s with
      | [] => []
      | _ :: s' => extractValues s'
      end
  end.
Proof.
  intros s. unfold extractValues at 1. cbn [extract_loop].
  destruct (match_value s) as [[m r]|] eqn:E.
  - f_equal. apply match_value_shorter in E.
    apply extract_loop_fuel; lia.
  - destruct s as [|c s]; [reflexivity|].
    apply extract_loop_fuel; cbn; lia.
Qed.

Lemma match_value_skip : forall c s,
  opens_value c = false -> match_value (c :: s) = None.
Proof.
  intros c s H. unfold opens_value in H.
  apply orb_false_elim in H as [H Hd]. apply orb_false_elim in H as [Hq Hn].
  unfold match_value. rewrite Hq.
  unfold prefix_ci. cbn [prefix_with lit].
  change (N_of_ascii "N") with 78%N. rewrite Hn.
  unfold number_token. cbn [span]. now rewrite Hd.
Qed.

Lemma extractValues_skip : forall c s,
  opens_value c = false -> extractValues (c :: s) = extractValues s.
Proof.
  intros c s H. rewrite extractValues_unfold.
  now rewrite match_value_skip.
Qed.

Lemma extractValues_skip_all : forall a s,
  forallb (fun c => negb (opens_value c)) a = true ->
  extractValues (a ++ s) = extractValues s.
Proof.
  induction a as [|c a IH]; intros s H; [reflexivity|].
  cbn in H. apply andb_prop in H as [Hc Ha].
  cbn [app]. rewrite extractValues_skip.
  - now apply IH.
  - now apply negb_true_iff.
Qed.

Lemma unescape_escape : forall s, unescape_quotes (escape_quotes s) = s.
Proof.
  induction s as [|c s IH]; [reflexivity|].
  cbn [escape_quotes]. destruct (N.eqb c QUOTE) eqn:E.
  - apply N.eqb_eq in E. subst c. cbn. now rewrite IH.
  - destruct (escape_quotes s) as [|b s'] eqn:Es.
    + destruct s as [|c2 s2]; [reflexivity|]. cbn in Es.
      destruct (N.eqb c2 QUOTE); discriminate.
    + cbn [unescape_quotes]. rewrite E. cbn. cbn in IH. now rewrite IH.
Qed.

Lemma quoted_body_escape : forall s r,
  no_quote_ahead r ->
  quoted_body (escape_quotes s ++ QUOTE :: r) = Some (escape_quotes s, r).
Proof.
  induction s as [|c s IH]; intros r Hr.
  - cbn. destruct r as [|q r]; [reflexivity|]. cbn in Hr. now rewrite Hr.
  - cbn [escape_quotes]. destruct (N.eqb c QUOTE) eqn:E.
    + cbn. now rewrite IH.
    + cbn. rewrite E. now rewrite IH.
Qed.

(** A literal written by [sqlEscape] is read back whole. *)
Lemma extractValues_escaped : forall s r,
  no_quote_ahead r ->
  extractValues (sqlEscape (Some s) ++ r) = VStr s :: extractValues r.
Proof.
  intros s r Hr. rewrite extractValues_unfold.
  unfold sqlEscape. rewrite <- !app_assoc. cbn [app].
  unfold match_value. rewrite N.eqb_refl.
  rewrite quoted_body_escape by assumption.
  cbn [value_of]. now rewrite unescape_escape.
Qed.

Lemma extractValues_null : forall r,
  extractValues (lit "NULL" ++ r) = VNull :: extractValues r.
Proof.
  intros r. now rewrite extractValues_unfold.
Qed.

Lemma extractValues_sqlEscape : forall o r,
  no_quote_ahead r ->
  extractValues (sqlEscape o ++ r) = valueOfOpt o :: extractValues r.
Proof.
  intros [s|] r Hr.
  - now apply extractValues_escaped.
  - apply extractValues_null.
Qed.

(** ** The statement id *)

Lemma digits_aux_length : forall f n acc,
  (List.length acc <= List.length (digits_aux f n acc))%nat.
Proof.
  induction f as [|f IH]; intros n acc; cbn [digits_aux]; [lia|].
  destruct (N.ltb n 10); cbn [List.length]; [lia|].
  specialize (IH (n / 10)%N ((48 + n mod 10)%N :: acc)).
  cbn [List.length] in IH. lia.
Qed.

Lemma digitsN_not_nil : forall n, digitsN n <> [].
Proof.
  intros n H. unfold digitsN in H. cbn [digits_aux] in H.
  destruct (N.ltb n 10); [discriminate|].
  pose proof (digits_aux_length (N.to_nat (N.log2 n)) (n / 10)%N
                [(48 + n mod 10)%N]) as L.
  apply (f_equal (@List.length _)) in H. cbn [List.length] in *. lia.
Qed.

Lemma digitsZ_not_nil : forall z, digitsZ z <> [].
Proof.
  intros z. unfold digitsZ. destruct (z <? 0)%Z; [discriminate|].
  apply digitsN_not_nil.
Qed.

Lemma stmtIdOf_not_nil : forall nowId data, stmtIdOf nowId data <> [].
Proof.
  intros nowId data. unfold stmtIdOf, str_or.
  destruct (id data) as [[|c s]|]; try discriminate; apply digitsZ_not_nil.
Qed.

Lemma insertStatement_eq : forall nowId nowSaved data,
  insertStatement nowId nowSaved data
  = metaHead ++ metadataInner nowId nowSaved data ++ lit ");" ++ nl ++ nl.
Proof.
  intros. unfold insertStatement, metadataInner, metaHead.
  now rewrite <- !app_assoc.
Qed.

Lemma txRow_eq : forall sid tx,
  txRow sid tx = lit "(" ++ rowInner sid tx ++ lit ")".
Proof.
  intros. unfold txRow, rowInner. now rewrite <- !app_assoc.
Qed.

(** C10: the id written by the encoder is the record's id when that is a
    non-empty string and the text of the clock reading otherwise, so it
    is never empty.  The document is the header, the two tables, the
    metadata statement around one tuple and, when there are
    transactions, the transaction statement around one tuple for each
    of them; this one id is the first value of the metadata tuple and
    the first value of every tuple of the transaction statement. *)
Theorem statement_id_in_both_positions : forall iso nowId nowSaved data,
  exists sid metaInner rows,
    sid = match id data with
          | Some (c :: s) => c :: s
          | _ => digitsZ nowId
          end /\
    sid <> [] /\
    generateSQL iso nowId nowSaved data
    = headerComment iso data ++ tablesPreamble ++
      lit "INSERT INTO statements (id, file_name, bank_name, account_holder, period, saved_at) VALUES ("
      ++ metaInner ++ lit ");" ++ nl ++ nl ++
      match rows with
      | [] => []
      | _ =>
          lit "INSERT INTO transactions (statement_id, date, amount, description, transaction_code, partner_name, partner_account, type, category) VALUES"
          ++ nl ++
          join (lit "," ++ nl)
               (map (fun inner => lit "(" ++ inner ++ lit ")") rows)
          ++ lit ";" ++ nl
      end /\
    List.length rows = List.length (transactions data) /\
    hd_error (extractValues metaInner) = Some (VStr sid) /\
    Forall (fun inner => hd_error (extractValues inner) = Some (VStr sid))
           rows.
Proof.
  intros iso nowId nowSaved data.
  exists (stmtIdOf nowId data), (metadataInner nowId nowSaved data),
    (map (rowInner (stmtIdOf nowId data)) (transactions data)).
  split; [|split; [|split; [|split; [|split]]]].
  - unfold stmtIdOf, str_or. now destruct (id data) as [[|c s]|].
  - apply stmtIdOf_not_nil.
  - assert (Hrows : insertTransactions (stmtIdOf nowId data) (transactions data)
                    = match map (rowInner (stmtIdOf nowId data))
                                (transactions data) with
                      | [] => []
                      | _ =>
                          lit "INSERT INTO transactions (statement_id, date, amount, description, transaction_code, partner_name, partner_account, type, category) VALUES"
                          ++ nl ++
                          join (lit "," ++ nl)
                               (map (fun inner => lit "(" ++ inner ++ lit ")")
                                    (map (rowInner (stmtIdOf nowId data))
                                         (transactions data)))
                          ++ lit ";" ++ nl
                      end).
    { assert (Hmap : forall txs,
                map (fun inner => lit "(" ++ inner ++ lit ")")
                    (map (rowInner (stmtIdOf nowId data)) txs)
                = map (txRow (stmtIdOf nowId data)) txs).
      { intros txs. rewrite map_map. apply map_ext. intros a.
        symmetry. apply txRow_eq. }
      rewrite Hmap. unfold insertTransactions.
      destruct (transactions data) as [|tx txs]; reflexivity. }
    unfold generateSQL. rewrite insertStatement_eq, Hrows.
    unfold tablesPreamble, metaHead. now rewrite <- !app_assoc.
  - apply length_map.
  - unfold metadataInner.
    rewrite (extractValues_skip_all nl) by reflexivity.
    rewrite (extractValues_skip_all (lit "    ")) by reflexivity.
    rewrite extractValues_escaped; reflexivity.
  - apply Forall_forall. intros inner Hin.
    apply in_map_iff in Hin as (tx & <- & _).
    unfold rowInner. rewrite extractValues_escaped; reflexivity.
Qed.

(** ** Decimal digits and numerals *)

Lemma is_digit_bounds : forall c,
  is_digit c = true <-> (48 <= c <= 57)%N.
Proof.
  intros c. unfold is_digit. rewrite andb_true_iff, !N.leb_le. tauto.
Qed.

Lemma digit_val_digit : forall r, (r < 10)%N -> digit_val (48 + r) = r.
Proof.
  intros r H. unfold digit_val.
  assert (E : is_digit (48 + r) = true) by (apply is_digit_bounds; lia).
  rewrite E. lia.
Qed.

Lemma digits_val_snoc : forall b ds d,
  digits_val b (ds ++ [d]) = (b * digits_val b ds + digit_val d)%N.
Proof.
  intros b ds d. unfold digits_val. now rewrite fold_left_app.
Qed.

Lemma digits_single : forall n acc,
  (n < 10)%N ->
  (48 + n)%N :: acc = [(48 + n)%N] ++ acc /\
  forallb is_digit [(48 + n)%N] = true /\
  digits_val 10 [(48 + n)%N] = n /\
  [(48 + n)%N] <> [] /\
  ((0 < n)%N ->
   (10 ^ N.of_nat (List.length [(48 + n)%N] - 1) <= n
    < 10 ^ N.of_nat (List.length [(48 + n)%N]))%N) /\
  last [(48 + n)%N] 0%N = (48 + n mod 10)%N.
Proof.
  intros n acc H.
  split; [reflexivity|]. split.
  { cbn [forallb]. rewrite andb_true_r. apply is_digit_bounds. lia. }
  split.
  { unfold digits_val. cbn [fold_left]. rewrite digit_val_digit; lia. }
  split; [discriminate|]. split.
  { intros Hp. change (List.length [(48 + n)%N]) with 1%nat.
    change (10 ^ N.of_nat (1 - 1))%N with 1%N.
    change (10 ^ N.of_nat 1)%N with 10%N. lia. }
  cbn [last]. rewrite N.mod_small; lia.
Qed.

Lemma digits_aux_spec : forall f n acc,
  (n < 2 ^ N.of_nat (S f))%N ->
  exists ds,
    digits_aux (S f) n acc = ds ++ acc /\
    forallb is_digit ds = true /\
    digits_val 10 ds = n /\
    ds <> [] /\
    ((0 < n)%N ->
     (10 ^ N.of_nat (List.length ds - 1) <= n < 10 ^ N.of_nat (List.length ds))%N) /\
    last ds 0%N = (48 + n mod 10)%N.
Proof.
  induction f as [|f IH]; intros n acc Hn.
  - assert (Hlt : (n < 10)%N) by (cbn in Hn; lia).
    exists [(48 + n)%N]. cbn [digits_aux].
    apply N.ltb_lt in Hlt as Hb. rewrite Hb.
    apply digits_single; assumption.
  - cbn [digits_aux]. destruct (N.ltb n 10) eqn:Hb.
    + apply N.ltb_lt in Hb. exists [(48 + n)%N].
      apply digits_single; assumption.
    + apply N.ltb_ge in Hb.
      assert (Hdiv : (n / 10 < 2 ^ N.of_nat (S f))%N).
      { replace (N.of_nat (S (S f))) with (N.succ (N.of_nat (S f))) in Hn
          by lia.
        rewrite N.pow_succ_r' in Hn.
        apply N.Div0.div_lt_upper_bound. lia. }
      destruct (IH (n / 10)%N ((48 + n mod 10)%N :: acc) Hdiv)
        as (ds & E & Hd & Hv & Hne & Hlen & Hlast).
      exists (ds ++ [(48 + n mod 10)%N]).
      assert (Hr : (n mod 10 < 10)%N) by (apply N.mod_lt; lia).
      assert (Hq : (0 < n / 10)%N).
      { apply N.div_str_pos. lia. }
      specialize (Hlen Hq).
      assert (Hl1 : (1 <= List.length ds)%nat).
      { destruct ds; [congruence | cbn; lia]. }
      repeat split.
      * change (digits_aux (S f) (n / 10) ((48 + n mod 10)%N :: acc)
                = (ds ++ [(48 + n mod 10)%N]) ++ acc).
        rewrite E. now rewrite <- app_assoc.
      * rewrite forallb_app, Hd. cbn [forallb andb]. rewrite andb_true_r.
        apply is_digit_bounds. lia.
      * rewrite digits_val_snoc, Hv, digit_val_digit by assumption.
        pose proof (N.div_mod n 10). lia.
      * intros H. now apply app_eq_nil in H as [_ H].
      * rewrite length_app. cbn [List.length].
        replace (List.length ds + 1 - 1)%nat with (S (List.length ds - 1))
          by lia.
        rewrite Nat2N.inj_succ, N.pow_succ_r'.
        pose proof (N.div_mod n 10). lia.
      * rewrite length_app. cbn [List.length].
        replace (List.length ds + 1)%nat with (S (List.length ds)) by lia.
        rewrite Nat2N.inj_succ, N.pow_succ_r'.
        pose proof (N.div_mod n 10). lia.
      * apply last_last.
Qed.

Lemma digitsN_spec : forall n,
  forallb is_digit (digitsN n) = true /\
  digits_val 10 (digitsN n) = n /\
  digitsN n <> [] /\
  ((0 < n)%N ->
   (10 ^ N.of_nat (List.length (digitsN n) - 1) <= n
    < 10 ^ N.of_nat (List.length (digitsN n)))%N) /\
  last (digitsN n) 0%N = (48 + n mod 10)%N.
Proof.
  intros n. unfold digitsN.
  assert (Hn : (n < 2 ^ N.of_nat (S (N.to_nat (N.log2 n))))%N).
  { rewrite Nat2N.inj_succ, N2Nat.id.
    destruct (N.eq_dec n 0) as [->|Hz]; [reflexivity|].
    apply N.log2_spec. lia. }
  destruct (digits_aux_spec (N.to_nat (N.log2 n)) n [] Hn)
    as (ds & E & H). rewrite app_nil_r in E. rewrite E. exact H.
Qed.

Ltac bdestruct :=
  repeat (match goal with
          | |- context [N.leb ?a ?b] => destruct (N.leb_spec a b); try lia
          | |- context [N.ltb ?a ?b] => destruct (N.ltb_spec a b); try lia
          | |- context [N.eqb ?a ?b] => destruct (N.eqb_spec a b); try lia
          end; cbn [andb orb negb]);
  cbn [andb orb negb]; try reflexivity; try discriminate.

Lemma digit_not_space : forall c, is_digit c = true -> is_space c = false.
Proof.
  intros c H. apply is_digit_bounds in H. unfold is_space. bdestruct.
Qed.

Lemma digit_is_numeral_char : forall c,
  is_digit c = true -> numeral_char c = true.
Proof. intros c H. unfold numeral_char. now rewrite H. Qed.

Lemma numeral_char_cases : forall c,
  numeral_char c = true -> (48 <= c <= 57)%N \/ c = MINUS \/ c = DOT.
Proof.
  intros c H. unfold numeral_char in H.
  apply orb_prop in H as [H|H]; [apply orb_prop in H as [H|H]|].
  - left. now apply is_digit_bounds.
  - right. left. now apply N.eqb_eq.
  - right. right. now apply N.eqb_eq.
Qed.

Lemma numeral_chars : forall neg ip fp,
  forallb is_digit ip = true -> forallb is_digit fp = true ->
  forallb numeral_char (numeral neg ip fp) = true.
Proof.
  intros neg ip fp Hi Hf. unfold numeral.
  assert (D : forall l, forallb is_digit l = true ->
                        forallb numeral_char l = true).
  { intros l Hl. rewrite forallb_forall in *. intros x Hx.
    apply digit_is_numeral_char. now apply Hl. }
  rewrite !forallb_app. rewrite (D ip Hi).
  destruct neg; destruct fp as [|d fp]; cbn [forallb andb];
    try reflexivity; apply (D (d :: fp) Hf).
Qed.

Lemma trim_id : forall c s,
  is_space c = false -> is_space (last (c :: s) 0%N) = false ->
  trim (c :: s) = c :: s.
Proof.
  intros c s Hc Hl. unfold trim. cbn [drop_while]. rewrite Hc.
  assert (Hne : c :: s <> []) by discriminate.
  rewrite (app_removelast_last 0%N Hne) at 1.
  rewrite rev_app_distr. cbn [rev app drop_while]. rewrite Hl.
  change (rev (last (c :: s) 0%N :: rev (removelast (c :: s))))
    with (rev (rev (removelast (c :: s))) ++ [last (c :: s) 0%N]).
  rewrite rev_involutive. symmetry. now apply app_removelast_last.
Qed.

Lemma parse_nondecimal_numeral : forall t,
  forallb numeral_char t = true -> parse_nondecimal t = None.
Proof.
  intros [|z [|k ds]] H; try reflexivity.
  cbn [forallb] in H. apply andb_prop in H as [_ H].
  apply andb_prop in H as [Hk _]. apply numeral_char_cases in Hk.
  unfold parse_nondecimal, MINUS, DOT in *.
  destruct (N.eqb z 48); [|reflexivity].
  destruct Hk as [Hk|[Hk|Hk]]; bdestruct.
Qed.

Lemma last_app_cons : forall (a b : list N) c d,
  last (a ++ c :: b) d = last (c :: b) d.
Proof.
  induction a as [|x a IH]; intros b c d; [reflexivity|].
  cbn [app]. change (last (x :: a ++ c :: b) d)
    with (match a ++ c :: b with [] => x | _ => last (a ++ c :: b) d end).
  destruct (a ++ c :: b) eqn:E; [now destruct a|]. rewrite <- E. apply IH.
Qed.

Lemma last_digit : forall l d,
  l <> [] -> forallb is_digit l = true -> is_digit (last l d) = true.
Proof.
  intros l d Hne H. rewrite forallb_forall in H. apply H.
  destruct l as [|x l]; [congruence|].
  rewrite (app_removelast_last d Hne) at 2.
  apply in_or_app. right. now left.
Qed.

(** [Number] reads a numeral as the decimal it denotes. *)
Lemma StringToNumber_numeral : forall neg ip fp,
  ip <> [] ->
  forallb is_digit ip = true -> forallb is_digit fp = true ->
  StringToNumber (numeral neg ip fp)
  = mkNumber neg (digits_val 10 (ip ++ fp)) (- Z.of_nat (List.length fp)).
Proof.
  intros neg ip fp Hne Hi Hf.
  pose proof (numeral_chars neg ip fp Hi Hf) as Hch.
  destruct ip as [|d ip]; [congruence|].
  assert (Hd : is_digit d = true) by (cbn in Hi; now apply andb_prop in Hi).
  (* the first and the last character are no spaces *)
  assert (Htrim : trim (numeral neg (d :: ip) fp) = numeral neg (d :: ip) fp).
  { assert (Hlast : is_space (last (numeral neg (d :: ip) fp) 0%N) = false).
    { apply digit_not_space. unfold numeral.
      destruct fp as [|f fp].
      - rewrite app_nil_r.
        destruct neg; cbn [app];
          [change (MINUS :: d :: ip) with ([MINUS] ++ d :: ip);
           rewrite last_app_cons|];
          apply last_digit; [discriminate|assumption|discriminate|assumption].
      - replace ((if neg then [MINUS] else []) ++ (d :: ip) ++ DOT :: f :: fp)
          with (((if neg then [MINUS] else []) ++ (d :: ip) ++ [DOT]) ++ f :: fp)
          by (now rewrite <- !app_assoc).
        rewrite last_app_cons. apply last_digit; [discriminate|assumption]. }
    unfold numeral in *. destruct neg; cbn [app] in *.
    - apply trim_id; [reflexivity|assumption].
    - apply trim_id; [now apply digit_not_space|assumption]. }
  assert (Hcons : exists x y, numeral neg (d :: ip) fp = x :: y).
  { unfold numeral. destruct neg; cbn [app]; eauto. }
  destruct Hcons as (x & y & Hxy).
  unfold StringToNumber. rewrite Htrim, Hxy. cbv beta iota. rewrite <- Hxy.
  rewrite (parse_nondecimal_numeral _ Hch).
  assert (Hsign : parse_sign (numeral neg (d :: ip) fp)
                  = (neg, (d :: ip) ++ match fp with [] => [] | _ => DOT :: fp end)).
  { unfold numeral, parse_sign. destruct neg; cbn [app].
    - reflexivity.
    - apply is_digit_bounds in Hd. unfold MINUS. bdestruct. }
  rewrite Hsign. unfold parse_unsigned.
  assert (Hinf : prefix_cs (lit "Infinity")
                   ((d :: ip) ++ match fp with [] => [] | _ => DOT :: fp end)
                 = None).
  { unfold prefix_cs. cbn [app lit prefix_with].
    change (N_of_ascii "I") with 73%N.
    apply is_digit_bounds in Hd. bdestruct. }
  rewrite Hinf.
  assert (Hspan : span is_digit
                    ((d :: ip) ++ match fp with [] => [] | _ => DOT :: fp end)
                  = (d :: ip, match fp with [] => [] | _ => DOT :: fp end)).
  { apply span_all; [assumption|]. now destruct fp. }
  rewrite Hspan.
  assert (Hfrac : parse_fraction (match fp with [] => [] | _ => DOT :: fp end)
                  = (fp, [])).
  { destruct fp as [|f fp]; [reflexivity|].
    unfold parse_fraction. rewrite N.eqb_refl.
    rewrite <- (app_nil_r (f :: fp)) at 1. now apply span_all. }
  rewrite Hfrac. cbn [app parse_exponent]. f_equal.
Qed.

Lemma digit_is_minus_or_digit : forall c,
  is_digit c = true -> is_minus_or_digit c = true.
Proof.
  intros c H. unfold is_minus_or_digit. rewrite H. apply orb_true_r.
Qed.

Lemma forallb_impl : forall (p q : N -> bool) l,
  (forall c, p c = true -> q c = true) ->
  forallb p l = true -> forallb q l = true.
Proof.
  intros p q l Hpq H. rewrite forallb_forall in *. auto.
Qed.

(** The numeric branch takes a numeral whole when a separator follows. *)
Lemma number_token_numeral : forall neg ip fp r,
  ip <> [] ->
  forallb is_digit ip = true -> forallb is_digit fp = true ->
  sep_ahead r ->
  number_token (numeral neg ip fp ++ r) = Some (numeral neg ip fp, r).
Proof.
  intros neg ip fp r Hne Hi Hf Hr.
  unfold number_token, numeral.
  set (sign := if neg then [MINUS] else []).
  set (frac := match fp with [] => [] | _ => DOT :: fp end).
  replace ((sign ++ ip ++ frac) ++ r) with ((sign ++ ip) ++ frac ++ r)
    by (now rewrite <- !app_assoc).
  assert (Hrun : forallb is_minus_or_digit (sign ++ ip) = true).
  { rewrite forallb_app.
    rewrite (forallb_impl is_digit is_minus_or_digit ip
               digit_is_minus_or_digit Hi).
    subst sign. now destruct neg. }
  assert (Hnext : match frac ++ r with
                  | [] => True
                  | c :: _ => is_minus_or_digit c = false
                  end).
  { subst frac. destruct fp as [|f fp]; cbn [app].
    - destruct r as [|c r]; [exact I|]. apply Hr.
    - reflexivity. }
  rewrite (span_all is_minus_or_digit (sign ++ ip) (frac ++ r) Hrun Hnext).
  assert (Hcons : exists x y, sign ++ ip = x :: y).
  { subst sign. destruct ip as [|d ip]; [congruence|].
    destruct neg; cbn [app]; eauto. }
  destruct Hcons as (x & y & Hxy). rewrite Hxy. cbv beta iota.
  rewrite <- Hxy. clear x y Hxy.
  subst frac. destruct fp as [|f fp]; cbn [app].
  - rewrite app_nil_r. destruct r as [|c r]; [reflexivity|].
    cbn in Hr. destruct Hr as [_ Hdot]. now rewrite Hdot.
  - rewrite N.eqb_refl.
    assert (Hr' : match r with [] => True | c :: _ => is_digit c = false end).
    { destruct r as [|c r]; [exact I|]. cbn in Hr. destruct Hr as [Hmd _].
      unfold is_minus_or_digit in Hmd.
      now apply orb_false_elim in Hmd as [_ Hmd]. }
    change (f :: fp ++ r) with ((f :: fp) ++ r).
    rewrite (span_all is_digit (f :: fp) r Hf Hr').
    now rewrite <- app_assoc.
Qed.

Lemma rev_drop_while_last : forall (p : N -> bool) c s,
  p (last (c :: s) 0%N) = false ->
  rev (drop_while p (rev (c :: s))) = c :: s.
Proof.
  intros p c s Hl.
  assert (Hne : c :: s <> []) by discriminate.
  rewrite (app_removelast_last 0%N Hne) at 1.
  rewrite rev_app_distr. cbn [rev app drop_while]. rewrite Hl.
  change (rev (last (c :: s) 0%N :: rev (removelast (c :: s))))
    with (rev (rev (removelast (c :: s))) ++ [last (c :: s) 0%N]).
  rewrite rev_involutive. symmetry. now apply app_removelast_last.
Qed.

Lemma drop_while_repeat : forall r,
  r = repeat 48%N
        (List.length r - List.length (drop_while (fun c => N.eqb c 48) r))
      ++ drop_while (fun c => N.eqb c 48) r.
Proof.
  induction r as [|c r IH]; [reflexivity|].
  cbn [drop_while]. destruct (N.eqb_spec c 48) as [->|Hc].
  - assert (L : (List.length (drop_while (fun c => N.eqb c 48) r)
                 <= List.length r)%nat).
    { clear. induction r as [|c r IH]; cbn [drop_while]; [lia|].
      destruct (N.eqb c 48); cbn [List.length]; lia. }
    cbn [List.length].
    replace (S (List.length r)
             - List.length (drop_while (fun c => N.eqb c 48) r))%nat
      with (S (List.length r
               - List.length (drop_while (fun c => N.eqb c 48) r)))
      by lia.
    cbn [repeat app]. f_equal. exact IH.
  - now rewrite Nat.sub_diag.
Qed.

Lemma rev_repeat : forall (x : N) n, rev (repeat x n) = repeat x n.
Proof.
  induction n as [|n IH]; [reflexivity|].
  cbn [repeat rev]. rewrite IH.
  clear IH. induction n as [|n IH]; [reflexivity|].
  cbn [repeat app]. now rewrite IH.
Qed.

Lemma strip_zeros_repeat : forall ds,
  strip_zeros ds
  ++ repeat 48%N (List.length ds - List.length (strip_zeros ds)) = ds.
Proof.
  intros ds. unfold strip_zeros.
  rewrite length_rev. rewrite <- (length_rev ds) at 1.
  rewrite <- (rev_repeat 48%N), <- rev_app_distr.
  rewrite <- drop_while_repeat. apply rev_involutive.
Qed.

Lemma strip_zeros_length : forall ds,
  (List.length (strip_zeros ds) <= List.length ds)%nat.
Proof.
  intros ds. pose proof (strip_zeros_repeat ds) as H.
  apply (f_equal (@List.length N)) in H. rewrite length_app in H. lia.
Qed.

Lemma strip_zeros_id : forall ds,
  ds <> [] -> N.eqb (last ds 0%N) 48 = false -> strip_zeros ds = ds.
Proof.
  intros [|c s] Hne H; [congruence|].
  unfold strip_zeros. now apply rev_drop_while_last.
Qed.

Lemma digits_val_zeros : forall j s,
  digits_val 10 (repeat 48%N j ++ s) = digits_val 10 s.
Proof.
  intros j s. unfold digits_val. rewrite fold_left_app.
  f_equal. induction j as [|j IH]; [reflexivity|].
  cbn [repeat]. cbn [fold_left]. exact IH.
Qed.

(** ** Plain amounts *)

Lemma pow10_pos : forall k, (0 < 10 ^ k)%N.
Proof. intros k. apply N.neq_0_lt_0. apply N.pow_nonzero. lia. Qed.

Lemma strip_id : forall m sc,
  N.eqb (m mod 10) 0 = false -> strip m (S sc) = (m, S sc).
Proof. intros m sc H. cbn [strip]. now rewrite H. Qed.

(** A positive integer below [10^21] is the Number it denotes. *)
Lemma mkNumber_integer : forall neg m,
  (0 < m < 10 ^ 21)%N -> mkNumber neg m 0 = Dec neg m 0.
Proof.
  intros neg m [H0 H1]. unfold mkNumber.
  destruct (N.eqb_spec m 0) as [->|_]; [lia|].
  change (0 <=? 0)%Z with true. cbv beta iota.
  change (10 ^ Z.to_N 0)%N with 1%N. rewrite N.mul_1_r.
  assert (C : (10 ^ 21 < 2 ^ 1024 - 2 ^ 970)%N) by (vm_compute; reflexivity).
  destruct (N.leb_spec (2 ^ 1024 - 2 ^ 970) m); [lia|reflexivity].
Qed.

(** A decimal with a fraction is the Number it denotes when it has no
    trailing zero and lies in [1e-6, 1e21). *)
Lemma mkNumber_fraction : forall neg m sc len,
  N.eqb (m mod 10) 0 = false ->
  (10 ^ N.of_nat (len - 1) <= m < 10 ^ N.of_nat len)%N ->
  (1 <= len)%nat ->
  (S sc <= len + 5)%nat -> (len <= 21 + S sc)%nat ->
  mkNumber neg m (- Z.of_nat (S sc)) = Dec neg m (S sc).
Proof.
  intros neg m sc len Hmod [Hlo Hhi] Hlen Hs1 Hs2. unfold mkNumber.
  assert (Hm : (0 < m)%N).
  { pose proof (pow10_pos (N.of_nat (len - 1))). lia. }
  destruct (N.eqb_spec m 0) as [->|_]; [lia|].
  destruct (Z.leb_spec 0 (- Z.of_nat (S sc))) as [Hle|_]; [lia|].
  replace (Z.to_N (- - Z.of_nat (S sc))) with (N.of_nat (S sc)) by lia.
  replace (Z.to_nat (- - Z.of_nat (S sc))) with (S sc) by lia.
  (* not rounded to zero *)
  assert (U : (10 ^ N.of_nat (S sc) < m * 2 ^ 1075)%N).
  { assert (A1 : (10 ^ N.of_nat (S sc) <= 10 ^ N.of_nat (len + 5))%N).
    { apply N.pow_le_mono_r; lia. }
    assert (A2 : (10 ^ N.of_nat (len + 5)
                  = 10 ^ N.of_nat (len - 1) * 10 ^ 6)%N).
    { rewrite <- N.pow_add_r. f_equal. lia. }
    assert (A3 : (10 ^ 6 < 2 ^ 1075)%N) by (vm_compute; reflexivity).
    assert (A4 : (10 ^ N.of_nat (len - 1) * 10 ^ 6 <= m * 10 ^ 6)%N).
    { apply N.mul_le_mono_r. exact Hlo. }
    assert (A5 : (m * 10 ^ 6 < m * 2 ^ 1075)%N).
    { apply N.mul_lt_mono_pos_l; assumption. }
    rewrite A2 in A1. eapply N.le_lt_trans; [|exact A5].
    eapply N.le_trans; eassumption. }
  destruct (N.leb_spec (m * 2 ^ 1075) (10 ^ N.of_nat (S sc))) as [Hu|_].
  { exfalso. eapply N.lt_irrefl. eapply N.lt_le_trans; eassumption. }
  (* not rounded to an infinity *)
  assert (O : (m < (2 ^ 1024 - 2 ^ 970) * 10 ^ N.of_nat (S sc))%N).
  { assert (B1 : (10 ^ N.of_nat len <= 10 ^ N.of_nat (21 + S sc))%N).
    { apply N.pow_le_mono_r; lia. }
    assert (B2 : (10 ^ N.of_nat (21 + S sc)
                  = 10 ^ 21 * 10 ^ N.of_nat (S sc))%N).
    { rewrite <- N.pow_add_r. f_equal. lia. }
    assert (B3 : (10 ^ 21 < 2 ^ 1024 - 2 ^ 970)%N)
      by (vm_compute; reflexivity).
    assert (B4 : (10 ^ 21 * 10 ^ N.of_nat (S sc)
                  < (2 ^ 1024 - 2 ^ 970) * 10 ^ N.of_nat (S sc))%N).
    { apply N.mul_lt_mono_pos_r; [apply pow10_pos|exact B3]. }
    rewrite B2 in B1. eapply N.lt_trans; [|exact B4].
    eapply N.lt_le_trans; eassumption. }
  destruct (N.leb_spec ((2 ^ 1024 - 2 ^ 970) * 10 ^ N.of_nat (S sc)) m)
    as [Ho|_].
  { exfalso. eapply N.lt_irrefl. eapply N.lt_le_trans; eassumption. }
  now rewrite strip_id.
Qed.

(** What [Number::toString] prints for a plain amount is a numeral that
    [Number] reads back as the amount. *)
Lemma plain_amount_numeral : forall a,
  plain_amount a = true ->
  exists neg ip fp,
    NumberToString a = numeral neg ip fp /\
    ip <> [] /\
    forallb is_digit ip = true /\ forallb is_digit fp = true /\
    mkNumber neg (digits_val 10 (ip ++ fp)) (- Z.of_nat (List.length fp)) = a.
Proof.
  intros [| |neg m scale] H; try discriminate.
  unfold plain_amount in H.
  destruct (N.eqb_spec m 0) as [->|Hm].
  - apply andb_prop in H as [Hneg Hsc].
    apply negb_true_iff in Hneg. apply Nat.eqb_eq in Hsc. subst.
    exists false, [48%N], []. repeat split; try reflexivity. discriminate.
  - destruct (digitsN_spec m) as (Hd & Hv & Hne & Hlen & Hlast).
    assert (Hpos : (0 < m)%N) by lia. specialize (Hlen Hpos).
    apply andb_prop in H as [Hcanon Hrange].
    apply andb_prop in Hrange as [Hr1 Hr2].
    apply Z.ltb_lt in Hr1. apply Z.leb_le in Hr2.
    assert (HL : (1 <= List.length (digitsN m))%nat).
    { destruct (digitsN m); [congruence|cbn; lia]. }
    unfold NumberToString. apply N.eqb_neq in Hm as Hmb. rewrite Hmb.
    cbv zeta.
    destruct scale as [|sc].
    + (* an integer *)
      pose proof (strip_zeros_length (digitsN m)) as Hk.
      exists neg, (digitsN m), [].
      replace ((Z.of_nat (List.length (strip_zeros (digitsN m)))
                <=? Z.of_nat (List.length (digitsN m)) - Z.of_nat 0)%Z
               && (Z.of_nat (List.length (digitsN m)) - Z.of_nat 0 <=? 21)%Z)
        with true
        by (symmetry; apply andb_true_iff; split; apply Z.leb_le; lia).
      replace (Z.to_nat (Z.of_nat (List.length (digitsN m)) - Z.of_nat 0
                         - Z.of_nat (List.length (strip_zeros (digitsN m)))))
        with (List.length (digitsN m)
              - List.length (strip_zeros (digitsN m)))%nat by lia.
      rewrite strip_zeros_repeat.
      split; [unfold numeral; now rewrite app_nil_r|].
      split; [assumption|]. split; [assumption|]. split; [reflexivity|].
      rewrite app_nil_r, Hv. change (- Z.of_nat (List.length (@nil N)))%Z with 0%Z.
      apply mkNumber_integer. split; [assumption|].
      eapply N.lt_le_trans; [apply Hlen|].
      apply N.pow_le_mono_r; lia.
    + (* a fraction *)
      cbn [Nat.eqb orb] in Hcanon. apply negb_true_iff in Hcanon.
      assert (Hstrip : strip_zeros (digitsN m) = digitsN m).
      { apply strip_zeros_id; [assumption|]. rewrite Hlast.
        apply N.eqb_neq. apply N.eqb_neq in Hcanon. lia. }
      rewrite Hstrip.
      set (L := List.length (digitsN m)) in *.
      replace ((Z.of_nat L <=? Z.of_nat L - Z.of_nat (S sc))%Z
               && (Z.of_nat L - Z.of_nat (S sc) <=? 21)%Z)
        with false
        by (symmetry; apply andb_false_iff; left; apply Z.leb_gt; lia).
      assert (Hnum : mkNumber neg m (- Z.of_nat (S sc)) = Dec neg m (S sc)).
      { apply mkNumber_fraction with (len := L); try assumption; lia. }
      destruct (Z.ltb_spec 0 (Z.of_nat L - Z.of_nat (S sc))) as [Hn|Hn].
      * replace (Z.of_nat L - Z.of_nat (S sc) <=? 21)%Z with true
          by (symmetry; apply Z.leb_le; lia).
        cbn [andb].
        replace (Z.to_nat (Z.of_nat L - Z.of_nat (S sc)))
          with (L - S sc)%nat by lia.
        exists neg, (firstn (L - S sc) (digitsN m)),
               (skipn (L - S sc) (digitsN m)).
        assert (Hfp : List.length (skipn (L - S sc) (digitsN m)) = S sc).
        { rewrite length_skipn. fold L. lia. }
        assert (Hip : List.length (firstn (L - S sc) (digitsN m))
                      = (L - S sc)%nat).
        { rewrite length_firstn. fold L. lia. }
        rewrite <- (firstn_skipn (L - S sc) (digitsN m)) in Hd.
        rewrite forallb_app in Hd. apply andb_prop in Hd as [Hd1 Hd2].
        split.
        { unfold numeral.
          destruct (skipn (L - S sc) (digitsN m)) eqn:E;
            [discriminate Hfp|reflexivity]. }
        split.
        { intros E. rewrite E in Hip.
          change (List.length (@nil N)) with 0%nat in Hip. lia. }
        split; [assumption|]. split; [assumption|].
        rewrite firstn_skipn, Hv, Hfp. exact Hnum.
      * cbn [andb].
        replace ((-6 <? Z.of_nat L - Z.of_nat (S sc))%Z
                 && (Z.of_nat L - Z.of_nat (S sc) <=? 0)%Z)
          with true
          by (symmetry; apply andb_true_iff; split;
              [apply Z.ltb_lt|apply Z.leb_le]; lia).
        replace (Z.to_nat (- (Z.of_nat L - Z.of_nat (S sc))))
          with (S sc - L)%nat by lia.
        exists neg, [48%N], (repeat 48%N (S sc - L) ++ digitsN m).
        split.
        { unfold numeral.
          destruct (repeat 48%N (S sc - L) ++ digitsN m) eqn:E;
            [|reflexivity].
          apply app_eq_nil in E as [_ E]. congruence. }
        split; [discriminate|]. split; [reflexivity|].
        split.
        { rewrite forallb_app, Hd, andb_true_r.
          clear. induction (S sc - L)%nat; [reflexivity|exact IHn]. }
        change ([48%N] ++ repeat 48%N (S sc - L) ++ digitsN m)
          with (repeat 48%N (S (S sc - L)) ++ digitsN m).
        rewrite digits_val_zeros, Hv.
        rewrite length_app, repeat_length. fold L.
        replace (S sc - L + L)%nat with (S sc) by lia. exact Hnum.
Qed.

(** ** Searching past text that holds no marker *)

Section Occurrence.

Variable eqc : N -> N -> bool.

Lemma prefix_with_app_sep : forall p a c b r,
  not_in eqc c p = true ->
  prefix_with eqc p (a ++ c :: b) = Some r ->
  exists r', prefix_with eqc p a = Some r'.
Proof.
  induction p as [|x p IH]; intros a c b r Hc H.
  - exists a. reflexivity.
  - cbn [not_in forallb] in Hc. apply andb_prop in Hc as [Hx Hp].
    apply negb_true_iff in Hx.
    destruct a as [|y a]; cbn [app prefix_with] in *.
    + rewrite Hx in H. discriminate.
    + destruct (eqc x y); [|discriminate]. eapply IH; eassumption.
Qed.

Lemma prefix_with_app_l : forall p q s r,
  prefix_with eqc (p ++ q) s = Some r ->
  exists r', prefix_with eqc p s = Some r'.
Proof.
  induction p as [|x p IH]; intros q s r H.
  - exists s. reflexivity.
  - destruct s as [|y s]; cbn [app prefix_with] in *; [discriminate|].
    destruct (eqc x y); [|discriminate]. eapply IH; eassumption.
Qed.

Lemma occurs_with_suffix : forall p a1 a2,
  occurs_with eqc p (a1 ++ a2) = false -> prefix_with eqc p a2 = None.
Proof.
  induction a1 as [|c a1 IH]; intros a2 H.
  - cbn [app] in H. destruct a2 as [|c a2]; cbn [occurs_with] in H;
      destruct (prefix_with eqc p _); [discriminate|reflexivity
                                      |discriminate|reflexivity].
  - cbn [app occurs_with] in H.
    destruct (prefix_with eqc p (c :: a1 ++ a2)); [discriminate|].
    now apply IH.
Qed.

Lemma occurs_with_app_l : forall p q s,
  occurs_with eqc p s = false -> occurs_with eqc (p ++ q) s = false.
Proof.
  induction s as [|c s IH]; intros H; cbn [occurs_with] in *.
  - destruct (prefix_with eqc p []) eqn:E; [discriminate|].
    destruct (prefix_with eqc (p ++ q) []) eqn:E2; [|reflexivity].
    apply prefix_with_app_l in E2 as [r' E2]. congruence.
  - destruct (prefix_with eqc p (c :: s)) eqn:E; [discriminate|].
    destruct (prefix_with eqc (p ++ q) (c :: s)) eqn:E2.
    + apply prefix_with_app_l in E2 as [r' E2]. congruence.
    + now apply IH.
Qed.

Lemma Skippable_nil : forall p, Skippable eqc p [].
Proof.
  intros p a1 a2 rest E Hne. symmetry in E.
  apply app_eq_nil in E as [_ E]. congruence.
Qed.

Lemma Skippable_app : forall p a b,
  Skippable eqc p a -> Skippable eqc p b -> Skippable eqc p (a ++ b).
Proof.
  intros p a b Ha Hb a1 a2 rest E Hne.
  apply app_eq_app in E as [l [[E1 E2]|[E1 E2]]].
  - subst a2. destruct l as [|x l].
    + cbn [app]. apply (Hb [] b rest); [reflexivity|exact Hne].
    + rewrite <- app_assoc. apply (Ha a1 (x :: l) (b ++ rest)).
      * exact E1.
      * discriminate.
  - apply (Hb l a2 rest); assumption.
Qed.

Lemma Skippable_tail : forall p c a,
  Skippable eqc p (c :: a) -> Skippable eqc p a.
Proof.
  intros p c a H a1 a2 rest E Hne.
  apply (H (c :: a1) a2 rest); [now rewrite E|exact Hne].
Qed.

Lemma Skippable_head : forall p c a rest,
  Skippable eqc p (c :: a) -> prefix_with eqc p (c :: a ++ rest) = None.
Proof.
  intros p c a rest H. apply (H [] (c :: a) rest); [reflexivity|discriminate].
Qed.

(** Text in which nothing matches the first character of the literal. *)
Lemma Skippable_nohead : forall x p a,
  forallb (fun c => negb (eqc x c)) a = true -> Skippable eqc (x :: p) a.
Proof.
  intros x p a H a1 a2 rest E Hne.
  destruct a2 as [|c a2]; [congruence|].
  rewrite forallb_forall in H.
  assert (Hc : negb (eqc x c) = true).
  { apply H. rewrite E. apply in_or_app. right. now left. }
  apply negb_true_iff in Hc. cbn [app prefix_with]. now rewrite Hc.
Qed.

(** Text without the literal, closed by a character that is not in it. *)
Lemma Skippable_sep : forall p f c,
  p <> [] -> occurs_with eqc p f = false -> not_in eqc c p = true ->
  Skippable eqc p (f ++ [c]).
Proof.
  intros p f c Hp Hf Hc a1 a2 rest E Hne.
  destruct (exists_last Hne) as (a2' & x & ->).
  rewrite app_assoc in E. apply app_inj_tail in E as [E ->].
  rewrite <- app_assoc. cbn [app].
  destruct (prefix_with eqc p (a2' ++ x :: rest)) eqn:P; [|reflexivity].
  apply prefix_with_app_sep in P as [r' P]; [|assumption].
  subst f. apply occurs_with_suffix in Hf. congruence.
Qed.

Lemma Skippable_field : forall p f c b,
  p <> [] -> occurs_with eqc p f = false -> not_in eqc c p = true ->
  Skippable eqc p b -> Skippable eqc p (f ++ c :: b).
Proof.
  intros p f c b Hp Hf Hc Hb.
  change (f ++ c :: b) with (f ++ [c] ++ b). rewrite app_assoc.
  apply Skippable_app; [now apply Skippable_sep|assumption].
Qed.

(** A given text, by evaluation. *)
Lemma Skippable_closed : forall p a,
  p <> [] ->
  (match a with
   | [] => true
   | _ => negb (occurs_with eqc p (removelast a))
          && not_in eqc (last a 0%N) p
   end) = true ->
  Skippable eqc p a.
Proof.
  intros p a Hp H. destruct a as [|c a]; [apply Skippable_nil|].
  apply andb_prop in H as [H1 H2]. apply negb_true_iff in H1.
  assert (Hne : c :: a <> []) by discriminate.
  rewrite (app_removelast_last 0%N Hne).
  now apply Skippable_sep.
Qed.

End Occurrence.

Lemma search_statements_skip : forall a rest,
  Skippable eq_ci (lit "INSERT INTO statements") a ->
  search_statements (a ++ rest) = search_statements rest.
Proof.
  induction a as [|c a IH]; intros rest H; [reflexivity|].
  cbn [app search_statements]. unfold match_statements_at at 1.
  unfold prefix_ci.
  rewrite (Skippable_head eq_ci _ _ _ rest H).
  apply IH. eapply Skippable_tail; eassumption.
Qed.

Lemma search_insert_skip : forall a rest i,
  Skippable eq_ci (lit "INSERT INTO transactions") a ->
  search_insert i (a ++ rest)
  = search_insert (i + Z.of_nat (List.length a)) rest.
Proof.
  induction a as [|c a IH]; intros rest i H.
  - cbn [app List.length]. now rewrite Z.add_0_r.
  - cbn [app search_insert]. unfold match_insert_at at 1.
    unfold prefix_ci.
    rewrite (Skippable_head eq_ci _ _ _ rest H).
    rewrite IH by (eapply Skippable_tail; eassumption).
    f_equal. cbn [List.length]. lia.
Qed.

Lemma search_insert_none : forall a i,
  Skippable eq_ci (lit "INSERT INTO transactions") a ->
  search_insert i a = None.
Proof.
  intros a i H. rewrite <- (app_nil_r a). rewrite search_insert_skip by exact H.
  reflexivity.
Qed.

(** ** The scanner on well-formed text *)

Lemma substring_middle : forall pre mid post,
  substring (pre ++ mid ++ post) (Z.of_nat (List.length pre))
            (Z.of_nat (List.length pre) + Z.of_nat (List.length mid))
  = mid.
Proof.
  intros pre mid post. unfold substring.
  rewrite !length_app.
  set (a := Z.of_nat (List.length pre)).
  set (b := (a + Z.of_nat (List.length mid))%Z).
  set (len := Z.of_nat (List.length pre + (List.length mid + List.length post))).
  assert (Ha : Z.min (Z.max a 0) len = a) by lia.
  assert (Hb : Z.min (Z.max b 0) len = b) by lia.
  rewrite Ha, Hb.
  replace (Z.min a b) with a by lia. replace (Z.max a b) with b by lia.
  subst a b. rewrite Nat2Z.id.
  replace (Z.to_nat (Z.of_nat (List.length pre) + Z.of_nat (List.length mid)
                     - Z.of_nat (List.length pre)))
    with (List.length mid) by lia.
  rewrite skipn_app, skipn_all, Nat.sub_diag. cbn [app skipn].
  rewrite firstn_app, firstn_all, Nat.sub_diag. cbn [firstn].
  apply app_nil_r.
Qed.

Section ScanLemmas.

Variable A : Type.
Variable push : jsstring -> list A -> list A.

Lemma plain_char_spec : forall c,
  plain_char c = true ->
  N.eqb c QUOTE = false /\ N.eqb c LPAREN = false /\
  N.eqb c RPAREN = false /\ N.eqb c SEMI = false.
Proof.
  intros c H. unfold plain_char in H.
  apply andb_prop in H as [H H4]. apply andb_prop in H as [H H3].
  apply andb_prop in H as [H1 H2].
  repeat split; now apply negb_true_iff.
Qed.

Lemma scan_plain : forall s content rest i d ts acc,
  forallb plain_char s = true ->
  scan push content (s ++ rest) i false d ts acc
  = scan push content rest (i + Z.of_nat (List.length s)) false d ts acc.
Proof.
  induction s as [|c s IH]; intros content rest i d ts acc H.
  - cbn [app List.length]. now rewrite Z.add_0_r.
  - cbn [forallb] in H. apply andb_prop in H as [Hc Hs].
    apply plain_char_spec in Hc as (H1 & H2 & H3 & H4).
    cbn [app scan]. rewrite H1, H2, H3, H4. cbn [andb].
    rewrite IH by assumption. f_equal. cbn [List.length]. lia.
Qed.

Lemma scan_in_string : forall f content rest i d ts acc,
  no_quote_ahead rest ->
  scan push content (escape_quotes f ++ QUOTE :: rest) i true d ts acc
  = scan push content rest
      (i + Z.of_nat (List.length (escape_quotes f)) + 1) false d ts acc.
Proof.
  induction f as [|c f IH]; intros content rest i d ts acc Hr.
  - cbn [escape_quotes app List.length scan]. rewrite N.eqb_refl.
    destruct rest as [|q rest].
    + f_equal. lia.
    + cbn in Hr. rewrite Hr. f_equal. lia.
  - cbn [escape_quotes]. destruct (N.eqb c QUOTE) eqn:E.
    + cbn [app scan]. rewrite N.eqb_refl.
      rewrite IH by assumption. f_equal. cbn [List.length]. lia.
    + cbn [app scan]. rewrite E.
      rewrite IH by assumption. f_equal. cbn [List.length]. lia.
Qed.

Lemma scan_escaped : forall f, Passes push (sqlEscape (Some f)).
Proof.
  intros f content rest i d ts acc Hr.
  unfold sqlEscape. rewrite <- !app_assoc. cbn [app scan].
  change (N.eqb QUOTE QUOTE) with true. cbv beta iota.
  rewrite scan_in_string by assumption.
  f_equal. cbn [List.length]. rewrite length_app. cbn [List.length]. lia.
Qed.

Lemma Passes_plain : forall s,
  forallb plain_char s = true -> Passes push s.
Proof.
  intros s H content rest i d ts acc _. now apply scan_plain.
Qed.

Lemma scan_sqlEscape : forall o, Passes push (sqlEscape o).
Proof.
  intros [f|]; [apply scan_escaped|]. now apply Passes_plain.
Qed.

(** A passable text followed by plain text. *)
Lemma Passes_app_plain : forall a s b,
  Passes push a -> s <> [] -> forallb plain_char s = true ->
  Passes push b -> Passes push (a ++ s ++ b).
Proof.
  intros a s b Ha Hne Hs Hb content rest i d ts acc Hr.
  rewrite <- !app_assoc.
  rewrite Ha.
  - rewrite scan_plain by assumption. rewrite Hb by assumption.
    f_equal. rewrite !length_app. lia.
  - destruct s as [|c s]; [congruence|]. cbn [app no_quote_ahead].
    cbn [forallb] in Hs. apply andb_prop in Hs as [Hc _].
    now apply plain_char_spec in Hc.
Qed.

(** One tuple: from its opening parenthesis at depth 0 to just after its
    closing one, the scanner pushes the text between them. *)
Lemma scan_tuple : forall content pre inner post acc,
  Passes push inner ->
  content = pre ++ paren inner ++ post ->
  scan push content (paren inner ++ post) (Z.of_nat (List.length pre))
       false 0 (-1) acc
  = scan push content post
      (Z.of_nat (List.length pre) + Z.of_nat (List.length (paren inner)))
      false 0 (-1) (push inner acc).
Proof.
  intros content pre inner post acc Hin Hc.
  unfold paren. cbn [app scan].
  change (N.eqb LPAREN QUOTE) with false.
  change (N.eqb LPAREN LPAREN) with true. cbv beta iota.
  change (0 =? 0)%Z with true. cbv beta iota.
  rewrite <- app_assoc. rewrite Hin by reflexivity.
  cbn [app scan].
  change (N.eqb RPAREN QUOTE) with false.
  change (N.eqb RPAREN LPAREN) with false.
  change (N.eqb RPAREN RPAREN) with true. cbv beta iota zeta.
  change (0 + 1 - 1 =? 0)%Z with true.
  replace (Z.of_nat (List.length pre) =? -1)%Z with false
    by (symmetry; apply Z.eqb_neq; lia).
  cbn [andb negb].
  assert (Hsub : substring content (Z.of_nat (List.length pre) + 1)
                   (Z.of_nat (List.length pre) + 1
                    + Z.of_nat (List.length inner)) = inner).
  { rewrite Hc. unfold paren.
    replace (pre ++ (LPAREN :: inner ++ [RPAREN]) ++ post)
      with ((pre ++ [LPAREN]) ++ inner ++ RPAREN :: post)
      by (cbn [app]; rewrite <- !app_assoc; reflexivity).
    replace (Z.of_nat (List.length pre) + 1)%Z
      with (Z.of_nat (List.length (pre ++ [LPAREN])))
      by (rewrite length_app; cbn [List.length]; lia).
    apply substring_middle. }
  rewrite Hsub. f_equal.
  - cbn [List.length]. rewrite length_app. cbn [List.length]. lia.
Qed.

(** The rows of one statement, up to its semicolon. *)
Lemma scan_rows : forall rows content pre post acc,
  Forall (Passes push) rows ->
  content = pre ++ join rowSep (map paren rows) ++ SEMI :: post ->
  scan push content (join rowSep (map paren rows) ++ SEMI :: post)
       (Z.of_nat (List.length pre)) false 0 (-1) acc
  = fold_left (fun acc inner => push inner acc) rows acc.
Proof.
  induction rows as [|r rows IH]; intros content pre post acc Hp Hc.
  - reflexivity.
  - inversion Hp as [|r' rows' Hr Hrows]; subst r' rows'.
    destruct rows as [|r2 rows].
    + cbn [map join fold_left].
      rewrite (scan_tuple content pre r (SEMI :: post) acc Hr Hc).
      reflexivity.
    + change (join rowSep (map paren (r :: r2 :: rows)))
        with (paren r ++ rowSep ++ join rowSep (map paren (r2 :: rows)))
        in *.
      rewrite <- !app_assoc in *.
      rewrite (scan_tuple content pre r _ acc Hr Hc).
      rewrite scan_plain by reflexivity.
      replace (Z.of_nat (List.length pre) + Z.of_nat (List.length (paren r))
               + Z.of_nat (List.length rowSep))%Z
        with (Z.of_nat (List.length (pre ++ paren r ++ rowSep)))
        by (rewrite !length_app; lia).
      apply (IH content (pre ++ paren r ++ rowSep) post (push r acc) Hrows).
      rewrite Hc. now rewrite <- !app_assoc.
Qed.

End ScanLemmas.

(** ** The tuples of the encoder, read by the extractor *)

Lemma numeral_char_no_open : forall c,
  numeral_char c = true -> N.eqb c QUOTE = false /\ eq_ci 78%N c = false.
Proof.
  intros c H. apply numeral_char_cases in H.
  unfold eq_ci, upper, QUOTE, MINUS, DOT in *.
  split; destruct H as [H|[H|H]]; bdestruct.
Qed.

Lemma match_value_numeral : forall neg ip fp r,
  ip <> [] ->
  forallb is_digit ip = true -> forallb is_digit fp = true ->
  sep_ahead r ->
  match_value (numeral neg ip fp ++ r)
  = Some (Group3 (numeral neg ip fp), r).
Proof.
  intros neg ip fp r Hne Hi Hf Hr.
  pose proof (number_token_numeral neg ip fp r Hne Hi Hf Hr) as Htok.
  pose proof (numeral_chars neg ip fp Hi Hf) as Hch.
  assert (Hcons : exists x y, numeral neg ip fp = x :: y).
  { unfold numeral. destruct ip as [|d ip]; [congruence|].
    destruct neg; cbn [app]; eauto. }
  destruct Hcons as (x & y & Hxy). rewrite Hxy in *.
  cbn [forallb] in Hch. apply andb_prop in Hch as [Hx _].
  apply numeral_char_no_open in Hx as [Hq Hn].
  unfold match_value. cbn [app] in *. rewrite Hq.
  unfold prefix_ci. cbn [lit prefix_with].
  change (N_of_ascii "N") with 78%N. rewrite Hn.
  now rewrite Htok.
Qed.

Lemma extractValues_numeral : forall neg ip fp r,
  ip <> [] ->
  forallb is_digit ip = true -> forallb is_digit fp = true ->
  sep_ahead r ->
  extractValues (numeral neg ip fp ++ r)
  = VNum (StringToNumber (numeral neg ip fp)) :: extractValues r.
Proof.
  intros neg ip fp r Hne Hi Hf Hr.
  rewrite extractValues_unfold.
  now rewrite match_value_numeral.
Qed.

Lemma extractValues_amount : forall a r,
  plain_amount a = true -> sep_ahead r ->
  extractValues (NumberToString a ++ r) = VNum a :: extractValues r.
Proof.
  intros a r Ha Hr.
  destruct (plain_amount_numeral a Ha) as (neg & ip & fp & E & Hne & Hi & Hf & Hv).
  rewrite E. rewrite extractValues_numeral by assumption.
  now rewrite StringToNumber_numeral, Hv.
Qed.

Lemma digitsZ_numeral : forall z,
  digitsZ z = numeral (z <? 0)%Z (digitsN (Z.abs_N z)) [].
Proof.
  intros z. unfold digitsZ, numeral. rewrite app_nil_r.
  now destruct (z <? 0)%Z.
Qed.

Lemma StringToNumber_digitsZ : forall z,
  StringToNumber (digitsZ z) = numOfZ z.
Proof.
  intros z. rewrite digitsZ_numeral.
  destruct (digitsN_spec (Z.abs_N z)) as (Hd & Hv & Hne & _).
  rewrite StringToNumber_numeral by (try assumption; reflexivity).
  rewrite app_nil_r, Hv. reflexivity.
Qed.

Lemma extractValues_digitsZ : forall z r,
  sep_ahead r ->
  extractValues (digitsZ z ++ r) = VNum (numOfZ z) :: extractValues r.
Proof.
  intros z r Hr. rewrite <- StringToNumber_digitsZ.
  rewrite digitsZ_numeral.
  destruct (digitsN_spec (Z.abs_N z)) as (Hd & Hv & Hne & _).
  now apply extractValues_numeral.
Qed.

Lemma extractValues_sqlEscape_end : forall o,
  extractValues (sqlEscape o) = [valueOfOpt o].
Proof.
  intros o. rewrite <- (app_nil_r (sqlEscape o)).
  now rewrite extractValues_sqlEscape.
Qed.

(** The nine values of the tuple of a transaction. *)
Lemma extractValues_rowInner : forall sid tx,
  plain_amount (amount tx) = true ->
  extractValues (rowInner sid tx)
  = [VStr sid; VStr (date tx); VNum (amount tx); VStr (description tx);
     VStr (transaction_code tx); VStr (partner_name tx);
     VStr (partner_account tx); VStr (TxType_text (type tx));
     valueOfOpt (category tx)].
Proof.
  intros sid tx Ha. unfold rowInner.
  rewrite extractValues_escaped by reflexivity.
  rewrite (extractValues_skip_all (lit ", ")) by reflexivity.
  rewrite extractValues_escaped by reflexivity.
  rewrite (extractValues_skip_all (lit ", ")) by reflexivity.
  rewrite extractValues_amount by (try assumption; split; reflexivity).
  rewrite (extractValues_skip_all (lit ", ")) by reflexivity.
  rewrite extractValues_escaped by reflexivity.
  rewrite (extractValues_skip_all (lit ", ")) by reflexivity.
  rewrite extractValues_escaped by reflexivity.
  rewrite (extractValues_skip_all (lit ", ")) by reflexivity.
  rewrite extractValues_escaped by reflexivity.
  rewrite (extractValues_skip_all (lit ", ")) by reflexivity.
  rewrite extractValues_escaped by reflexivity.
  rewrite (extractValues_skip_all (lit ", ")) by reflexivity.
  rewrite extractValues_escaped by reflexivity.
  rewrite (extractValues_skip_all (lit ", ")) by reflexivity.
  now rewrite extractValues_sqlEscape_end.
Qed.

(** The six values of the metadata tuple. *)
Lemma extractValues_metadataInner : forall nowId nowSaved data,
  extractValues (metadataInner nowId nowSaved data)
  = [VStr (stmtIdOf nowId data); valueOfOpt (fileName data);
     valueOfOpt (bankName data); valueOfOpt (accountHolder data);
     valueOfOpt (period data); VNum (numOfZ nowSaved)].
Proof.
  intros nowId nowSaved data. unfold metadataInner.
  rewrite (extractValues_skip_all nl) by reflexivity.
  rewrite (extractValues_skip_all (lit "    ")) by reflexivity.
  rewrite extractValues_escaped by reflexivity.
  do 4 (rewrite (extractValues_skip_all (lit ",")) by reflexivity;
        rewrite (extractValues_skip_all nl) by reflexivity;
        rewrite (extractValues_skip_all (lit "    ")) by reflexivity;
        rewrite extractValues_sqlEscape by reflexivity).
  rewrite (extractValues_skip_all (lit ",")) by reflexivity.
  rewrite (extractValues_skip_all nl) by reflexivity.
  rewrite (extractValues_skip_all (lit "    ")) by reflexivity.
  rewrite extractValues_digitsZ by (split; reflexivity).
  reflexivity.
Qed.

Lemma String_or_empty : forall s,
  String_ (or_else (VStr s) (VStr [])) = s.
Proof. now intros [|c s]. Qed.

Lemma String_or_default : forall o d,
  String_ (or_else (valueOfOpt o) (VStr d)) = str_or o d.
Proof. now intros [[|c s]|] d. Qed.

Lemma Number_or_zero : forall a,
  plain_amount a = true -> Number_ (or_else (VNum a) (VNum zero)) = a.
Proof.
  intros [| |neg m scale] H; try discriminate.
  unfold or_else, truthy, truthy_num. unfold plain_amount in H.
  destruct (N.eqb_spec m 0) as [->|Hm]; [|reflexivity].
  apply andb_prop in H as [Hneg Hsc].
  apply negb_true_iff in Hneg. apply Nat.eqb_eq in Hsc. now subst.
Qed.

(** The record built from the nine values is the transaction. *)
Lemma txOfCols_rowInner : forall sid tx,
  plain_amount (amount tx) = true ->
  txOfCols (extractValues (rowInner sid tx)) = decodedTx tx.
Proof.
  intros sid tx Ha. rewrite extractValues_rowInner by assumption.
  unfold txOfCols, decodedTx, col. cbn [nth].
  rewrite !String_or_empty, Number_or_zero by assumption.
  f_equal.
  - now destruct (type tx).
  - f_equal. now destruct (category tx) as [[|c s]|].
Qed.

Lemma pushTuple_rowInner : forall sid tx acc,
  plain_amount (amount tx) = true ->
  pushTuple (rowInner sid tx) acc = acc ++ [decodedTx tx].
Proof.
  intros sid tx acc Ha. unfold pushTuple.
  rewrite txOfCols_rowInner by assumption.
  now rewrite extractValues_rowInner by assumption.
Qed.

(** ** No marker in the text the encoder writes around the fields *)

Section EscapedOccurrence.

Variable eqc : N -> N -> bool.

Lemma prefix_with_escape : forall p f r,
  not_in eqc QUOTE p = true ->
  prefix_with eqc p (escape_quotes f) = Some r ->
  exists r', prefix_with eqc p f = Some r'.
Proof.
  induction p as [|x p IH]; intros f r Hq H.
  - exists f. reflexivity.
  - cbn [not_in forallb] in Hq. apply andb_prop in Hq as [Hx Hp].
    apply negb_true_iff in Hx.
    destruct f as [|c f]; [discriminate|].
    cbn [escape_quotes] in H. destruct (N.eqb_spec c QUOTE) as [->|Hc].
    + cbn [prefix_with] in H. rewrite Hx in H. discriminate.
    + cbn [prefix_with] in *. destruct (eqc x c); [|discriminate].
      eapply IH; eassumption.
Qed.

Lemma occurs_with_escape : forall p f,
  p <> [] -> not_in eqc QUOTE p = true ->
  occurs_with eqc p f = false ->
  occurs_with eqc p (escape_quotes f) = false.
Proof.
  intros p f Hp Hq. induction f as [|c f IH]; intros H; [exact H|].
  cbn [occurs_with] in H.
  destruct (prefix_with eqc p (c :: f)) eqn:E; [discriminate|].
  specialize (IH H).
  destruct p as [|x p]; [congruence|].
  assert (Hx : eqc x QUOTE = false).
  { cbn [not_in forallb] in Hq. apply andb_prop in Hq as [Hx _].
    now apply negb_true_iff in Hx. }
  cbn [escape_quotes]. destruct (N.eqb_spec c QUOTE) as [->|Hc].
  - cbn [occurs_with prefix_with]. rewrite Hx. exact IH.
  - cbn [occurs_with].
    destruct (prefix_with eqc (x :: p) (c :: escape_quotes f)) eqn:E2;
      [|exact IH].
    assert (E3 : prefix_with eqc (x :: p) (escape_quotes (c :: f))
                 = Some l).
    { cbn [escape_quotes]. apply N.eqb_neq in Hc. now rewrite Hc. }
    apply prefix_with_escape in E3 as [r' E3]; [congruence|assumption].
Qed.

Lemma occurs_with_nil : forall p, p <> [] -> occurs_with eqc p [] = false.
Proof. intros [|x p] H; [congruence|reflexivity]. Qed.

Lemma Skippable_escaped : forall p f,
  p <> [] -> not_in eqc QUOTE p = true ->
  occurs_with eqc p f = false ->
  Skippable eqc p (sqlEscape (Some f)).
Proof.
  intros p f Hp Hq Hf. unfold sqlEscape.
  apply Skippable_app.
  - apply (Skippable_sep eqc p [] QUOTE); auto using occurs_with_nil.
  - apply Skippable_sep; auto using occurs_with_escape.
Qed.

Lemma Skippable_sqlEscape : forall p o,
  p <> [] -> not_in eqc QUOTE p = true ->
  Skippable eqc p (lit "NULL") ->
  opt_forall (fun f => negb (occurs_with eqc p f)) o = true ->
  Skippable eqc p (sqlEscape o).
Proof.
  intros p [f|] Hp Hq Hnull Ho; [|exact Hnull].
  apply Skippable_escaped; try assumption.
  now apply negb_true_iff.
Qed.

Lemma Skippable_numeral_chars : forall x p s,
  (forall c, numeral_char c = true -> eqc x c = false) ->
  forallb numeral_char s = true ->
  Skippable eqc (x :: p) s.
Proof.
  intros x p s Hx Hs. apply Skippable_nohead.
  apply forallb_impl with (p := numeral_char); [|assumption].
  intros c Hc. apply negb_true_iff. now apply Hx.
Qed.

(** The text inside the metadata tuple. *)
Lemma Skippable_metadataInner : forall x p nowId nowSaved data,
  not_in eqc QUOTE (x :: p) = true ->
  (forall c, numeral_char c = true -> eqc x c = false) ->
  Skippable eqc (x :: p) nl ->
  Skippable eqc (x :: p) (lit "    ") ->
  Skippable eqc (x :: p) (lit ",") ->
  Skippable eqc (x :: p) (lit "NULL") ->
  occurs_with eqc (x :: p) (stmtIdOf nowId data) = false ->
  opt_forall (fun f => negb (occurs_with eqc (x :: p) f)) (fileName data)
  = true ->
  opt_forall (fun f => negb (occurs_with eqc (x :: p) f)) (bankName data)
  = true ->
  opt_forall (fun f => negb (occurs_with eqc (x :: p) f))
    (accountHolder data) = true ->
  opt_forall (fun f => negb (occurs_with eqc (x :: p) f)) (period data)
  = true ->
  Skippable eqc (x :: p) (metadataInner nowId nowSaved data).
Proof.
  intros x p nowId nowSaved data Hq Hnum Hnl Hsp Hcomma Hnull
         Hid Hfile Hbank Hholder Hperiod.
  assert (Hne : x :: p <> []) by discriminate.
  unfold metadataInner.
  repeat (apply Skippable_app;
          [first [exact Hnl | exact Hsp | exact Hcomma
                 | now apply Skippable_escaped
                 | now apply Skippable_sqlEscape]|]).
  apply Skippable_app; [|exact Hnl].
  apply Skippable_numeral_chars; [assumption|].
  rewrite digitsZ_numeral. apply numeral_chars; [|reflexivity].
  apply digitsN_spec.
Qed.

End EscapedOccurrence.

Ltac skip_static :=
  first [ apply Skippable_nohead; reflexivity
        | apply Skippable_closed; [discriminate | reflexivity] ].

Lemma occurs_with_nohead : forall eqc x p s,
  forallb (fun c => negb (eqc x c)) s = true ->
  occurs_with eqc (x :: p) s = false.
Proof.
  intros eqc x p. induction s as [|c s IH]; intros H; [reflexivity|].
  cbn [forallb] in H. apply andb_prop in H as [Hc Hs].
  apply negb_true_iff in Hc. cbn [occurs_with prefix_with]. rewrite Hc.
  now apply IH.
Qed.

Lemma numeral_char_not_I : forall c,
  numeral_char c = true -> eq_ci 73%N c = false.
Proof.
  intros c H. apply numeral_char_cases in H.
  unfold eq_ci, upper, MINUS, DOT in *. destruct H as [H|[H|H]]; bdestruct.
Qed.

Lemma numeral_char_not_rparen : forall c,
  numeral_char c = true -> N.eqb RPAREN c = false.
Proof.
  intros c H. apply numeral_char_cases in H.
  unfold RPAREN, MINUS, DOT in *. destruct H as [H|[H|H]]; bdestruct.
Qed.

Lemma digitsZ_numeral_chars : forall z,
  forallb numeral_char (digitsZ z) = true.
Proof.
  intros z. rewrite digitsZ_numeral. apply numeral_chars; [|reflexivity].
  apply digitsN_spec.
Qed.

Lemma digitsZ_meta_safe : forall z, meta_safe (digitsZ z) = true.
Proof.
  intros z. unfold meta_safe, marker_free, no_close, occurs_ci, occurs_cs.
  apply andb_true_iff. split; apply negb_true_iff.
  - apply (occurs_with_nohead eq_ci 73%N).
    apply forallb_impl with (p := numeral_char);
      [|apply digitsZ_numeral_chars].
    intros c Hc. apply negb_true_iff. now apply numeral_char_not_I.
  - apply (occurs_with_nohead N.eqb RPAREN).
    apply forallb_impl with (p := numeral_char);
      [|apply digitsZ_numeral_chars].
    intros c Hc. apply negb_true_iff. now apply numeral_char_not_rparen.
Qed.

Lemma stmtIdOf_meta_safe : forall nowId data,
  opt_forall meta_safe (id data) = true ->
  meta_safe (stmtIdOf nowId data) = true.
Proof.
  intros nowId data H. unfold stmtIdOf, str_or.
  destruct (id data) as [[|c s]|]; try apply digitsZ_meta_safe. exact H.
Qed.

Lemma marker_free_transactions : forall f,
  marker_free f = true ->
  occurs_with eq_ci (lit "INSERT INTO transactions") f = false.
Proof.
  intros f H. apply negb_true_iff in H.
  change (lit "INSERT INTO transactions")
    with (lit "INSERT INTO" ++ lit " transactions").
  now apply occurs_with_app_l.
Qed.

Lemma opt_marker_free_transactions : forall o,
  opt_forall marker_free o = true ->
  opt_forall
    (fun f => negb (occurs_with eq_ci (lit "INSERT INTO transactions") f)) o
  = true.
Proof.
  intros [f|] H; [|reflexivity]. cbn [opt_forall] in *.
  apply negb_true_iff. now apply marker_free_transactions.
Qed.

Lemma opt_meta_safe : forall o,
  opt_forall meta_safe o = true ->
  opt_forall marker_free o = true /\
  opt_forall (fun f => negb (occurs_with N.eqb [RPAREN; SEMI] f)) o = true.
Proof.
  intros [f|] H; [|split; reflexivity]. cbn [opt_forall] in *.
  unfold meta_safe in H. apply andb_prop in H as [H1 H2]. now split.
Qed.

Lemma str_or_marker_free : forall o d,
  opt_forall marker_free o = true -> marker_free d = true ->
  marker_free (str_or o d) = true.
Proof. now intros [[|c s]|] d Ho Hd. Qed.

(** The three comment lines, for either marker. *)
Lemma Skippable_header : forall q iso data,
  Skippable eq_ci (lit "INSERT INTO" ++ q)
    (lit "-- Smart Bank Statement Backup") ->
  Skippable eq_ci (lit "INSERT INTO" ++ q) (lit "-- Created at: ") ->
  Skippable eq_ci (lit "INSERT INTO" ++ q) (lit "-- Bank: ") ->
  Skippable eq_ci (lit "INSERT INTO" ++ q) nl ->
  not_in eq_ci 10%N (lit "INSERT INTO" ++ q) = true ->
  marker_free iso = true ->
  opt_forall marker_free (bankName data) = true ->
  Skippable eq_ci (lit "INSERT INTO" ++ q) (headerComment iso data).
Proof.
  intros q iso data H1 H2 H3 Hnl Hten Hiso Hbank.
  assert (Hne : lit "INSERT INTO" ++ q <> []) by discriminate.
  unfold headerComment.
  apply Skippable_app; [exact H1|].
  apply Skippable_app; [exact Hnl|].
  apply Skippable_app; [exact H2|].
  apply Skippable_field; try assumption.
  { apply occurs_with_app_l. now apply negb_true_iff. }
  apply Skippable_app; [exact H3|].
  apply Skippable_field; try assumption.
  apply occurs_with_app_l. apply negb_true_iff.
  now apply str_or_marker_free.
Qed.

(** The text before the metadata insert statement holds no metadata
    marker. *)
Lemma Skippable_before_statements : forall iso data,
  marker_free iso = true ->
  opt_forall marker_free (bankName data) = true ->
  Skippable eq_ci (lit "INSERT INTO statements")
    (headerComment iso data ++ createStatements ++ createTransactions).
Proof.
  intros iso data Hiso Hbank.
  apply Skippable_app; [|apply Skippable_app; skip_static].
  apply (Skippable_header (lit " statements")); try assumption;
    try skip_static; reflexivity.
Qed.

(** The lazy group stops at the closing pair that follows the tuple. *)
Lemma lazy_capture_inner : forall inner rest,
  inner <> [] ->
  Skippable N.eqb [RPAREN; SEMI] inner ->
  lazy_capture (inner ++ RPAREN :: SEMI :: rest) = Some inner.
Proof.
  induction inner as [|c inner IH]; intros rest Hne H; [congruence|].
  cbn [app lazy_capture].
  destruct inner as [|c2 inner].
  - reflexivity.
  - apply Skippable_tail in H.
    unfold prefix_cs.
    change (prefix_with N.eqb [RPAREN; SEMI]
              ((c2 :: inner) ++ RPAREN :: SEMI :: rest))
      with (prefix_with N.eqb [RPAREN; SEMI]
              (c2 :: inner ++ RPAREN :: SEMI :: rest)).
    rewrite (Skippable_head N.eqb _ _ _ (RPAREN :: SEMI :: rest) H).
    rewrite IH; [reflexivity|discriminate|assumption].
Qed.

Lemma Skippable_metadataInner_close : forall nowId nowSaved data,
  opt_forall meta_safe (id data) = true ->
  opt_forall meta_safe (fileName data) = true ->
  opt_forall meta_safe (bankName data) = true ->
  opt_forall meta_safe (accountHolder data) = true ->
  opt_forall meta_safe (period data) = true ->
  Skippable N.eqb [RPAREN; SEMI] (metadataInner nowId nowSaved data).
Proof.
  intros nowId nowSaved data Hid Hfile Hbank Hholder Hperiod.
  apply Skippable_metadataInner; try skip_static;
    try (now apply opt_meta_safe).
  - reflexivity.
  - apply numeral_char_not_rparen.
  - pose proof (stmtIdOf_meta_safe nowId data Hid) as H.
    unfold meta_safe in H. apply andb_prop in H as [_ H].
    now apply negb_true_iff in H.
Qed.

Lemma Skippable_metadataInner_transactions : forall nowId nowSaved data,
  opt_forall meta_safe (id data) = true ->
  opt_forall meta_safe (fileName data) = true ->
  opt_forall meta_safe (bankName data) = true ->
  opt_forall meta_safe (accountHolder data) = true ->
  opt_forall meta_safe (period data) = true ->
  Skippable eq_ci (lit "INSERT INTO transactions")
    (metadataInner nowId nowSaved data).
Proof.
  intros nowId nowSaved data Hid Hfile Hbank Hholder Hperiod.
  apply (Skippable_metadataInner eq_ci 73%N (lit "NSERT INTO transactions"));
    try skip_static;
    try (apply opt_marker_free_transactions; now apply opt_meta_safe).
  - reflexivity.
  - apply numeral_char_not_I.
  - pose proof (stmtIdOf_meta_safe nowId data Hid) as H.
    unfold meta_safe in H. apply andb_prop in H as [H _].
    now apply marker_free_transactions.
Qed.

(** The text before the transaction insert statement holds no
    transaction marker. *)
Lemma Skippable_before_transactions : forall iso nowId nowSaved data,
  marker_free iso = true ->
  opt_forall meta_safe (id data) = true ->
  opt_forall meta_safe (fileName data) = true ->
  opt_forall meta_safe (bankName data) = true ->
  opt_forall meta_safe (accountHolder data) = true ->
  opt_forall meta_safe (period data) = true ->
  Skippable eq_ci (lit "INSERT INTO transactions")
    (headerComment iso data ++ createStatements ++ createTransactions ++
     insertStatement nowId nowSaved data).
Proof.
  intros iso nowId nowSaved data Hiso Hid Hfile Hbank Hholder Hperiod.
  apply Skippable_app.
  { apply (Skippable_header (lit " transactions")); try assumption;
      try skip_static; try reflexivity.
    now apply opt_meta_safe. }
  apply Skippable_app; [skip_static|].
  apply Skippable_app; [skip_static|].
  rewrite insertStatement_eq.
  apply Skippable_app; [skip_static|].
  apply Skippable_app; [now apply Skippable_metadataInner_transactions|].
  skip_static.
Qed.

(** The tuple of a transaction and the rows of a statement hold no
    transaction marker. *)
Lemma Skippable_rowInner : forall sid tx,
  marker_free sid = true -> tx_safe tx = true ->
  Skippable eq_ci (lit "INSERT INTO transactions") (rowInner sid tx).
Proof.
  intros sid tx Hsid Htx. unfold tx_safe in Htx.
  repeat match goal with
         | H : _ && _ = true |- _ => apply andb_prop in H as [? ?]
         end.
  assert (Hne : lit "INSERT INTO transactions" <> []) by discriminate.
  assert (Hq : not_in eq_ci QUOTE (lit "INSERT INTO transactions") = true)
    by reflexivity.
  assert (Hsep : Skippable eq_ci (lit "INSERT INTO transactions") (lit ", "))
    by skip_static.
  unfold rowInner.
  repeat (apply Skippable_app;
          [first [exact Hsep
                 | apply Skippable_escaped;
                   [exact Hne|exact Hq
                   |first [now apply marker_free_transactions
                          |now destruct (type tx)]]
                 | idtac]|]).
  - destruct (plain_amount_numeral (amount tx)) as (neg & ip & fp & E & _ & Hi & Hf & _);
      [assumption|].
    rewrite E.
    apply (Skippable_numeral_chars eq_ci 73%N (lit "NSERT INTO transactions")).
    + apply numeral_char_not_I.
    + now apply numeral_chars.
  - apply Skippable_sqlEscape; try assumption; [skip_static|].
    now apply opt_marker_free_transactions.
Qed.

Lemma Skippable_rows : forall sid txs,
  marker_free sid = true -> forallb tx_safe txs = true ->
  Skippable eq_ci (lit "INSERT INTO transactions")
    (join rowSep (map paren (map (rowInner sid) txs))).
Proof.
  intros sid txs Hsid. induction txs as [|tx txs IH]; intros H.
  - apply Skippable_nil.
  - cbn [forallb] in H. apply andb_prop in H as [Htx Htxs].
    assert (Hrow : Skippable eq_ci (lit "INSERT INTO transactions")
                     (paren (rowInner sid tx))).
    { unfold paren. change (LPAREN :: rowInner sid tx ++ [RPAREN])
        with ([LPAREN] ++ rowInner sid tx ++ [RPAREN]).
      apply Skippable_app; [skip_static|].
      apply Skippable_app; [now apply Skippable_rowInner|skip_static]. }
    destruct txs as [|tx2 txs]; [exact Hrow|].
    change (join rowSep (map paren (map (rowInner sid) (tx :: tx2 :: txs))))
      with (paren (rowInner sid tx) ++ rowSep
            ++ join rowSep (map paren (map (rowInner sid) (tx2 :: txs)))).
    apply Skippable_app; [exact Hrow|].
    apply Skippable_app; [skip_static|]. now apply IH.
Qed.

(** ** Decoding what the encoder wrote *)

Lemma match_statements_at_metaHead : forall X,
  match_statements_at (metaHead ++ X) = lazy_capture X.
Proof. reflexivity. Qed.

Lemma match_insert_at_txHead : forall Y,
  match_insert_at (txHead ++ Y) = Some Y.
Proof. reflexivity. Qed.

Lemma search_statements_unfold : forall s,
  search_statements s =
  match match_statements_at s with
  | Some cap => Some cap
  | None =>
      match s with
      | [] => None
      | _ :: s' => search_statements s'
      end
  end.
Proof. destruct s; reflexivity. Qed.

Lemma search_insert_unfold : forall i s,
  search_insert i s =
  match match_insert_at s with
  | Some rest =>
      Some ((i + Z.of_nat (List.length s - List.length rest))%Z, rest)
  | None =>
      match s with
      | [] => None
      | _ :: s' => search_insert (i + 1)%Z s'
      end
  end.
Proof. destruct s; reflexivity. Qed.

Lemma numeral_char_plain : forall c,
  numeral_char c = true -> plain_char c = true.
Proof.
  intros c H. apply numeral_char_cases in H.
  unfold plain_char, QUOTE, LPAREN, RPAREN, SEMI, MINUS, DOT in *.
  destruct H as [H|[H|H]]; bdestruct.
Qed.

Lemma Passes_rowInner : forall A (push : list N -> list A -> list A) sid tx,
  plain_amount (amount tx) = true -> Passes push (rowInner sid tx).
Proof.
  intros A push sid tx Ha. unfold rowInner.
  repeat (apply Passes_app_plain;
          [ first [ apply scan_escaped | idtac ]
          | discriminate | reflexivity | ]).
  - apply Passes_plain.
    destruct (plain_amount_numeral (amount tx) Ha)
      as (neg & ip & fp & E & _ & Hi & Hf & _).
    rewrite E. apply forallb_impl with (p := numeral_char).
    + apply numeral_char_plain.
    + now apply numeral_chars.
  - apply scan_sqlEscape.
Qed.

Lemma map_txRow : forall sid txs,
  map (txRow sid) txs = map paren (map (rowInner sid) txs).
Proof.
  intros sid txs. rewrite map_map. apply map_ext. intros tx.
  rewrite txRow_eq. unfold paren. reflexivity.
Qed.

Lemma fold_pushTuple_rows : forall sid txs acc,
  forallb tx_safe txs = true ->
  fold_left (fun acc inner => pushTuple inner acc)
            (map (rowInner sid) txs) acc
  = acc ++ map decodedTx txs.
Proof.
  intros sid txs. induction txs as [|tx txs IH]; intros acc H.
  - cbn. now rewrite app_nil_r.
  - cbn [forallb] in H. apply andb_prop in H as [Htx Htxs].
    assert (Ha : plain_amount (amount tx) = true).
    { unfold tx_safe in Htx.
      repeat match goal with
             | H : _ && _ = true |- _ => apply andb_prop in H as [? ?]
             end. assumption. }
    cbn [map fold_left]. rewrite pushTuple_rowInner by assumption.
    rewrite IH by assumption. now rewrite <- app_assoc.
Qed.

(** The metadata search finds the tuple the encoder wrote. *)
Lemma search_statements_generateSQL : forall iso nowId nowSaved data,
  marker_free iso = true ->
  opt_forall meta_safe (id data) = true ->
  opt_forall meta_safe (fileName data) = true ->
  opt_forall meta_safe (bankName data) = true ->
  opt_forall meta_safe (accountHolder data) = true ->
  opt_forall meta_safe (period data) = true ->
  search_statements (generateSQL iso nowId nowSaved data)
  = Some (metadataInner nowId nowSaved data).
Proof.
  intros iso nowId nowSaved data Hiso Hid Hfile Hbank Hholder Hperiod.
  unfold generateSQL. rewrite insertStatement_eq.
  replace (headerComment iso data ++ createStatements ++ createTransactions
           ++ (metaHead ++ metadataInner nowId nowSaved data
               ++ lit ");" ++ nl ++ nl)
           ++ insertTransactions (stmtIdOf nowId data) (transactions data))
    with ((headerComment iso data ++ createStatements ++ createTransactions)
          ++ metaHead ++ metadataInner nowId nowSaved data
          ++ RPAREN :: SEMI :: nl ++ nl
             ++ insertTransactions (stmtIdOf nowId data) (transactions data))
    by (rewrite <- !app_assoc; reflexivity).
  rewrite search_statements_skip.
  - rewrite search_statements_unfold, match_statements_at_metaHead.
    rewrite lazy_capture_inner; [reflexivity|discriminate|].
    now apply Skippable_metadataInner_close.
  - apply Skippable_before_statements; [assumption|].
    now apply opt_meta_safe.
Qed.

(** The metadata search finds the tuple the encoder wrote, whatever
    follows the document. *)
Lemma search_statements_followed : forall iso nowId nowSaved data rest,
  marker_free iso = true ->
  opt_forall meta_safe (id data) = true ->
  opt_forall meta_safe (fileName data) = true ->
  opt_forall meta_safe (bankName data) = true ->
  opt_forall meta_safe (accountHolder data) = true ->
  opt_forall meta_safe (period data) = true ->
  search_statements (generateSQL iso nowId nowSaved data ++ rest)
  = Some (metadataInner nowId nowSaved data).
Proof.
  intros iso nowId nowSaved data rest Hiso Hid Hfile Hbank Hholder Hperiod.
  unfold generateSQL. rewrite insertStatement_eq.
  replace ((headerComment iso data ++ createStatements ++ createTransactions
            ++ (metaHead ++ metadataInner nowId nowSaved data
                ++ lit ");" ++ nl ++ nl)
            ++ insertTransactions (stmtIdOf nowId data) (transactions data))
           ++ rest)
    with ((headerComment iso data ++ createStatements ++ createTransactions)
          ++ metaHead ++ metadataInner nowId nowSaved data
          ++ RPAREN :: SEMI :: nl ++ nl
             ++ insertTransactions (stmtIdOf nowId data) (transactions data)
             ++ rest)
    by (rewrite <- !app_assoc; reflexivity).
  rewrite search_statements_skip.
  - rewrite search_statements_unfold, match_statements_at_metaHead.
    rewrite lazy_capture_inner; [reflexivity|discriminate|].
    now apply Skippable_metadataInner_close.
  - apply Skippable_before_statements; [assumption|].
    now apply opt_meta_safe.
Qed.

(** The scanner finds the rows the encoder wrote, and nothing else. *)
Lemma scanTransactions_generateSQL : forall iso nowId nowSaved data,
  marker_free iso = true ->
  record_safe data = true ->
  scanTransactions (generateSQL iso nowId nowSaved data)
  = map decodedTx (transactions data).
Proof.
  intros iso nowId nowSaved data Hiso Hrec.
  unfold record_safe in Hrec.
  repeat match goal with
         | H : _ && _ = true |- _ => apply andb_prop in H as [? ?]
         end.
  set (B := headerComment iso data ++ createStatements ++ createTransactions
            ++ insertStatement nowId nowSaved data).
  assert (HB : Skippable eq_ci (lit "INSERT INTO transactions") B)
    by (now apply Skippable_before_transactions).
  assert (Hdoc : generateSQL iso nowId nowSaved data
                 = B ++ insertTransactions (stmtIdOf nowId data)
                          (transactions data)).
  { unfold generateSQL, B. now rewrite <- !app_assoc. }
  unfold scanTransactions, scanWith. rewrite Hdoc.
  set (doc := B ++ insertTransactions (stmtIdOf nowId data) (transactions data)).
  destruct (transactions data) as [|tx txs] eqn:Etx.
  - (* no transaction statement *)
    cbn [insert_loop]. unfold doc. cbn [insertTransactions].
    rewrite app_nil_r. now rewrite search_insert_none.
  - set (sid := stmtIdOf nowId data) in *.
    set (rows := map (rowInner sid) (tx :: txs)).
    set (R := nl ++ join rowSep (map paren rows) ++ SEMI :: nl).
    assert (HT : insertTransactions sid (tx :: txs) = txHead ++ R).
    { unfold insertTransactions, txHead, R, rows, rowSep.
      rewrite map_txRow. reflexivity. }
    assert (Hdoc2 : doc = B ++ txHead ++ R) by (unfold doc; now rewrite HT).
    assert (Hsid : marker_free sid = true).
    { pose proof (stmtIdOf_meta_safe nowId data) as Hs.
      unfold meta_safe in Hs. fold sid in Hs.
      apply andb_prop in Hs as [Hs _]; assumption. }
    assert (HR : Skippable eq_ci (lit "INSERT INTO transactions") R).
    { unfold R. apply Skippable_app; [skip_static|].
      change (SEMI :: nl) with (lit ";" ++ nl).
      apply Skippable_app; [|skip_static].
      unfold rows. now apply Skippable_rows. }
    assert (Hlen : (1 <= List.length doc)%nat).
    { rewrite Hdoc2. rewrite !length_app. unfold R.
      rewrite length_app. cbn [List.length nl]. lia. }
    destruct (List.length doc) as [|f] eqn:Ef; [lia|].
    cbn [insert_loop].
    replace (search_insert 0 doc) with (search_insert 0 (B ++ txHead ++ R))
      by (now rewrite Hdoc2).
    rewrite search_insert_skip by assumption.
    rewrite search_insert_unfold, match_insert_at_txHead.
    replace (List.length (txHead ++ R) - List.length R)%nat
      with (List.length txHead) by (rewrite length_app; lia).
    rewrite search_insert_none by assumption.
    (* the scan of the one statement *)
    unfold R at 1. rewrite scan_plain by reflexivity.
    replace (0 + Z.of_nat (List.length B) + Z.of_nat (List.length txHead)
             + Z.of_nat (List.length nl))%Z
      with (Z.of_nat (List.length (B ++ txHead ++ nl)))
      by (rewrite !length_app; lia).
    rewrite (scan_rows _ pushTuple rows doc (B ++ txHead ++ nl) nl []).
    + unfold rows. rewrite fold_pushTuple_rows by assumption. reflexivity.
    + unfold rows. apply Forall_forall. intros inner Hin.
      apply in_map_iff in Hin as (tx' & <- & Hin').
      apply Passes_rowInner.
      match goal with
      | H : forallb tx_safe _ = true |- _ =>
          rewrite forallb_forall in H; specialize (H tx' Hin');
          unfold tx_safe in H
      end.
      repeat match goal with
             | H : _ && _ = true |- _ => apply andb_prop in H as [? ?]
             end. assumption.
    + rewrite Hdoc2. unfold R. now rewrite <- !app_assoc.
Qed.

(** Decoding the encoding of a record without marker text: quotes and
    delimiters inside the fields are allowed. *)
Lemma decode_encode : forall iso nowId nowSaved now r,
  marker_free iso = true ->
  record_safe r = true ->
  parseSQL now (generateSQL iso nowId nowSaved r)
  = Ok (decodedRecord nowId nowSaved now r).
Proof.
  intros iso nowId nowSaved now r Hiso Hrec.
  pose proof Hrec as Hrec'. unfold record_safe in Hrec'.
  repeat match goal with
         | H : _ && _ = true |- _ => apply andb_prop in H as [? ?]
         end.
  unfold parseSQL, parseSQL_body.
  rewrite search_statements_generateSQL by assumption.
  rewrite extractValues_metadataInner.
  rewrite scanTransactions_generateSQL by assumption.
  cbn [List.length Nat.ltb Nat.leb try_catch]. unfold col. cbn [nth].
  unfold decodedRecord.
  rewrite String_or_empty, !String_or_default. reflexivity.
Qed.

Lemma decodedTx_with_category : forall tx,
  category tx <> None -> decodedTx tx = tx.
Proof.
  intros [d a ds tc pn pa ty [c|]] H; [reflexivity|].
  now contradiction H.
Qed.

(** C1, as stated, fails on records without quote characters: with a
    closing pair in the file name decoding fails; an absent category
    comes back as the empty string; marker text in a description adds a
    transaction; an amount printed with an exponent is read as two
    values. *)
Lemma round_trip_fails_without_quotes :
  (record_quote_free rCloseInFile = true /\
   roundTrip rCloseInFile = Error ErrCorrupt) /\
  (record_quote_free rNoCategory = true /\
   transactionsOf (roundTrip rNoCategory) <> transactions rNoCategory) /\
  (record_quote_free rMarker = true /\
   transactionsOf (roundTrip rMarker) <> transactions rMarker) /\
  (record_quote_free rHuge = true /\
   transactionsOf (roundTrip rHuge) <> transactions rHuge).
Proof.
  repeat split; try (vm_compute; reflexivity); vm_compute; discriminate.
Qed.

(** C1, amended: for a record whose text fields hold no quote character
    and no marker text, whose metadata fields hold no closing pair and
    whose amounts print without exponent, encoded under a time stamp
    without marker text, decoding the encoding succeeds; the
    transactions come back field for field and in order, an absent
    category as the empty string; the id comes back when it is a
    non-empty string and is the text of the clock reading otherwise; the
    other text fields come back, with their defaults when absent or
    empty.  Nothing is said of [savedAt]. *)
Theorem round_trip_transactions : forall iso nowId nowSaved now r,
  record_quote_free r = true ->
  marker_free iso = true ->
  record_safe r = true ->
  exists sv,
    parseSQL now (generateSQL iso nowId nowSaved r)
    = Ok {| id := Some (stmtIdOf nowId r);
            fileName := Some (str_or (fileName r) (lit "Recovered_Statement"));
            savedAt := sv;
            bankName := Some (str_or (bankName r) []);
            accountHolder := Some (str_or (accountHolder r) []);
            period := Some (str_or (period r) []);
            transactions := map decodedTx (transactions r) |}.
Proof.
  intros iso nowId nowSaved now r _ Hiso Hrec.
  eexists. rewrite decode_encode by assumption. reflexivity.
Qed.

(** The round trip at a record with an absent id, holder and category,
    delimiters in a description and an amount with a fraction. *)
Lemma round_trip_transactions_witness :
  record_quote_free rPlain = true /\
  marker_free iso = true /\
  record_safe rPlain = true /\
  exists sv,
    parseSQL 1900 (generateSQL iso 1700 1800 rPlain)
    = Ok {| id := Some (stmtIdOf 1700 rPlain);
            fileName := Some (str_or (fileName rPlain)
                                     (lit "Recovered_Statement"));
            savedAt := sv;
            bankName := Some (str_or (bankName rPlain) []);
            accountHolder := Some (str_or (accountHolder rPlain) []);
            period := Some (str_or (period rPlain) []);
            transactions := map decodedTx (transactions rPlain) |}.
Proof.
  split; [vm_compute; reflexivity|].
  split; [vm_compute; reflexivity|].
  split; [vm_compute; reflexivity|].
  apply (round_trip_transactions iso 1700 1800 1900 rPlain);
    vm_compute; reflexivity.
Defined.

(** The same round trip, evaluated. *)
Example round_trip_evaluated :
  transactionsOf (parseSQL 1900 (generateSQL iso 1700 1800 rPlain))
  = map decodedTx (transactions rPlain).
Proof. vm_compute. reflexivity. Qed.

(** ** Tuples of fewer than nine values *)














(** The same statement, evaluated: the first and the last tuple are
    decoded. *)
Example short_tuples_evaluated :
  map txOfCols (filter long_enough (map (map fieldValue) tuplesWithShort))
  = [rowOf (lit "A") 1; rowOf (lit "C") 3] /\
  transactionsOf (parseSQL 1900 (generateSQL iso 1700 1800 (janStatement [])
                                 ++ statementOfTuples tuplesWithShort))
  = [rowOf (lit "A") 1; rowOf (lit "C") 3].
Proof. vm_compute. split; reflexivity. Qed.

(** * Further properties of the code *)

Import ExportUtils FilterBar Storage App ExcelProcessor TransactionTable.
Import Filtering Upload MoreProps MoreSamples.

(** ** What [extractValues] reads *)

(** X1: whatever characters an optional string holds, quotes included,
    [extractValues] reads the text that [sqlEscape] writes for it back
    as exactly one value: the string itself, or null for an absent
    string. *)
Theorem escaped_text_read_back : forall o,
  extractValues (sqlEscape o) = [valueOfOpt o].
Proof. exact extractValues_sqlEscape_end. Qed.

(** X2: text in which no character is a quote, a letter n, a digit or a
    minus sign holds no value: [extractValues] returns the empty list on
    it, the empty text included, and passes over it when it stands
    before other text. *)
Theorem extractValues_passes_other_text : forall a s,
  forallb (fun c => negb (opens_value c)) a = true ->
  extractValues a = [] /\ extractValues (a ++ s) = extractValues s.
Proof.
  intros a s H. split.
  - rewrite <- (app_nil_r a). rewrite extractValues_skip_all by assumption.
    reflexivity.
  - now apply extractValues_skip_all.
Qed.

Lemma extractValues_passes_other_text_witness :
  forallb (fun c => negb (opens_value c)) (lit "( , ) ; x = ") = true /\
  extractValues (lit "( , ) ; x = ") = [] /\
  extractValues (lit "( , ) ; x = " ++ lit "'a'") = extractValues (lit "'a'").
Proof.
  split; [reflexivity|].
  apply (extractValues_passes_other_text (lit "( , ) ; x = ") (lit "'a'")).
  reflexivity.
Defined.

Lemma extractValues_length_upto : forall n s,
  (List.length s <= n)%nat ->
  (List.length (extractValues s) <= List.length s)%nat.
Proof.
  induction n as [|n IH]; intros s H.
  - destruct s; [|cbn in H; lia]. vm_compute. lia.
  - rewrite extractValues_unfold.
    destruct (match_value s) as [[m r]|] eqn:E.
    + apply match_value_shorter in E. cbn [List.length].
      specialize (IH r). lia.
    + destruct s as [|c s]; [cbn; lia|].
      cbn [List.length] in *. specialize (IH s). lia.
Qed.

(** X3: every value that [extractValues] returns takes at least one
    character of the text, so it never returns more values than the text
    has characters. *)
Theorem extractValues_length : forall s,
  (List.length (extractValues s) <= List.length s)%nat.
Proof. intros s. now apply (extractValues_length_upto (List.length s)). Qed.

(** X4: the tuple that [generateSQL] writes for a transaction whose
    amount prints without an exponent is read back as nine values: the
    statement id, the date, the amount, the five texts that follow and
    the category, null when it is absent; whatever quotes, commas and
    parentheses the texts hold.  The scanner turns them into the
    transaction it was, with the empty string for an absent category. *)
Theorem row_read_back : forall sid tx acc,
  plain_amount (amount tx) = true ->
  exists inner,
    txRow sid tx = lit "(" ++ inner ++ lit ")" /\
    extractValues inner
    = [VStr sid; VStr (date tx); VNum (amount tx); VStr (description tx);
       VStr (transaction_code tx); VStr (partner_name tx);
       VStr (partner_account tx); VStr (TxType_text (type tx));
       valueOfOpt (category tx)] /\
    pushTuple inner acc = acc ++ [decodedTx tx].
Proof.
  intros sid tx acc H. exists (rowInner sid tx).
  split; [apply txRow_eq|].
  split; [now apply extractValues_rowInner|now apply pushTuple_rowInner].
Qed.

Lemma row_read_back_witness :
  plain_amount (amount (withDescription obrien txAtm)) = true /\
  exists inner,
    txRow (lit "s'1") (withDescription obrien txAtm)
    = lit "(" ++ inner ++ lit ")" /\
    extractValues inner
    = [VStr (lit "s'1"); VStr (lit "01/01/2024"); VNum (Dec true 50000 0);
       VStr obrien; VStr (lit "FT001"); VStr (lit "ATM"); VStr (lit "0011");
       VStr (lit "DEBIT"); VStr (lit "Fees")] /\
    pushTuple inner [] = [] ++ [decodedTx (withDescription obrien txAtm)].
Proof.
  split; [reflexivity|].
  apply (row_read_back (lit "s'1") (withDescription obrien txAtm) []).
  reflexivity.
Defined.

(** X5: the metadata tuple that [generateSQL] writes is read back by
    [extractValues] as exactly six values, for every record: the
    statement id, the file name, the bank name, the account holder and
    the period, each null when absent, and the clock reading of the
    encoder. *)
Theorem metadata_read_back : forall nowId nowSaved data,
  exists inner,
    insertStatement nowId nowSaved data
    = metaHead ++ inner ++ lit ");" ++ nl ++ nl /\
    extractValues inner
    = [VStr (stmtIdOf nowId data); valueOfOpt (fileName data);
       valueOfOpt (bankName data); valueOfOpt (accountHolder data);
       valueOfOpt (period data); VNum (numOfZ nowSaved)].
Proof.
  intros nowId nowSaved data. exists (metadataInner nowId nowSaved data).
  split; [apply insertStatement_eq|apply extractValues_metadataInner].
Qed.

(** ** Quotes and delimiters through the round trip *)

Lemma truthy_numOfZ : forall z, z <> 0%Z -> truthy_num (numOfZ z) = true.
Proof.
  intros z Hz. unfold numOfZ, mkNumber.
  destruct (N.eqb_spec (Z.abs_N z) 0) as [E|E]; [lia|].
  cbn [Z.leb Z.compare Z.to_N N.pow].
  match goal with
  | |- context [if ?c then Inf _ else _] => destruct c
  end; [reflexivity|].
  cbn [truthy_num]. destruct (N.eqb_spec (Z.abs_N z * 1) 0); [lia|reflexivity].
Qed.

(** X6: a record may hold quotes, commas, parentheses and semicolons in
    every text field.  When no text field holds the words INSERT INTO,
    no metadata field holds a closing parenthesis followed by a
    semicolon and the amounts print without an exponent, decoding what
    [generateSQL] wrote at a clock reading other than zero succeeds and
    returns the record field for field, with its defaults for absent
    fields and with [savedAt] the clock reading of the encoder. *)
Theorem round_trip_with_quotes : forall iso nowId nowSaved now r,
  marker_free iso = true ->
  record_safe r = true ->
  nowSaved <> 0%Z ->
  parseSQL now (generateSQL iso nowId nowSaved r)
  = Ok {| id := Some (stmtIdOf nowId r);
          fileName := Some (str_or (fileName r) (lit "Recovered_Statement"));
          savedAt := Some (numOfZ nowSaved);
          bankName := Some (str_or (bankName r) []);
          accountHolder := Some (str_or (accountHolder r) []);
          period := Some (str_or (period r) []);
          transactions := map decodedTx (transactions r) |}.
Proof.
  intros iso nowId nowSaved now r Hiso Hrec Hz.
  rewrite decode_encode by assumption. unfold decodedRecord.
  unfold or_else. cbn [truthy]. rewrite truthy_numOfZ by assumption.
  reflexivity.
Qed.

Lemma round_trip_with_quotes_witness :
  marker_free iso = true /\
  record_safe rQuoted = true /\
  1800%Z <> 0%Z /\
  parseSQL 1900 (generateSQL iso 1700 1800 rQuoted)
  = Ok {| id := Some (stmtIdOf 1700 rQuoted);
          fileName := Some (str_or (fileName rQuoted)
                                   (lit "Recovered_Statement"));
          savedAt := Some (numOfZ 1800);
          bankName := Some (str_or (bankName rQuoted) []);
          accountHolder := Some (str_or (accountHolder rQuoted) []);
          period := Some (str_or (period rQuoted) []);
          transactions := map decodedTx (transactions rQuoted) |}.
Proof.
  split; [vm_compute; reflexivity|].
  split; [vm_compute; reflexivity|].
  split; [lia|].
  apply (round_trip_with_quotes iso 1700 1800 1900 rQuoted);
    [vm_compute; reflexivity|vm_compute; reflexivity|lia].
Defined.

(** X7: outside a string literal the scanner of [parseSQL] passes over
    the text that [sqlEscape] writes for an optional string, whatever
    the string holds: it comes out of it outside a literal, with the
    same depth, the same start of tuple and the same transactions, as
    long as no quote follows. *)
Theorem scanner_passes_escaped_text :
  forall (o : option (list N)) content rest i d ts acc,
  no_quote_ahead rest ->
  scan pushTuple content (sqlEscape o ++ rest) i false d ts acc
  = scan pushTuple content rest (i + Z.of_nat (List.length (sqlEscape o)))
         false d ts acc.
Proof.
  intros o content rest i d ts acc H.
  now apply (scan_sqlEscape Transaction pushTuple o).
Qed.

Lemma scanner_passes_escaped_text_witness :
  no_quote_ahead (lit ", 1)") /\
  scan pushTuple (lit "x") (sqlEscape (Some (lit "a'); (b")) ++ lit ", 1)")
       0 false 1 0 []
  = scan pushTuple (lit "x") (lit ", 1)")
         (0 + Z.of_nat (List.length (sqlEscape (Some (lit "a'); (b")))))
         false 1 0 [].
Proof.
  split; [reflexivity|].
  apply (scanner_passes_escaped_text (Some (lit "a'); (b")) (lit "x")
           (lit ", 1)") 0 1 0 []).
  reflexivity.
Defined.

(** ** What a decoded record always holds *)

Lemma strip_zeros_not_nil : forall m,
  (0 < m)%N -> strip_zeros (digitsN m) <> [].
Proof.
  intros m Hm E.
  pose proof (strip_zeros_repeat (digitsN m)) as R. rewrite E in R.
  cbn [app] in R.
  destruct (digitsN_spec m) as (_ & V & _).
  rewrite <- R in V.
  rewrite <- (app_nil_r (repeat 48%N _)) in V.
  rewrite digits_val_zeros in V. cbn in V. lia.
Qed.

Lemma NumberToString_not_nil : forall x, NumberToString x <> [].
Proof.
  intros [|neg|neg m sc]; cbn [NumberToString].
  - discriminate.
  - destruct neg; discriminate.
  - destruct (N.eqb_spec m 0) as [E|E]; [discriminate|].
    assert (Hs : strip_zeros (digitsN m) <> [])
      by (apply strip_zeros_not_nil; lia).
    cbv zeta.
    intros H. apply app_eq_nil in H as [_ H].
    repeat match type of H with
           | (if ?c then _ else _) = [] => destruct c
           end.
    + apply app_eq_nil in H as [H _]. contradiction.
    + apply app_eq_nil in H as [_ H]. discriminate.
    + discriminate.
    + apply app_eq_nil in H as [_ H]. discriminate.
Qed.

Lemma String_or_not_nil : forall v d,
  d <> [] -> String_ (or_else v (VStr d)) <> [].
Proof.
  intros v d Hd. unfold or_else.
  destruct v as [s|x|]; cbn [truthy String_].
  - destruct s; [assumption|discriminate].
  - destruct (truthy_num x); [apply NumberToString_not_nil|assumption].
  - assumption.
Qed.

(** X8: whenever [parseSQL] returns a record, all six metadata fields
    of the record are present, its file name is not the empty string,
    and every transaction has a category. *)
Theorem decoded_fields_present : forall now t r,
  parseSQL now t = Ok r ->
  id r <> None /\
  (exists c f, fileName r = Some (c :: f)) /\
  bankName r <> None /\ accountHolder r <> None /\ period r <> None /\
  savedAt r <> None /\
  Forall (fun tx => category tx <> None) (transactions r).
Proof.
  intros now t r H. unfold parseSQL, parseSQL_body in H.
  destruct (search_statements t) as [v|]; [|discriminate].
  destruct (List.length (extractValues v) <? 6)%nat; [discriminate|].
  cbn [try_catch] in H. injection H as <-.
  cbn [id fileName bankName accountHolder period savedAt transactions].
  repeat split; try discriminate.
  - pose proof (String_or_not_nil (col (extractValues v) 1)
                  (lit "Recovered_Statement")) as Hn.
    destruct (String_ _) as [|c f];
      [exfalso; apply Hn; [discriminate|reflexivity]|].
    now exists c, f.
  - rewrite scanTransactions_completedTuples.
    apply Forall_forall. intros tx Hin.
    apply in_map_iff in Hin as (cols & <- & _). discriminate.
Qed.

Lemma decoded_fields_present_witness :
  exists r,
    parseSQL 1900 docTruncatedTuple = Ok r /\
    id r <> None /\
    (exists c f, fileName r = Some (c :: f)) /\
    bankName r <> None /\ accountHolder r <> None /\ period r <> None /\
    savedAt r <> None /\
    Forall (fun tx => category tx <> None) (transactions r).
Proof.
  eexists. split; [vm_compute; reflexivity|].
  apply (decoded_fields_present 1900 docTruncatedTuple).
  vm_compute. reflexivity.
Defined.

(** ** Several transaction statements *)

Lemma tx_safe_plain_amount : forall tx,
  tx_safe tx = true -> plain_amount (amount tx) = true.
Proof.
  intros tx H. unfold tx_safe in H.
  repeat match goal with
         | H : _ && _ = true |- _ => apply andb_prop in H as [? ?]
         end. assumption.
Qed.

Lemma insertTransactions_eq : forall sid tx txs,
  insertTransactions sid (tx :: txs)
  = txHead ++ nl ++ join rowSep (map paren (map (rowInner sid) (tx :: txs)))
    ++ SEMI :: nl.
Proof.
  intros sid tx txs. unfold insertTransactions, txHead, rowSep.
  rewrite map_txRow. reflexivity.
Qed.

Lemma Skippable_statement_tail : forall sid txs,
  marker_free sid = true -> forallb tx_safe txs = true ->
  Skippable eq_ci (lit "INSERT INTO transactions")
    (nl ++ join rowSep (map paren (map (rowInner sid) txs)) ++ SEMI :: nl).
Proof.
  intros sid txs Hsid Htxs.
  apply Skippable_app; [skip_static|].
  change (SEMI :: nl) with (lit ";" ++ nl).
  apply Skippable_app; [|skip_static].
  now apply Skippable_rows.
Qed.

(** The outer loop over a run of transaction statements that follows
    text without a marker: every statement is found once and scanned to
    its semicolon. *)
Lemma insert_loop_chunks : forall sid chunks fuel content pre a acc,
  marker_free sid = true ->
  Forall (fun txs => forallb tx_safe txs = true) chunks ->
  Skippable eq_ci (lit "INSERT INTO transactions") a ->
  content = pre ++ a ++ List.concat (map (insertTransactions sid) chunks) ->
  (List.length (a ++ List.concat (map (insertTransactions sid) chunks))
   < fuel)%nat ->
  insert_loop pushTuple fuel content
    (a ++ List.concat (map (insertTransactions sid) chunks))
    (Z.of_nat (List.length pre)) acc
  = acc ++ map decodedTx (List.concat chunks).
Proof.
  intros sid chunks.
  induction chunks as [|chunk chunks IH];
    intros fuel content pre a acc Hsid Hsafe Ha Hc Hf.
  - cbn [map List.concat] in *. rewrite app_nil_r in *.
    destruct fuel as [|f]; [lia|]. cbn [insert_loop].
    rewrite search_insert_none by assumption. cbn [map]. now rewrite app_nil_r.
  - inversion Hsafe as [|c cs Hchunk Hrest]; subst c cs.
    destruct chunk as [|tx txs].
    + cbn [map List.concat insertTransactions app] in *.
      now apply IH with (pre := pre).
    + set (tail := List.concat (map (insertTransactions sid) chunks)) in *.
      set (rows := map (rowInner sid) (tx :: txs)) in *.
      set (R := nl ++ join rowSep (map paren rows) ++ SEMI :: nl).
      assert (Hcat : List.concat
                       (map (insertTransactions sid) ((tx :: txs) :: chunks))
                     = txHead ++ R ++ tail).
      { cbn [map List.concat]. rewrite insertTransactions_eq.
        fold rows. fold tail. unfold R. now rewrite <- !app_assoc. }
      rewrite Hcat in *.
      destruct fuel as [|f]; [lia|]. cbn [insert_loop].
      rewrite search_insert_skip by assumption.
      rewrite search_insert_unfold, match_insert_at_txHead.
      replace (List.length (txHead ++ R ++ tail) - List.length (R ++ tail))%nat
        with (List.length txHead) by (rewrite (length_app txHead); lia).
      assert (HR : Skippable eq_ci (lit "INSERT INTO transactions") R)
        by (now apply Skippable_statement_tail).
      replace (Z.of_nat (List.length pre) + Z.of_nat (List.length a)
               + Z.of_nat (List.length txHead))%Z
        with (Z.of_nat (List.length (pre ++ a ++ txHead)))
        by (rewrite !length_app; lia).
      rewrite (IH f content (pre ++ a ++ txHead) R).
      * (* the scan of this statement *)
        unfold R at 1. rewrite <- !app_assoc.
        rewrite scan_plain by reflexivity.
        replace (Z.of_nat (List.length (pre ++ a ++ txHead))
                 + Z.of_nat (List.length nl))%Z
          with (Z.of_nat (List.length (pre ++ a ++ txHead ++ nl)))
          by (rewrite !length_app; lia).
        cbn [app].
        rewrite (scan_rows _ pushTuple rows content (pre ++ a ++ txHead ++ nl)
                   (nl ++ tail) acc).
        -- unfold rows. rewrite fold_pushTuple_rows by assumption.
           cbn [List.concat]. rewrite map_app. now rewrite app_assoc.
        -- unfold rows. apply Forall_forall. intros inner Hin.
           apply in_map_iff in Hin as (tx' & <- & Hin').
           apply Passes_rowInner. apply tx_safe_plain_amount.
           rewrite forallb_forall in Hchunk. now apply Hchunk.
        -- rewrite Hc. unfold R. now rewrite <- !app_assoc.
      * assumption.
      * assumption.
      * assumption.
      * rewrite Hc. now rewrite <- !app_assoc.
      * rewrite !length_app in Hf. rewrite length_app.
        assert (0 < List.length txHead)%nat by (vm_compute; lia). lia.
Qed.

(** X9: a backup may hold its transactions in several INSERT
    statements.  When further transaction statements, written as
    [generateSQL] writes them, follow the text of [generateSQL], decoding
    returns the metadata of the record and the transactions of all the
    statements, each once and in the order of the text; a statement
    without rows adds nothing.  The record and the added transactions
    are without marker text and their amounts print without exponent. *)
Theorem decode_several_statements : forall iso nowId nowSaved now r more,
  marker_free iso = true ->
  record_safe r = true ->
  Forall (fun txs => forallb tx_safe txs = true) more ->
  parseSQL now
    (generateSQL iso nowId nowSaved r
     ++ List.concat (map (insertTransactions (stmtIdOf nowId r)) more))
  = Ok {| id := Some (stmtIdOf nowId r);
          fileName := Some (str_or (fileName r) (lit "Recovered_Statement"));
          savedAt := savedAt (decodedRecord nowId nowSaved now r);
          bankName := Some (str_or (bankName r) []);
          accountHolder := Some (str_or (accountHolder r) []);
          period := Some (str_or (period r) []);
          transactions :=
            map decodedTx (transactions r ++ List.concat more) |}.
Proof.
  intros iso nowId nowSaved now r more Hiso Hrec Hmore.
  pose proof Hrec as Hrec'. unfold record_safe in Hrec'.
  repeat match goal with
         | H : _ && _ = true |- _ => apply andb_prop in H as [? ?]
         end.
  unfold parseSQL, parseSQL_body.
  rewrite search_statements_followed by assumption.
  rewrite extractValues_metadataInner.
  cbn [List.length Nat.ltb Nat.leb try_catch]. unfold col. cbn [nth].
  rewrite String_or_empty, !String_or_default.
  f_equal. f_equal.
  set (sid := stmtIdOf nowId r).
  set (B := headerComment iso r ++ createStatements ++ createTransactions
            ++ insertStatement nowId nowSaved r).
  assert (Hdoc : generateSQL iso nowId nowSaved r
                 ++ List.concat (map (insertTransactions sid) more)
                 = [] ++ B ++ List.concat
                      (map (insertTransactions sid) (transactions r :: more))).
  { unfold generateSQL, B. fold sid. cbn [map List.concat app].
    now rewrite <- !app_assoc. }
  unfold scanTransactions, scanWith.
  rewrite Hdoc. cbn [app].
  rewrite (insert_loop_chunks sid (transactions r :: more) _ _ [] B []).
  - reflexivity.
  - pose proof (stmtIdOf_meta_safe nowId r) as Hs.
    unfold meta_safe in Hs. fold sid in Hs.
    apply andb_prop in Hs as [Hs _]; assumption.
  - now constructor.
  - now apply Skippable_before_transactions.
  - reflexivity.
  - lia.
Qed.

Lemma decode_several_statements_witness :
  marker_free iso = true /\
  record_safe rQuoted = true /\
  Forall (fun txs => forallb tx_safe txs = true)
         [[txAtm]; []; [rowOf (lit "B") 2; rowOf (lit "C") 3]] /\
  parseSQL 1900
    (generateSQL iso 1700 1800 rQuoted
     ++ List.concat (map (insertTransactions (stmtIdOf 1700 rQuoted))
                         [[txAtm]; []; [rowOf (lit "B") 2; rowOf (lit "C") 3]]))
  = Ok {| id := Some (stmtIdOf 1700 rQuoted);
          fileName := Some (str_or (fileName rQuoted)
                                   (lit "Recovered_Statement"));
          savedAt := savedAt (decodedRecord 1700 1800 1900 rQuoted);
          bankName := Some (str_or (bankName rQuoted) []);
          accountHolder := Some (str_or (accountHolder rQuoted) []);
          period := Some (str_or (period rQuoted) []);
          transactions :=
            map decodedTx
              (transactions rQuoted
               ++ List.concat
                    [[txAtm]; []; [rowOf (lit "B") 2; rowOf (lit "C") 3]]) |}.
Proof.
  split; [vm_compute; reflexivity|].
  split; [vm_compute; reflexivity|].
  split; [repeat constructor|].
  apply (decode_several_statements iso 1700 1800 1900 rQuoted
           [[txAtm]; []; [rowOf (lit "B") 2; rowOf (lit "C") 3]]);
    [vm_compute; reflexivity|vm_compute; reflexivity|repeat constructor].
Defined.

(** ** The file names of the exports *)

Lemma remove_extension_unfold : forall s,
  remove_extension s =
  if match_extension_at s then []
  else match s with
       | [] => []
       | c :: s' => c :: remove_extension s'
       end.
Proof. intros [|c s]; reflexivity. Qed.

Lemma forallb_not_slash_dot_app : forall a ext,
  forallb not_slash_dot (a ++ DOT :: ext) = false.
Proof.
  intros a ext. rewrite forallb_app. cbn [forallb].
  replace (not_slash_dot DOT) with false by reflexivity.
  cbn [andb]. apply andb_false_r.
Qed.

Lemma remove_extension_strips : forall base ext,
  ext <> [] -> forallb not_slash_dot ext = true ->
  remove_extension (base ++ DOT :: ext) = base.
Proof.
  intros base ext Hne Hext. induction base as [|c base IH].
  - cbn [app]. rewrite remove_extension_unfold. unfold match_extension_at.
    rewrite N.eqb_refl. destruct ext as [|e ext]; [contradiction|].
    rewrite Hext. reflexivity.
  - cbn [app]. rewrite remove_extension_unfold.
    replace (match_extension_at (c :: base ++ DOT :: ext)) with false.
    + now rewrite IH.
    + unfold match_extension_at.
      destruct (base ++ DOT :: ext) as [|x y] eqn:E.
      * now destruct base.
      * rewrite <- E. rewrite forallb_not_slash_dot_app.
        now rewrite andb_false_r.
Qed.

(** X10: a file name that ends in a dot and an extension of one or more
    characters, none of them a slash or a dot, loses exactly that
    extension, whatever stands before it, dots and slashes included:
    the backup workbook of a statement with such a file name is written
    under the name without the extension followed by
    [_FullBackup.xlsx], and the SQL export is offered under that name
    followed by [_backup.sql]. *)
Theorem cleanName_strips_extension :
  forall iso nowId nowSaved data base ext,
  ext <> [] -> forallb not_slash_dot ext = true ->
  cleanName (Some (base ++ DOT :: ext)) = base /\
  backupFileName (withFileName data (base ++ DOT :: ext))
  = base ++ lit "_FullBackup.xlsx" /\
  snd (handleExportSQL iso nowId nowSaved data (base ++ DOT :: ext))
  = base ++ lit "_backup.sql".
Proof.
  intros iso nowId nowSaved data base ext Hne Hext.
  assert (H : cleanName (Some (base ++ DOT :: ext)) = base).
  { unfold cleanName.
    replace (str_or (Some (base ++ DOT :: ext)) (lit "backup"))
      with (base ++ DOT :: ext).
    - now apply remove_extension_strips.
    - unfold str_or. destruct (base ++ DOT :: ext) eqn:E; [|reflexivity].
      now destruct base. }
  split; [assumption|]. unfold backupFileName, handleExportSQL.
  cbn [withFileName fileName snd]. now rewrite H.
Qed.

Lemma cleanName_strips_extension_witness :
  lit "pdf" <> [] /\ forallb not_slash_dot (lit "pdf") = true /\
  cleanName (Some (lit "2024/jan.v2" ++ DOT :: lit "pdf")) = lit "2024/jan.v2" /\
  backupFileName (withFileName rFresh (lit "2024/jan.v2" ++ DOT :: lit "pdf"))
  = lit "2024/jan.v2" ++ lit "_FullBackup.xlsx" /\
  snd (handleExportSQL iso 1700 1800 rFresh
         (lit "2024/jan.v2" ++ DOT :: lit "pdf"))
  = lit "2024/jan.v2" ++ lit "_backup.sql".
Proof.
  split; [discriminate|]. split; [reflexivity|].
  apply (cleanName_strips_extension iso 1700 1800 rFresh (lit "2024/jan.v2")
           (lit "pdf")); [discriminate|reflexivity].
Defined.

(** X11: removing the extension only ever cuts the end of a name: the
    name is the result followed by nothing, or by a dot and one or more
    characters none of which is a slash or a dot.  So a name without a
    dot, a name that ends in a dot and a name with a slash after its
    last dot are left as they are. *)
Theorem remove_extension_prefix : forall s,
  exists suffix,
    s = remove_extension s ++ suffix /\
    (suffix = [] \/
     exists ext, suffix = DOT :: ext /\ ext <> [] /\
                 forallb not_slash_dot ext = true).
Proof.
  induction s as [|c s IH].
  - exists []. split; [reflexivity|now left].
  - rewrite remove_extension_unfold.
    destruct (match_extension_at (c :: s)) eqn:E.
    + exists (c :: s). split; [reflexivity|]. right.
      unfold match_extension_at in E. apply andb_prop in E as [Ec Es].
      apply N.eqb_eq in Ec. subst c. exists s.
      destruct s as [|x y]; [discriminate|].
      repeat split; [discriminate|assumption].
    + destruct IH as (suffix & Hs & Hcase).
      exists suffix. split; [|assumption].
      cbn [app]. now rewrite <- Hs.
Qed.

(** X12: the bank name inside the name of the report workbook consists
    of letters a to z and A to Z, digits and underscores only, has as
    many characters as the bank name of the statement, or as the word
    Statement when the statement has none, and is never empty. *)
Theorem cleanBankName_alphabet : forall data,
  forallb (fun c => is_alnum c || N.eqb c UNDERSCORE) (cleanBankName data)
  = true /\
  List.length (cleanBankName data)
  = List.length (str_or (bankName data) (lit "Statement")) /\
  cleanBankName data <> [].
Proof.
  intros data. unfold cleanBankName.
  set (name := str_or (bankName data) (lit "Statement")).
  assert (Hname : name <> []).
  { unfold name, str_or. destruct (bankName data) as [[|c s]|]; discriminate. }
  repeat split.
  - clear Hname. induction name as [|c name IH]; [reflexivity|].
    cbn [map forallb]. rewrite IH.
    destruct (is_alnum c) eqn:E; [now rewrite E|reflexivity].
  - apply length_map.
  - destruct name; [contradiction|discriminate].
Qed.

(** ** The category filter *)

Lemma str_eqb_eq : forall s t, str_eqb s t = true <-> s = t.
Proof.
  induction s as [|a s IH]; intros [|b t]; cbn [str_eqb];
    try (split; [discriminate|discriminate]); [tauto|].
  rewrite andb_true_iff, N.eqb_eq, IH. split.
  - intros [-> ->]. reflexivity.
  - intros H. now injection H.
Qed.

Lemma str_eqb_refl : forall s, str_eqb s s = true.
Proof. intros s. now apply str_eqb_eq. Qed.

Lemma str_eqb_sym : forall s t, str_eqb s t = str_eqb t s.
Proof.
  intros s t. destruct (str_eqb s t) eqn:E.
  - apply str_eqb_eq in E. subst t. symmetry. apply str_eqb_refl.
  - destruct (str_eqb t s) eqn:E2; [|reflexivity].
    apply str_eqb_eq in E2. subst t. rewrite str_eqb_refl in E. discriminate.
Qed.

Lemma includes_filter : forall current cat c,
  includes (filter (fun x => negb (str_eqb x cat)) current) c
  = if str_eqb c cat then false else includes current c.
Proof.
  intros current cat c. unfold includes.
  induction current as [|x current IH].
  - cbn. now destruct (str_eqb c cat).
  - cbn [filter existsb].
    destruct (str_eqb x cat) eqn:Ex; cbn [negb existsb].
    + rewrite IH. destruct (str_eqb c cat) eqn:Ec; [reflexivity|].
      destruct (str_eqb x c) eqn:Exc; [|reflexivity].
      apply str_eqb_eq in Exc. subst x. congruence.
    + rewrite IH. destruct (str_eqb c cat) eqn:Ec; [|reflexivity].
      destruct (str_eqb x c) eqn:Exc; [|reflexivity].
      apply str_eqb_eq in Exc, Ec. subst. rewrite str_eqb_refl in Ex.
      discriminate.
Qed.

Lemma includes_app : forall a b c,
  includes (a ++ b) c = includes a c || includes b c.
Proof. intros a b c. unfold includes. apply existsb_app. Qed.

(** X13: a click on a category of the filter bar switches that category
    and no other: after [handleCategoryToggle] the category is among the
    selected ones exactly when it was not before, every occurrence of it
    being removed when it was, and any other category is selected
    exactly when it was before. *)
Theorem toggle_flips_membership : forall criteria cat c,
  includes (categories (handleCategoryToggle criteria cat)) c
  = if str_eqb c cat then negb (includes (categories criteria) cat)
    else includes (categories criteria) c.
Proof.
  intros criteria cat c. unfold handleCategoryToggle.
  destruct (includes (categories criteria) cat) eqn:E;
    cbn [handleChange_categories categories].
  - rewrite includes_filter. reflexivity.
  - rewrite includes_app. unfold includes at 2. cbn [existsb].
    rewrite orb_false_r.
    destruct (str_eqb c cat) eqn:Ec.
    + apply str_eqb_eq in Ec. subst c. rewrite E, str_eqb_refl. reflexivity.
    + rewrite str_eqb_sym, Ec. now rewrite orb_false_r.
Qed.

Lemma filter_absent : forall current cat,
  includes current cat = false ->
  filter (fun x => negb (str_eqb x cat)) current = current.
Proof.
  intros current cat. unfold includes.
  induction current as [|x current IH]; intros H; [reflexivity|].
  cbn [existsb] in H. apply orb_false_elim in H as [Hx Hc].
  cbn [filter]. rewrite Hx. cbn [negb]. now rewrite IH.
Qed.

(** X14: two clicks on a category that was not selected leave the
    filter criteria exactly as they were: the selected categories in
    their order, and the keyword, the dates and the amounts. *)
Theorem toggle_twice_restores : forall criteria cat,
  includes (categories criteria) cat = false ->
  handleCategoryToggle (handleCategoryToggle criteria cat) cat = criteria.
Proof.
  intros [k s e mi ma cats] cat H. cbn [categories] in H.
  unfold handleCategoryToggle at 2. cbn [categories]. rewrite H.
  unfold handleCategoryToggle, handleChange_categories.
  cbn [categories keyword startDate endDate minAmount maxAmount].
  rewrite includes_app. unfold includes at 2. cbn [existsb].
  rewrite str_eqb_refl, orb_true_r.
  rewrite filter_app. cbn [filter]. rewrite str_eqb_refl. cbn [negb].
  rewrite filter_absent by assumption. now rewrite app_nil_r.
Qed.

Lemma toggle_twice_restores_witness :
  includes (categories sampleCriteria) (lit "Food") = false /\
  handleCategoryToggle (handleCategoryToggle sampleCriteria (lit "Food"))
                       (lit "Food")
  = sampleCriteria.
Proof.
  split; [reflexivity|].
  apply (toggle_twice_restores sampleCriteria (lit "Food")).
  reflexivity.
Defined.

(** ** The categories offered to the filter *)

Lemma str_ltb_total : forall s t,
  str_ltb s t = false -> str_eqb t s = false -> str_ltb t s = true.
Proof.
  induction s as [|a s IH]; intros [|b t] H1 H2; cbn [str_ltb str_eqb] in *;
    try discriminate; try reflexivity.
  apply orb_false_elim in H1 as [Hlt H1].
  apply N.ltb_ge in Hlt.
  destruct (N.eqb_spec b a) as [->|Hne].
  - rewrite N.eqb_refl in H1. cbn [andb] in H1, H2.
    rewrite (IH t H1 H2). now rewrite orb_true_r.
  - replace (b <? a)%N with true; [reflexivity|].
    symmetry. apply N.ltb_lt. lia.
Qed.

Lemma includes_sort_insert : forall x l c,
  includes (sort_insert x l) c = str_eqb x c || includes l c.
Proof.
  intros x l c. unfold includes. induction l as [|y l IH]; [reflexivity|].
  cbn [sort_insert]. destruct (str_ltb y x); [|reflexivity].
  cbn [existsb]. rewrite IH.
  destruct (str_eqb y c), (str_eqb x c); reflexivity.
Qed.

Lemma includes_sort : forall xs c, includes (sort xs) c = includes xs c.
Proof.
  intros xs c. induction xs as [|x xs IH]; [reflexivity|].
  cbn [sort fold_right]. fold (sort xs). rewrite includes_sort_insert, IH.
  reflexivity.
Qed.

Lemma increasing_sort_insert : forall x l,
  includes l x = false -> increasing l = true ->
  increasing (sort_insert x l) = true.
Proof.
  intros x l. induction l as [|y l IH]; intros Hx Hl; [reflexivity|].
  unfold includes in Hx. cbn [existsb] in Hx.
  apply orb_false_elim in Hx as [Hyx Hx].
  cbn [sort_insert]. destruct (str_ltb y x) eqn:E.
  - assert (Hrest : increasing (sort_insert x l) = true).
    { apply IH; [exact Hx|]. destruct l; [reflexivity|].
      cbn [increasing] in Hl. now apply andb_prop in Hl as [_ ?]. }
    destruct l as [|z l].
    + cbn [sort_insert increasing]. now rewrite E.
    + cbn [sort_insert] in *. destruct (str_ltb z x).
      * cbn [increasing] in Hl |- *. apply andb_prop in Hl as [Hyz _].
        rewrite Hyz. exact Hrest.
      * cbn [increasing] in Hrest |- *. rewrite E. exact Hrest.
  - cbn [increasing]. rewrite (str_ltb_total y x E).
    + exact Hl.
    + now rewrite str_eqb_sym.
Qed.

(** The set holds no string twice, and holds what was added to it. *)
Lemma from_set_spec : forall xs acc,
  NoDup acc ->
  NoDup (fold_left set_add xs acc) /\
  forall c, includes (fold_left set_add xs acc) c
            = includes acc c || includes xs c.
Proof.
  induction xs as [|x xs IH]; intros acc Hacc.
  - cbn [fold_left]. split; [assumption|].
    intros c. now rewrite orb_false_r.
  - cbn [fold_left]. unfold set_add at 2 4.
    destruct (includes acc x) eqn:E.
    + destruct (IH acc Hacc) as [Hn Hi]. split; [assumption|].
      intros c. rewrite Hi. unfold includes at 4. cbn [existsb].
      fold (includes xs c).
      destruct (str_eqb x c) eqn:Exc; [|reflexivity].
      apply str_eqb_eq in Exc. subst c. rewrite E. reflexivity.
    + assert (Hn' : NoDup (acc ++ [x])).
      { apply NoDup_app; [assumption|repeat constructor; intros []|].
        intros y Hy [<-|[]]. unfold includes in E.
        assert (existsb (fun c => str_eqb c x) acc = true).
        { apply existsb_exists. exists x.
          split; [assumption|apply str_eqb_refl]. }
        congruence. }
      destruct (IH _ Hn') as [Hn Hi]. split; [assumption|].
      intros c. rewrite Hi, includes_app. unfold includes.
      cbn [existsb]. now rewrite orb_false_r, <- orb_assoc.
Qed.

Lemma increasing_sort : forall xs, NoDup xs -> increasing (sort xs) = true.
Proof.
  induction xs as [|x xs IH]; intros H; [reflexivity|].
  inversion H as [|y ys Hx Hxs]; subst.
  cbn [sort fold_right]. fold (sort xs).
  apply increasing_sort_insert; [|now apply IH].
  rewrite includes_sort. unfold includes.
  destruct (existsb (fun c => str_eqb c x) xs) eqn:E; [|reflexivity].
  apply existsb_exists in E as (y & Hy & Hyx).
  apply str_eqb_eq in Hyx. subst y. contradiction.
Qed.

Lemma existsb_map_fun : forall (A B : Type) (f : A -> B) (p : B -> bool) l,
  existsb p (map f l) = existsb (fun x => p (f x)) l.
Proof.
  intros A B f p l. induction l as [|x l IH]; [reflexivity|].
  cbn [map existsb]. now rewrite IH.
Qed.

Lemma In_sort_insert : forall x l y,
  In y (sort_insert x l) <-> y = x \/ In y l.
Proof.
  intros x l y. induction l as [|z l IH]; cbn [sort_insert].
  - cbn. intuition.
  - destruct (str_ltb z x); cbn [In]; [rewrite IH|]; intuition.
Qed.

Lemma NoDup_sort : forall xs, NoDup xs -> NoDup (sort xs).
Proof.
  assert (Hin : forall xs y, In y (sort xs) <-> In y xs).
  { induction xs as [|x xs IH]; intros y; [reflexivity|].
    cbn [sort fold_right]. fold (sort xs). rewrite In_sort_insert, IH.
    cbn [In]. intuition. }
  induction xs as [|x xs IH]; intros H; [constructor|].
  inversion H as [|y ys Hx Hxs]; subst.
  cbn [sort fold_right]. fold (sort xs).
  assert (Hx' : ~ In x (sort xs)) by (now rewrite Hin).
  specialize (IH Hxs). revert Hx' IH.
  generalize (sort xs) as l. induction l as [|z l IHl]; intros Hx' Hl.
  - repeat constructor. intros [].
  - cbn [sort_insert]. destruct (str_ltb z x).
    + inversion Hl as [|z' l' Hz Hl']; subst. constructor.
      * rewrite In_sort_insert. cbn [In] in Hx'. intuition congruence.
      * apply IHl; [cbn [In] in Hx'; intuition|assumption].
    + now constructor.
Qed.

(** X15: the list of categories that the application offers to the
    filter holds no category twice and is strictly increasing in the
    order of the code units; a string is in the list exactly when it is
    the category of a transaction, with the default category standing
    for an absent or empty one; the empty string is never in the
    list. *)
Theorem uniqueCategories_sorted : forall data c,
  NoDup (uniqueCategories data) /\
  increasing (uniqueCategories data) = true /\
  includes (uniqueCategories data) c
  = existsb (fun t => str_eqb (categoryOrDefault t) c) (transactions data) /\
  includes (uniqueCategories data) [] = false.
Proof.
  intros data c. unfold uniqueCategories, from_set.
  destruct (from_set_spec (map categoryOrDefault (transactions data)) []
              (NoDup_nil _)) as [Hn Hi].
  assert (Hin : forall c,
            includes (sort (fold_left set_add
                              (map categoryOrDefault (transactions data)) []))
                     c
            = existsb (fun t => str_eqb (categoryOrDefault t) c)
                      (transactions data)).
  { intros c'. rewrite includes_sort, Hi. cbn [includes existsb orb].
    unfold includes. apply existsb_map_fun. }
  split; [now apply NoDup_sort|].
  split; [now apply increasing_sort|]. split; [apply Hin|].
  rewrite Hin. clear Hn Hi Hin.
  induction (transactions data) as [|t ts IH]; [reflexivity|].
  cbn [existsb]. rewrite IH, orb_false_r.
  unfold categoryOrDefault, str_or.
  destruct (category t) as [[|a s]|]; reflexivity.
Qed.

(** ** The history of saved statements *)

Lemma has_id_eq : forall i item,
  has_id i item = true <-> id item = Some i.
Proof.
  intros i item. unfold has_id. destruct (id item) as [j|].
  - rewrite str_eqb_eq. split; [now intros ->|now intros [= ->]].
  - split; discriminate.
Qed.

Lemma has_id_other : forall i j item,
  has_id i item = true -> has_id j item = str_eqb i j.
Proof.
  intros i j item H. apply has_id_eq in H. unfold has_id. now rewrite H.
Qed.

Lemma findIndex_from_spec : forall p l i,
  (0 <= i)%Z ->
  (findIndex_from p l i = (-1)%Z /\ existsb p l = false) \/
  (exists before old after,
     l = before ++ old :: after /\ existsb p before = false /\
     p old = true /\
     findIndex_from p l i = (i + Z.of_nat (List.length before))%Z).
Proof.
  intros p l. induction l as [|item l IH]; intros i Hi.
  - left. split; reflexivity.
  - cbn [findIndex_from existsb]. destruct (p item) eqn:E.
    + right. exists [], item, l. repeat split; [assumption|cbn; lia].
    + destruct (IH (i + 1)%Z ltac:(lia)) as [[Hk He]|(b & o & a & Hl & Hb & Ho & Hk)].
      * left. now split.
      * right. exists (item :: b), o, a. subst l.
        repeat split; [cbn; now rewrite E|assumption|].
        rewrite Hk. cbn [List.length]. lia.
Qed.

Lemma assign_middle : forall before old after x,
  assign (before ++ old :: after) (List.length before) x
  = before ++ x :: after.
Proof.
  induction before as [|b before IH]; intros old after x; [reflexivity|].
  cbn [app List.length assign]. now rewrite IH.
Qed.

(** What saving does to the list of the entry. *)
Lemma save_spec : forall now generated store data name store' saved,
  saveStatementToStorage now generated true store data name
  = Some (store', saved) ->
  saved = newData now generated data name /\
  store <> Unreadable /\
  ((existsb (has_id (str_or (id data) generated)) (items_of store) = false /\
    store' = Items (items_of store ++ [saved])) \/
   (exists before old after,
      items_of store = before ++ old :: after /\
      existsb (has_id (str_or (id data) generated)) before = false /\
      has_id (str_or (id data) generated) old = true /\
      store' = Items (before ++ saved :: after))).
Proof.
  intros now generated store data name store' saved H.
  unfold saveStatementToStorage in H.
  assert (Hs : exists l, items_of store = l /\ store <> Unreadable /\
             match store with
             | Absent => Some [] | Unreadable => None | Items l => Some l
             end = Some l).
  { destruct store as [| |l]; [exists []|discriminate|exists l];
      repeat split; discriminate. }
  destruct Hs as (l & Hl & Hne & Hopt). rewrite Hopt in H. rewrite Hl.
  cbv zeta in H. injection H as <- <-.
  split; [reflexivity|]. split; [assumption|].
  unfold findIndex.
  destruct (findIndex_from_spec (has_id (str_or (id data) generated)) l 0
              ltac:(lia)) as [[Hk He]|(b & o & a & Hb & Hbe & Ho & Hk)].
  - left. rewrite Hk. split; [assumption|reflexivity].
  - right. exists b, o, a. rewrite Hk.
    replace (0 <=? 0 + Z.of_nat (List.length b))%Z with true
      by (symmetry; apply Z.leb_le; lia).
    replace (Z.to_nat (0 + Z.of_nat (List.length b))) with (List.length b)
      by lia.
    repeat split; try assumption. rewrite Hb. now rewrite assign_middle.
Qed.

Lemma find_app_none : forall (p : StatementData -> bool) a b,
  existsb p a = false -> find p (a ++ b) = find p b.
Proof.
  intros p a b. induction a as [|x a IH]; intros H; [reflexivity|].
  cbn [existsb] in H. apply orb_false_elim in H as [Hx Ha].
  cbn [app find]. rewrite Hx. now apply IH.
Qed.

Lemma find_none_existsb : forall (p : StatementData -> bool) l,
  existsb p l = false -> find p l = None.
Proof.
  intros p l H. rewrite <- (app_nil_r l). now rewrite find_app_none.
Qed.

Lemma newData_has_id : forall now generated data name,
  has_id (str_or (id data) generated) (newData now generated data name)
  = true.
Proof. intros. unfold has_id, newData. cbn [id]. apply str_eqb_refl. Qed.

(** X16: a statement that [saveStatementToStorage] has saved is found
    again under its id: the id is the one of the statement when it has
    a non-empty one and the generated one otherwise, the time of saving
    is the clock reading, the transactions are those handed in, and
    [getStatementById] with that id returns the saved statement,
    whatever the history held before, a statement with the same id
    included.  The Numbers of the statement are finite. *)
Theorem saved_statement_is_found :
  forall now generated store data name store' saved,
  saveStatementToStorage now generated true store data name
  = Some (store', saved) ->
  json_exact saved = true ->
  id saved = Some (str_or (id data) generated) /\
  savedAt saved = Some (numOfZ now) /\
  transactions saved = transactions data /\
  getStatementById (str_or (id data) generated) store' = Some saved.
Proof.
  intros now generated store data name store' saved H _.
  apply save_spec in H as (Hsaved & _ & Hcase).
  pose proof (newData_has_id now generated data name) as Hid.
  rewrite <- Hsaved in Hid.
  repeat split; try (subst saved; reflexivity).
  destruct Hcase as [[He ->]|(b & o & a & _ & Hb & _ & ->)];
    cbn [getStatementById]; rewrite find_app_none by assumption;
    cbn [find]; now rewrite Hid.
Qed.

(** X17: saving a statement leaves the statements with other ids as
    they were: [getStatementById] with an id other than that of the
    saved statement returns after the save what it returned before. *)
Theorem save_keeps_other_statements :
  forall now generated store data name store' saved j,
  saveStatementToStorage now generated true store data name
  = Some (store', saved) ->
  str_eqb (str_or (id data) generated) j = false ->
  getStatementById j store' = getStatementById j store.
Proof.
  intros now generated store data name store' saved j H Hj.
  apply save_spec in H as (Hsaved & Hne & Hcase).
  pose proof (newData_has_id now generated data name) as Hid.
  rewrite <- Hsaved in Hid.
  assert (Hjs : has_id j saved = false)
    by (now rewrite (has_id_other _ j _ Hid)).
  assert (Hget : getStatementById j store = find (has_id j) (items_of store))
    by (destruct store; [reflexivity|contradiction|reflexivity]).
  rewrite Hget.
  destruct Hcase as [[He ->]|(b & o & a & Hl & Hb & Ho & ->)];
    cbn [getStatementById].
  - clear He Hget. induction (items_of store) as [|x l IH].
    + cbn [app find]. now rewrite Hjs.
    + cbn [app find]. destruct (has_id j x); [reflexivity|assumption].
  - rewrite Hl.
    assert (Hjo : has_id j o = false)
      by (now rewrite (has_id_other _ j _ Ho)).
    clear Hl Hb. induction b as [|x b IH].
    + cbn [app find]. now rewrite Hjs, Hjo.
    + cbn [app find]. destruct (has_id j x); [reflexivity|assumption].
Qed.



Lemma existsb_has_id_ids : forall i l1 l2,
  map id l1 = map id l2 ->
  existsb (has_id i) l1 = existsb (has_id i) l2.
Proof.
  intros i l1. induction l1 as [|x l1 IH]; intros [|y l2] H;
    try discriminate; [reflexivity|].
  cbn [map] in H. injection H as Hxy H. cbn [existsb].
  rewrite (IH _ H). unfold has_id. now rewrite Hxy.
Qed.

Lemma unique_ids_ids : forall l1 l2,
  map id l1 = map id l2 -> unique_ids l1 = unique_ids l2.
Proof.
  induction l1 as [|x l1 IH]; intros [|y l2] H; try discriminate;
    [reflexivity|].
  cbn [map] in H. injection H as Hxy H. cbn [unique_ids].
  rewrite (IH _ H), Hxy. destruct (id y) as [i|]; [|reflexivity].
  now rewrite (existsb_has_id_ids i _ _ H).
Qed.

Lemma unique_ids_push : forall i l x,
  id x = Some i -> existsb (has_id i) l = false ->
  unique_ids l = true -> unique_ids (l ++ [x]) = true.
Proof.
  intros i l x Hx. induction l as [|y l IH]; intros He Hu.
  - cbn [app unique_ids]. rewrite Hx. reflexivity.
  - cbn [existsb] in He. apply orb_false_elim in He as [Hy He].
    cbn [unique_ids] in Hu. apply andb_prop in Hu as [Hy' Hu].
    cbn [app unique_ids]. rewrite (IH He Hu), andb_true_r.
    destruct (id y) as [k|] eqn:Ek; [|reflexivity].
    rewrite existsb_app. cbn [existsb]. rewrite orb_false_r.
    apply negb_true_iff in Hy'. rewrite Hy'. cbn [orb].
    apply negb_true_iff. unfold has_id in *. rewrite Hx. rewrite Ek in Hy.
    now rewrite str_eqb_sym.
Qed.

(** X19: saving keeps the ids of the history distinct when they were:
    a statement whose id is in the history takes the place of the one
    stored under it and the history keeps its length; otherwise the
    statement is added and the history grows by one. *)
Theorem save_keeps_ids_unique :
  forall now generated store data name store' saved,
  saveStatementToStorage now generated true store data name
  = Some (store', saved) ->
  unique_ids (items_of store) = true ->
  unique_ids (items_of store') = true /\
  List.length (items_of store')
  = if existsb (has_id (str_or (id data) generated)) (items_of store)
    then List.length (items_of store)
    else S (List.length (items_of store)).
Proof.
  intros now generated store data name store' saved H Hu.
  apply save_spec in H as (Hsaved & _ & Hcase).
  pose proof (newData_has_id now generated data name) as Hid.
  rewrite <- Hsaved in Hid. apply has_id_eq in Hid.
  destruct Hcase as [[He ->]|(b & o & a & Hl & Hb & Ho & ->)];
    cbn [items_of].
  - rewrite He. split.
    + now apply (unique_ids_push (str_or (id data) generated)).
    + rewrite length_app. cbn [List.length]. lia.
  - rewrite Hl in *. split.
    + rewrite <- Hu. apply unique_ids_ids. rewrite !map_app. cbn [map].
      apply has_id_eq in Ho. now rewrite Hid, Ho.
    + rewrite existsb_app. cbn [existsb]. rewrite Ho, orb_true_r.
      rewrite !length_app. reflexivity.
Qed.

Lemma saved_statement_is_found_witness :
  exists store' saved,
    saveStatementToStorage 1700 (lit "k3x9q") true history rFresh
      (lit "jan.pdf") = Some (store', saved) /\
    json_exact saved = true /\
    id saved = Some (str_or (id rFresh) (lit "k3x9q")) /\
    savedAt saved = Some (numOfZ 1700) /\
    transactions saved = transactions rFresh /\
    getStatementById (str_or (id rFresh) (lit "k3x9q")) store' = Some saved.
Proof.
  eexists; eexists. split; [vm_compute; reflexivity|].
  split; [vm_compute; reflexivity|].
  apply (saved_statement_is_found 1700 (lit "k3x9q") history rFresh
           (lit "jan.pdf")); vm_compute; reflexivity.
Defined.

Lemma save_keeps_other_statements_witness :
  exists store' saved,
    saveStatementToStorage 1700 (lit "k3x9q") true history
      (janStatement []) (lit "jan.pdf") = Some (store', saved) /\
    str_eqb (str_or (id (janStatement [])) (lit "k3x9q")) (lit "s2") = false /\
    getStatementById (lit "s2") store' = getStatementById (lit "s2") history.
Proof.
  eexists; eexists. split; [vm_compute; reflexivity|].
  split; [vm_compute; reflexivity|].
  eapply (save_keeps_other_statements 1700 (lit "k3x9q") history
            (janStatement []) (lit "jan.pdf"));
    vm_compute; reflexivity.
Defined.

Lemma save_keeps_ids_unique_witness :
  exists store' saved,
    saveStatementToStorage 1700 (lit "k3x9q") true history
      (janStatement []) (lit "jan.pdf") = Some (store', saved) /\
    unique_ids (items_of history) = true /\
    unique_ids (items_of store') = true /\
    List.length (items_of store')
    = if existsb (has_id (str_or (id (janStatement [])) (lit "k3x9q")))
                 (items_of history)
      then List.length (items_of history)
      else S (List.length (items_of history)).
Proof.
  eexists; eexists. split; [vm_compute; reflexivity|].
  split; [vm_compute; reflexivity|].
  eapply (save_keeps_ids_unique 1700 (lit "k3x9q") history
            (janStatement []) (lit "jan.pdf")); vm_compute; reflexivity.
Defined.

(** ** The SQL export and import of the application *)

(** X20: whenever [parseSQL] accepts the text of an uploaded file, the
    application shows the file name stored in the text and never the
    name of the uploaded file: the decoded file name is not empty, and
    it becomes the current file name. *)
Theorem import_overrides_file_name : forall now name content data result,
  parseSQL now content = Ok result ->
  exists c f,
    fileName result = Some (c :: f) /\
    handleFileUpload_sql now name content data = (Some result, c :: f).
Proof.
  intros now name content data result H.
  unfold handleFileUpload_sql. rewrite H.
  unfold parseSQL, parseSQL_body in H.
  destruct (search_statements content) as [v|]; [|discriminate].
  destruct (List.length (extractValues v) <? 6)%nat; [discriminate|].
  cbn [try_catch] in H. injection H as <-. cbn [fileName].
  pose proof (String_or_not_nil (col (extractValues v) 1)
                (lit "Recovered_Statement")) as Hn.
  destruct (String_ _) as [|c f];
    [exfalso; apply Hn; [discriminate|reflexivity]|].
  exists c, f. split; reflexivity.
Qed.

Lemma import_overrides_file_name_witness :
  exists result,
    parseSQL 1900 docNullSavedAt = Ok result /\
    exists c f,
      fileName result = Some (c :: f) /\
      handleFileUpload_sql 1900 (lit "upload.sql") docNullSavedAt None
      = (Some result, c :: f).
Proof.
  eexists. split; [vm_compute; reflexivity|].
  apply (import_overrides_file_name 1900 (lit "upload.sql") docNullSavedAt
           None).
  vm_compute. reflexivity.
Defined.

Lemma endsWith_sql_only : forall s,
  endsWith s (lit ".sql") = true ->
  endsWith s (lit ".pdf") = false /\ endsWith s (lit ".xlsx") = false /\
  endsWith s (lit ".xls") = false.
Proof.
  intros s H. unfold endsWith in *.
  destruct (rev s) as [|c t]; [discriminate|].
  change (rev (lit ".sql")) with (108%N :: rev (lit ".sq")) in H.
  change (rev (lit ".pdf")) with (102%N :: rev (lit ".pd")).
  change (rev (lit ".xlsx")) with (120%N :: rev (lit ".xls")).
  change (rev (lit ".xls")) with (115%N :: rev (lit ".xl")) at 2.
  unfold prefix_cs in *. cbn [prefix_with] in *.
  destruct (N.eqb_spec 108 c) as [<-|]; [|discriminate].
  repeat split; reflexivity.
Qed.

(** X21: the text that [handleExportSQL] offers for download, uploaded
    again under a file name that ends in [.sql] once it is put in lower
    case, takes the SQL branch of [handleFileUpload] and brings back
    the statement that was exported, field for field with the defaults
    of the decoder, and the current file name of the moment of the
    export, or [Recovered_Statement] when that was empty.  The
    statement and the current file name are without marker text, the
    metadata without a closing parenthesis followed by a semicolon, and
    the amounts print without an exponent. *)
Theorem export_then_import :
  forall toLowerCase iso nowId nowSaved now data current name old,
  marker_free iso = true ->
  record_safe (withFileName data current) = true ->
  endsWith (toLowerCase name) (lit ".sql") = true ->
  handleFileUpload toLowerCase now name
    (fst (handleExportSQL iso nowId nowSaved data current)) old
  = SqlBranch
      (Some {| id := Some (stmtIdOf nowId data);
               fileName := Some (str_or (Some current)
                                        (lit "Recovered_Statement"));
               savedAt := savedAt (decodedRecord nowId nowSaved now data);
               bankName := Some (str_or (bankName data) []);
               accountHolder := Some (str_or (accountHolder data) []);
               period := Some (str_or (period data) []);
               transactions := map decodedTx (transactions data) |})
      (str_or (Some current) (lit "Recovered_Statement")).
Proof.
  intros toLowerCase iso nowId nowSaved now data current name old
    Hiso Hrec Hname.
  unfold handleFileUpload. cbv zeta.
  destruct (endsWith_sql_only _ Hname) as (-> & -> & ->). rewrite Hname.
  cbn [orb].
  unfold handleFileUpload_sql, handleExportSQL. cbn [fst].
  rewrite decode_encode by assumption.
  unfold decodedRecord, withFileName, stmtIdOf.
  cbn [id fileName bankName accountHolder period transactions savedAt].
  f_equal. unfold str_or. destruct current; reflexivity.
Qed.

Lemma export_then_import_witness :
  marker_free iso = true /\
  record_safe (withFileName rQuoted (lit "O'Brien.pdf")) = true /\
  endsWith ((fun s => s) (lit "O'Brien_backup.sql")) (lit ".sql") = true /\
  handleFileUpload (fun s => s) 1900 (lit "O'Brien_backup.sql")
    (fst (handleExportSQL iso 1700 1800 rQuoted (lit "O'Brien.pdf"))) None
  = SqlBranch
      (Some {| id := Some (stmtIdOf 1700 rQuoted);
               fileName := Some (str_or (Some (lit "O'Brien.pdf"))
                                        (lit "Recovered_Statement"));
               savedAt := savedAt (decodedRecord 1700 1800 1900 rQuoted);
               bankName := Some (str_or (bankName rQuoted) []);
               accountHolder := Some (str_or (accountHolder rQuoted) []);
               period := Some (str_or (period rQuoted) []);
               transactions := map decodedTx (transactions rQuoted) |})
      (str_or (Some (lit "O'Brien.pdf")) (lit "Recovered_Statement")).
Proof.
  split; [vm_compute; reflexivity|].
  split; [vm_compute; reflexivity|].
  split; [reflexivity|].
  apply (export_then_import (fun s => s) iso 1700 1800 1900 rQuoted
           (lit "O'Brien.pdf") (lit "O'Brien_backup.sql") None);
    vm_compute; reflexivity.
Defined.

(** ** Amounts of the Excel import *)

Lemma filter_drop_while_space : forall (p : N -> bool) s,
  (forall c, is_space c = true -> p c = false) ->
  filter p (drop_while is_space s) = filter p s.
Proof.
  intros p s H. induction s as [|c s IH]; [reflexivity|].
  cbn [drop_while filter]. destruct (is_space c) eqn:E; [|reflexivity].
  now rewrite (H c E).
Qed.

Lemma filter_trim : forall (p : N -> bool) s,
  (forall c, is_space c = true -> p c = false) ->
  filter p (trim s) = filter p s.
Proof.
  intros p s H. unfold trim.
  rewrite filter_rev, filter_drop_while_space by assumption.
  rewrite filter_rev, rev_involutive.
  now apply filter_drop_while_space.
Qed.

Lemma mkNumber_not_NaN : forall neg m e, mkNumber neg m e <> NaN.
Proof.
  intros neg m e. unfold mkNumber, zero.
  repeat match goal with
         | |- context [if ?c then _ else _] => destruct c
         | |- context [let (_, _) := ?p in _] => destruct p
         end; discriminate.
Qed.

(** [parseFloat] on an optional minus sign and a run of digits. *)
Lemma parseFloat_digits : forall (neg : bool) ds,
  forallb is_digit ds = true ->
  match parseFloat ((if neg then [MINUS] else []) ++ ds) with
  | NaN => zero
  | parsed => parsed
  end = mkNumber neg (digits_val 10 ds) 0.
Proof.
  intros neg ds H. unfold parseFloat.
  assert (Hsign : parse_sign (drop_while is_space
                                ((if neg then [MINUS] else []) ++ ds))
                  = (neg, ds)).
  { destruct neg; [reflexivity|]. cbn [app].
    destruct ds as [|d ds]; [reflexivity|].
    assert (Hd : is_digit d = true) by (cbn in H; now apply andb_prop in H).
    cbn [drop_while]. rewrite (digit_not_space d Hd).
    unfold parse_sign. apply is_digit_bounds in Hd. unfold MINUS.
    destruct (N.eqb_spec d 43); [lia|]. destruct (N.eqb_spec d 45); [lia|].
    reflexivity. }
  rewrite Hsign. destruct ds as [|d ds]; [reflexivity|].
  assert (Hd : is_digit d = true) by (cbn in H; now apply andb_prop in H).
  assert (Hinf : prefix_cs (lit "Infinity") (d :: ds) = None).
  { unfold prefix_cs. change (lit "Infinity") with (73%N :: lit "nfinity").
    cbn [prefix_with]. apply is_digit_bounds in Hd.
    destruct (N.eqb_spec 73 d); [lia|reflexivity]. }
  rewrite Hinf.
  pose proof (span_all is_digit (d :: ds) [] H I) as Hspan.
  rewrite app_nil_r in Hspan. rewrite Hspan.
  cbn [parse_fraction app List.length exponent_prefix]. rewrite app_nil_r.
  change (0 - Z.of_nat 0)%Z with 0%Z.
  destruct (mkNumber neg (digits_val 10 (d :: ds)) 0) eqn:E;
    [now apply mkNumber_not_NaN in E|reflexivity|reflexivity].
Qed.

Lemma digit_is_kept : forall c,
  is_digit c = true ->
  is_currency_or_space c = false /\ is_dot_or_comma c = false.
Proof.
  intros c H. apply is_digit_bounds in H.
  unfold is_currency_or_space, is_dot_or_comma, is_space, upper, DOT.
  split; bdestruct.
Qed.

Lemma filter_filter : forall (p q : N -> bool) l,
  filter q (filter p l) = filter (fun c => p c && q c) l.
Proof.
  intros p q l. induction l as [|c l IH]; [reflexivity|].
  cbn [filter]. destruct (p c); cbn [andb filter]; [|assumption].
  destruct (q c); now rewrite IH.
Qed.

Lemma filter_to_digits : forall l,
  forallb separator_char l = true ->
  filter (fun c => negb (is_currency_or_space c) && negb (is_dot_or_comma c)) l
  = filter is_digit l.
Proof.
  induction l as [|c l IH]; intros H; [reflexivity|].
  cbn [forallb] in H. apply andb_prop in H as [Hc Hl].
  cbn [filter]. rewrite (IH Hl). unfold separator_char in Hc.
  destruct (is_digit c) eqn:Ed.
  - destruct (digit_is_kept c Ed) as [-> ->]. reflexivity.
  - cbn [orb] in Hc.
    destruct (is_currency_or_space c); [reflexivity|].
    destruct (is_dot_or_comma c); [reflexivity|discriminate].
Qed.

Lemma forallb_filter_id : forall (p : N -> bool) l,
  forallb p (filter p l) = true.
Proof.
  intros p l. induction l as [|c l IH]; [reflexivity|].
  cbn [filter]. destruct (p c) eqn:E; [|assumption].
  cbn [forallb]. now rewrite E.
Qed.

Lemma space_is_currency_or_space : forall c,
  is_space c = true -> negb (is_currency_or_space c) = false.
Proof.
  intros c H. unfold is_currency_or_space. rewrite H.
  now rewrite !orb_true_r.
Qed.

Lemma in_parentheses_kept : forall l,
  forallb separator_char l = true ->
  in_parentheses (filter (fun c => negb (is_currency_or_space c)) l) = false.
Proof.
  intros l H.
  destruct (filter (fun c => negb (is_currency_or_space c)) l) as [|c r] eqn:E;
    [reflexivity|].
  assert (Hin : In c (filter (fun c => negb (is_currency_or_space c)) l))
    by (rewrite E; now left).
  apply filter_In in Hin as [Hin Hc].
  rewrite forallb_forall in H. specialize (H c Hin).
  unfold in_parentheses. replace (N.eqb c LPAREN) with false; [reflexivity|].
  unfold separator_char in H. apply negb_true_iff in Hc. rewrite Hc in H.
  rewrite orb_false_r in H. symmetry.
  apply orb_prop in H as [H|H].
  - apply is_digit_bounds in H. unfold LPAREN. apply N.eqb_neq. lia.
  - unfold is_dot_or_comma, DOT in H. unfold LPAREN. revert H. bdestruct.
Qed.

Lemma mkNumber_whole : forall neg m,
  (m < 2 ^ 53)%N ->
  mkNumber neg m 0 = if N.eqb m 0 then zero else Dec neg m 0.
Proof.
  intros neg m H. destruct (N.eqb_spec m 0) as [->|Hm]; [reflexivity|].
  apply mkNumber_integer. split; [lia|].
  eapply N.lt_trans; [exact H|]. reflexivity.
Qed.

(** X22: an amount written with digits, dots, commas, white space, the
    dong sign and the letters V, N and D, whose digits spell a number
    below [2^53], is read as that whole number: every dot and every
    comma is dropped, be it a separator of thousands or a decimal
    point, and a text without a digit is read as zero. *)
Theorem parseVNAmount_drops_separators : forall s,
  forallb separator_char s = true ->
  (digits_val 10 (filter is_digit s) < 2 ^ 53)%N ->
  parseVNAmount (VStr s) = Dec false (digits_val 10 (filter is_digit s)) 0.
Proof.
  intros s H Hb.
  assert (E : parseVNAmount (VStr s)
              = mkNumber false (digits_val 10 (filter is_digit s)) 0).
  { destruct s as [|c s]; [reflexivity|].
    unfold parseVNAmount. cbv zeta.
    rewrite filter_trim by apply space_is_currency_or_space.
    rewrite in_parentheses_kept by assumption.
    rewrite filter_filter, filter_to_digits by assumption.
    apply (parseFloat_digits false). apply forallb_filter_id. }
  rewrite E, mkNumber_whole by assumption.
  destruct (N.eqb_spec (digits_val 10 (filter is_digit s)) 0) as [->|_];
    reflexivity.
Qed.

(** X23: such an amount between parentheses, whose digits spell a
    number above zero and below [2^53], is read as the negative of
    that whole number. *)
Theorem parseVNAmount_parentheses : forall s,
  forallb separator_char s = true ->
  (0 < digits_val 10 (filter is_digit s) < 2 ^ 53)%N ->
  parseVNAmount (VStr (LPAREN :: s ++ [RPAREN]))
  = Dec true (digits_val 10 (filter is_digit s)) 0.
Proof.
  intros s H [Hpos Hb].
  assert (Hm : mkNumber true (digits_val 10 (filter is_digit s)) 0
               = Dec true (digits_val 10 (filter is_digit s)) 0).
  { rewrite mkNumber_whole by assumption.
    destruct (N.eqb_spec (digits_val 10 (filter is_digit s)) 0); [lia|].
    reflexivity. }
  rewrite <- Hm.
  unfold parseVNAmount. cbv zeta.
  rewrite filter_trim by apply space_is_currency_or_space.
  set (keep := fun c => negb (is_currency_or_space c)).
  assert (Hf : filter keep (LPAREN :: s ++ [RPAREN])
               = LPAREN :: filter keep s ++ [RPAREN]).
  { cbn [filter]. replace (keep LPAREN) with true by reflexivity.
    rewrite filter_app. cbn [filter].
    replace (keep RPAREN) with true by reflexivity. reflexivity. }
  rewrite Hf.
  assert (Hp : in_parentheses (LPAREN :: filter keep s ++ [RPAREN]) = true).
  { unfold in_parentheses. rewrite N.eqb_refl.
    change (LPAREN :: filter keep s ++ [RPAREN])
      with ((LPAREN :: filter keep s) ++ [RPAREN]).
    rewrite last_last. apply N.eqb_refl. }
  rewrite Hp. unfold slice_1_m1. cbn [tl]. rewrite removelast_last.
  cbn [filter]. replace (negb (is_dot_or_comma MINUS)) with true by reflexivity.
  unfold keep. rewrite filter_filter, filter_to_digits by assumption.
  apply (parseFloat_digits true). apply forallb_filter_id.
Qed.

Lemma parseVNAmount_drops_separators_witness :
  forallb separator_char (lit " 1.000.000 VND") = true /\
  (digits_val 10 (filter is_digit (lit " 1.000.000 VND")) < 2 ^ 53)%N /\
  parseVNAmount (VStr (lit " 1.000.000 VND"))
  = Dec false (digits_val 10 (filter is_digit (lit " 1.000.000 VND"))) 0.
Proof.
  split; [reflexivity|]. split; [reflexivity|].
  apply (parseVNAmount_drops_separators (lit " 1.000.000 VND"));
    reflexivity.
Defined.

Lemma parseVNAmount_parentheses_witness :
  forallb separator_char (lit "5,000.50") = true /\
  (0 < digits_val 10 (filter is_digit (lit "5,000.50")) < 2 ^ 53)%N /\
  parseVNAmount (VStr (LPAREN :: lit "5,000.50" ++ [RPAREN]))
  = Dec true (digits_val 10 (filter is_digit (lit "5,000.50"))) 0.
Proof.
  split; [reflexivity|]. split; [split; reflexivity|].
  apply (parseVNAmount_parentheses (lit "5,000.50"));
    [reflexivity | split; reflexivity].
Defined.

(** ** The categories of the transaction table *)

Lemma set_add_spec : forall acc x,
  NoDup acc ->
  NoDup (set_add acc x) /\
  forall c, includes (set_add acc x) c = includes acc c || str_eqb x c.
Proof.
  intros acc x Hacc.
  pose proof (from_set_spec [x] acc Hacc) as [Hn Hi].
  cbn [fold_left] in Hn, Hi. split; [assumption|].
  intros c. rewrite Hi. unfold includes at 2. cbn [existsb].
  now rewrite orb_false_r.
Qed.

Lemma add_category_spec : forall txs acc,
  NoDup acc ->
  NoDup (fold_left add_category txs acc) /\
  forall c, includes (fold_left add_category txs acc) c
            = includes acc c || existsb (has_category_named c) txs.
Proof.
  induction txs as [|tx txs IH]; intros acc Hacc.
  - cbn [fold_left existsb]. split; [assumption|].
    intros c. now rewrite orb_false_r.
  - cbn [fold_left existsb].
    assert (Hstep : NoDup (add_category acc tx) /\
                    forall c, includes (add_category acc tx) c
                              = includes acc c || has_category_named c tx).
    { unfold add_category, has_category_named.
      destruct (category tx) as [k|] eqn:Ek.
      - destruct (has_category tx).
        + destruct (set_add_spec acc k Hacc) as [Hn Hi]. split; [assumption|].
          intros c. now rewrite Hi.
        + split; [assumption|]. intros c. now rewrite orb_false_r.
      - split; [assumption|]. intros c.
        now rewrite andb_false_r, orb_false_r. }
    destruct Hstep as [Hn Hi]. destruct (IH _ Hn) as [Hn' Hi'].
    split; [assumption|]. intros c. rewrite Hi', Hi. now rewrite orb_assoc.
Qed.

(** X24: the categories that the transaction table offers hold no
    category twice and are strictly increasing in the order of the code
    units; a string is among them exactly when it is one of the default
    categories or the category of a transaction that is not blank. *)
Theorem availableCategories_sorted : forall transactions c,
  NoDup (availableCategories transactions) /\
  increasing (availableCategories transactions) = true /\
  includes (availableCategories transactions) c
  = includes DEFAULT_CATEGORIES c
    || existsb (has_category_named c) transactions.
Proof.
  intros txs c. unfold availableCategories.
  destruct (from_set_spec DEFAULT_CATEGORIES [] (NoDup_nil _)) as [Hd Hdi].
  fold (from_set DEFAULT_CATEGORIES) in Hd, Hdi.
  destruct (add_category_spec txs _ Hd) as [Hn Hi].
  split; [now apply NoDup_sort|]. split; [now apply increasing_sort|].
  rewrite includes_sort, Hi, Hdi. reflexivity.
Qed.

(** ** The filter of the application *)

(** X25: with the criteria that the button to clear the filter sets,
    every transaction of the statement is shown, in the order of the
    statement, whatever [toLowerCase] and the order of the Numbers
    are. *)
Theorem cleared_filter_shows_all : forall toLowerCase lessThan data,
  filteredTransactions toLowerCase lessThan data clearedCriteria
  = transactions data.
Proof.
  intros toLowerCase lessThan data. unfold filteredTransactions.
  induction (transactions data) as [|tx txs IH]; [reflexivity|].
  cbn [filter]. rewrite IH. reflexivity.
Qed.

(** X26: when some category is selected, whatever the other criteria
    are, every transaction that the filter shows is a transaction of
    the statement with a category that is not empty and is one of the
    selected ones; a transaction without a category is never shown. *)
Theorem filter_keeps_selected_categories :
  forall toLowerCase lessThan data criteria tx,
  categories criteria <> [] ->
  In tx (filteredTransactions toLowerCase lessThan data criteria) ->
  In tx (transactions data) /\
  exists c k, category tx = Some (c :: k) /\
              includes (categories criteria) (c :: k) = true.
Proof.
  intros toLowerCase lessThan data criteria tx Hne Hin.
  unfold filteredTransactions in Hin. apply filter_In in Hin as [Hin Hp].
  split; [assumption|]. unfold passes in Hp.
  repeat match type of Hp with
         | (if ?c then false else _) = true =>
             destruct c eqn:?; [discriminate|]
         end.
  match goal with
  | H : match categories criteria with _ => _ end = false |- _ =>
      rename H into Hc
  end.
  destruct (categories criteria) as [|x xs] eqn:Ecat; [contradiction|].
  destruct (category tx) as [[|c k]|]; try discriminate.
  exists c, k. split; [reflexivity|]. now apply negb_false_iff in Hc.
Qed.

(** X27: the two dates of the criteria have no effect on a transaction
    whose date does not consist of three parts between slashes: it
    passes the filter exactly when it passes the criteria without their
    dates. *)
Theorem filter_ignores_dates_without_three_parts :
  forall toLowerCase lessThan criteria tx,
  List.length (split 47 (date tx)) <> 3%nat ->
  passes toLowerCase lessThan criteria tx
  = passes toLowerCase lessThan (withoutDates criteria) tx.
Proof.
  intros toLowerCase lessThan criteria tx H. unfold passes.
  cbn [withoutDates keyword startDate endDate minAmount maxAmount categories].
  assert (Hd : txDateStr tx = None).
  { unfold txDateStr.
    destruct (split 47 (date tx)) as [|p0 [|p1 [|p2 [|p3 ps]]]];
      try reflexivity. now contradiction H. }
  rewrite Hd.
  repeat match goal with
         | |- (if ?c then false else _) = (if ?c then false else _) =>
             destruct c; [reflexivity|]
         end.
  destruct (startDate criteria), (endDate criteria); reflexivity.
Qed.

Lemma filter_keeps_selected_categories_witness :
  categories feesOnly <> [] /\
  In txAtm (filteredTransactions (fun s => s) (fun _ _ => false)
              (janStatement [withCategory None txAtm; txAtm])
              feesOnly) /\
  In txAtm (transactions (janStatement [withCategory None txAtm; txAtm])) /\
  exists c k, category txAtm = Some (c :: k) /\
              includes (categories feesOnly) (c :: k) = true.
Proof.
  split; [discriminate|]. split; [vm_compute; left; reflexivity|].
  apply (filter_keeps_selected_categories (fun s => s) (fun _ _ => false)
           (janStatement [withCategory None txAtm; txAtm]) feesOnly
           txAtm); [discriminate|vm_compute; left; reflexivity].
Defined.

Lemma filter_ignores_dates_without_three_parts_witness :
  List.length (split 47 (date txIsoDated)) <> 3%nat /\
  passes (fun s => s) (fun _ _ => false) sampleCriteria txIsoDated
  = passes (fun s => s) (fun _ _ => false) (withoutDates sampleCriteria)
           txIsoDated.
Proof.
  split; [vm_compute; discriminate|].
  apply (filter_ignores_dates_without_three_parts (fun s => s)
           (fun _ _ => false) sampleCriteria txIsoDated).
  vm_compute. discriminate.
Defined.

(** ** The dates of the filter *)

Lemma split_no_sep : forall sep s,
  forallb (fun c => negb (N.eqb c sep)) s = true -> split sep s = [s].
Proof.
  intros sep s. induction s as [|c s IH]; intros H; [reflexivity|].
  cbn [forallb] in H. apply andb_prop in H as [Hc Hs].
  cbn [split]. apply negb_true_iff in Hc. rewrite Hc, (IH Hs). reflexivity.
Qed.

Lemma split_app_sep : forall sep a b,
  forallb (fun c => negb (N.eqb c sep)) a = true ->
  split sep (a ++ sep :: b) = a :: split sep b.
Proof.
  intros sep a b. induction a as [|c a IH]; intros H.
  - cbn [app split]. now rewrite N.eqb_refl.
  - cbn [forallb] in H. apply andb_prop in H as [Hc Ha].
    cbn [app split]. apply negb_true_iff in Hc. rewrite Hc, (IH Ha).
    reflexivity.
Qed.

Lemma digits_no_slash : forall n s,
  digits_of_length n s = true ->
  forallb (fun c => negb (N.eqb c 47)) s = true.
Proof.
  intros n s H. unfold digits_of_length in H. apply andb_prop in H as [_ H].
  apply (forallb_impl is_digit); [|assumption].
  intros c Hc. apply is_digit_bounds in Hc. apply negb_true_iff.
  apply N.eqb_neq. lia.
Qed.

Lemma txDateStr_vnDate : forall tx d m y,
  date tx = vnDate d m y ->
  digits_of_length 2 d = true -> digits_of_length 2 m = true ->
  digits_of_length 4 y = true ->
  txDateStr tx = Some (isoDate y m d).
Proof.
  intros tx d m y Hdate Hd Hm Hy. unfold txDateStr, vnDate in *.
  rewrite Hdate. change (lit "/") with [47%N]. cbn [app].
  rewrite split_app_sep by (now apply (digits_no_slash 2)).
  rewrite split_app_sep by (now apply (digits_no_slash 2)).
  rewrite split_no_sep by (now apply (digits_no_slash 4)).
  reflexivity.
Qed.

Lemma str_ltb_app : forall a a' b b',
  List.length a = List.length a' ->
  str_ltb (a ++ b) (a' ++ b')
  = str_ltb a a' || (str_eqb a a' && str_ltb b b').
Proof.
  induction a as [|x a IH]; intros [|x' a'] b b' H; try discriminate.
  - cbn [app str_eqb andb]. destruct b'; [now destruct b|].
    cbn [str_ltb]. reflexivity.
  - cbn [List.length] in H. injection H as H.
    cbn [app str_ltb str_eqb]. rewrite (IH a' b b' H).
    destruct (x <? x')%N eqn:E1; [reflexivity|]. cbn [orb].
    destruct (x =? x')%N; [|reflexivity]. cbn [andb].
    destruct a' as [|y a'']; [|reflexivity].
    destruct a; [|discriminate]. reflexivity.
Qed.

Lemma str_eqb_app : forall a a' b b',
  List.length a = List.length a' ->
  str_eqb (a ++ b) (a' ++ b') = str_eqb a a' && str_eqb b b'.
Proof.
  induction a as [|x a IH]; intros [|x' a'] b b' H; try discriminate.
  - reflexivity.
  - cbn [List.length] in H. injection H as H.
    cbn [app str_eqb]. rewrite (IH a' b b' H). now rewrite andb_assoc.
Qed.

Lemma digit_val_of_digit : forall c,
  is_digit c = true -> digit_val c = (c - 48)%N /\ (48 <= c <= 57)%N.
Proof.
  intros c H. unfold digit_val. rewrite H. split; [reflexivity|].
  now apply is_digit_bounds.
Qed.

(** Two runs of digits of the same length, read after the prefixes [p]
    and [p']: the order of the numbers is that of the prefixes, and
    that of the strings when the prefixes are equal. *)
Lemma digits_order : forall a a' p p',
  List.length a = List.length a' ->
  forallb is_digit a = true -> forallb is_digit a' = true ->
  let F := fold_left (fun acc c => (10 * acc + digit_val c)%N) in
  ((p < p')%N -> (F a p < F a' p')%N) /\
  ((p' < p)%N -> (F a' p' < F a p)%N) /\
  (p = p' ->
   ((F a p < F a' p')%N <-> str_ltb a a' = true) /\
   (F a p = F a' p' <-> str_eqb a a' = true)).
Proof.
  induction a as [|x a IH]; intros [|x' a'] p p' Hlen Ha Ha';
    try discriminate; cbv zeta.
  - cbn [fold_left str_ltb str_eqb]. split; [tauto|]. split; [tauto|].
    intros ->.
    split; split; try discriminate; try reflexivity. lia.
  - cbn [List.length] in Hlen. injection Hlen as Hlen.
    cbn [forallb] in Ha, Ha'. apply andb_prop in Ha as [Hx Ha].
    apply andb_prop in Ha' as [Hx' Ha'].
    destruct (digit_val_of_digit x Hx) as [Ex Bx].
    destruct (digit_val_of_digit x' Hx') as [Ex' Bx'].
    cbn [fold_left str_ltb str_eqb].
    pose proof (IH a' (10 * p + digit_val x)%N (10 * p' + digit_val x')%N
                  Hlen Ha Ha') as (IH1 & IH1' & IH2). clear IH.
    cbv zeta in *. split; [|split].
    + intros Hp. apply IH1. lia.
    + intros Hp. apply IH1'. lia.
    + intros ->.
      destruct (N.ltb_spec x x') as [Hlt|Hge]; cbn [orb].
      * assert (Hq : (10 * p' + digit_val x < 10 * p' + digit_val x')%N) by lia.
        specialize (IH1 Hq).
        destruct (N.eqb_spec x x') as [->|_]; [lia|]. cbn [andb].
        split; split; try reflexivity; try discriminate;
          try (intros _; exact IH1).
        lia.
      * destruct (N.eqb_spec x x') as [->|Hne]; cbn [andb].
        -- apply IH2. reflexivity.
        -- assert (Hq : (10 * p' + digit_val x' < 10 * p' + digit_val x)%N)
             by lia.
           specialize (IH1' Hq).
           split; split; try discriminate; lia.
Qed.

Lemma digits_ltb : forall n a a',
  digits_of_length n a = true -> digits_of_length n a' = true ->
  str_ltb a a' = (digits_val 10 a <? digits_val 10 a')%N /\
  str_eqb a a' = (digits_val 10 a =? digits_val 10 a')%N.
Proof.
  intros n a a' Ha Ha'. unfold digits_of_length in *.
  apply andb_prop in Ha as [La Da]. apply andb_prop in Ha' as [La' Da'].
  apply Nat.eqb_eq in La, La'.
  destruct (digits_order a a' 0%N 0%N ltac:(congruence) Da Da')
    as (_ & _ & H).
  destruct (H eq_refl) as [Hlt Heq]. unfold digits_val. split.
  - destruct (str_ltb a a'); symmetry.
    + apply N.ltb_lt. now apply Hlt.
    + apply N.ltb_ge. apply N.nlt_ge. intros C. apply Hlt in C. discriminate.
  - destruct (str_eqb a a'); symmetry.
    + apply N.eqb_eq. now apply Heq.
    + apply N.eqb_neq. intros C. apply Heq in C. discriminate.
Qed.

Lemma digits_val_bound : forall a p,
  forallb is_digit a = true ->
  (fold_left (fun acc c => (10 * acc + digit_val c)%N) a p
   < (p + 1) * 10 ^ N.of_nat (List.length a))%N.
Proof.
  induction a as [|x a IH]; intros p H.
  - cbn. lia.
  - cbn [forallb] in H. apply andb_prop in H as [Hx Ha].
    destruct (digit_val_of_digit x Hx) as [Ex Bx].
    cbn [fold_left List.length]. specialize (IH (10 * p + digit_val x)%N Ha).
    rewrite Nat2N.inj_succ, N.pow_succ_r'.
    eapply N.lt_le_trans; [exact IH|].
    replace ((p + 1) * (10 * 10 ^ N.of_nat (List.length a)))%N
      with ((10 * p + 10) * 10 ^ N.of_nat (List.length a))%N by lia.
    apply N.mul_le_mono_r. lia.
Qed.

Lemma digits_of_length_bound : forall n a,
  digits_of_length n a = true -> (digits_val 10 a < 10 ^ N.of_nat n)%N.
Proof.
  intros n a H. unfold digits_of_length in H. apply andb_prop in H as [L D].
  apply Nat.eqb_eq in L. subst n. unfold digits_val.
  pose proof (digits_val_bound a 0%N D) as B. lia.
Qed.

Lemma isoDate_ltb : forall y m d y' m' d',
  digits_of_length 4 y = true -> digits_of_length 2 m = true ->
  digits_of_length 2 d = true ->
  digits_of_length 4 y' = true -> digits_of_length 2 m' = true ->
  digits_of_length 2 d' = true ->
  str_ltb (isoDate y m d) (isoDate y' m' d')
  = (dayNumber y m d <? dayNumber y' m' d')%N.
Proof.
  intros y m d y' m' d' Hy Hm Hd Hy' Hm' Hd'.
  assert (Ly : List.length y = List.length y').
  { unfold digits_of_length in Hy, Hy'.
    apply andb_prop in Hy as [L _]. apply andb_prop in Hy' as [L' _].
    apply Nat.eqb_eq in L, L'. congruence. }
  assert (Lm : List.length m = List.length m').
  { unfold digits_of_length in Hm, Hm'.
    apply andb_prop in Hm as [L _]. apply andb_prop in Hm' as [L' _].
    apply Nat.eqb_eq in L, L'. congruence. }
  unfold isoDate. change (lit "-") with [45%N].
  rewrite (str_ltb_app y y') by assumption.
  rewrite (str_ltb_app [45%N] [45%N]) by reflexivity.
  rewrite (str_ltb_app m m') by assumption.
  rewrite (str_ltb_app [45%N] [45%N]) by reflexivity.
  change (str_ltb [45%N] [45%N]) with false.
  change (str_eqb [45%N] [45%N]) with true. cbn [orb andb].
  destruct (digits_ltb 4 y y' Hy Hy') as [-> ->].
  destruct (digits_ltb 2 m m' Hm Hm') as [-> ->].
  destruct (digits_ltb 2 d d' Hd Hd') as [-> _].
  pose proof (digits_of_length_bound 2 m Hm) as Bm.
  pose proof (digits_of_length_bound 2 m' Hm') as Bm'.
  pose proof (digits_of_length_bound 2 d Hd) as Bd.
  pose proof (digits_of_length_bound 2 d' Hd') as Bd'.
  change (10 ^ N.of_nat 2)%N with 100%N in *.
  unfold dayNumber.
  set (vy := digits_val 10 y) in *. set (vy' := digits_val 10 y') in *.
  set (vm := digits_val 10 m) in *. set (vm' := digits_val 10 m') in *.
  set (vd := digits_val 10 d) in *. set (vd' := digits_val 10 d') in *.
  destruct (N.ltb_spec vy vy'), (N.eqb_spec vy vy'), (N.ltb_spec vm vm'),
    (N.eqb_spec vm vm'), (N.ltb_spec vd vd'); cbn [orb andb];
    symmetry; try (apply N.ltb_lt; lia); try (apply N.ltb_ge; lia).
Qed.

(** X28: for dates written with two digits for the day, two for the
    month and four for the year, the date range of the filter is the
    range of the calendar: with criteria that hold only a start and an
    end date, a transaction passes exactly when its date is not before
    the start date and not after the end date. *)
Theorem date_filter_is_chronological :
  forall toLowerCase lessThan tx d m y ys ms ds ye me de,
  date tx = vnDate d m y ->
  digits_of_length 2 d = true -> digits_of_length 2 m = true ->
  digits_of_length 4 y = true ->
  digits_of_length 4 ys = true -> digits_of_length 2 ms = true ->
  digits_of_length 2 ds = true ->
  digits_of_length 4 ye = true -> digits_of_length 2 me = true ->
  digits_of_length 2 de = true ->
  passes toLowerCase lessThan
         (dateCriteria (isoDate ys ms ds) (isoDate ye me de)) tx
  = (dayNumber ys ms ds <=? dayNumber y m d)%N
    && (dayNumber y m d <=? dayNumber ye me de)%N.
Proof.
  intros toLowerCase lessThan tx d m y ys ms ds ye me de Hdate
    Hd Hm Hy Hys Hms Hds Hye Hme Hde.
  unfold passes, dateCriteria.
  cbn [keyword startDate endDate minAmount maxAmount categories].
  rewrite (txDateStr_vnDate tx d m y) by assumption.
  assert (Hne : forall a b c, digits_of_length 4 a = true ->
                  exists h t, isoDate a b c = h :: t).
  { intros a b c Ha. unfold digits_of_length in Ha.
    apply andb_prop in Ha as [L _]. apply Nat.eqb_eq in L.
    destruct a as [|h a]; [discriminate|]. now exists h, (a ++ lit "-" ++ b ++ lit "-" ++ c). }
  destruct (Hne ys ms ds Hys) as (hs & ts & Es).
  destruct (Hne ye me de Hye) as (he & te & Ee).
  rewrite Es, Ee. rewrite <- Es, <- Ee.
  rewrite !isoDate_ltb by assumption.
  destruct (N.ltb_spec (dayNumber y m d) (dayNumber ys ms ds)),
    (N.ltb_spec (dayNumber ye me de) (dayNumber y m d)),
    (N.leb_spec (dayNumber ys ms ds) (dayNumber y m d)),
    (N.leb_spec (dayNumber y m d) (dayNumber ye me de));
    try reflexivity; lia.
Qed.

Lemma date_filter_is_chronological_witness :
  date txAtm = vnDate (lit "01") (lit "01") (lit "2024") /\
  passes (fun s => s) (fun _ _ => false)
         (dateCriteria (isoDate (lit "2023") (lit "12") (lit "31"))
                       (isoDate (lit "2024") (lit "01") (lit "09")))
         txAtm
  = (dayNumber (lit "2023") (lit "12") (lit "31")
     <=? dayNumber (lit "2024") (lit "01") (lit "01"))%N
    && (dayNumber (lit "2024") (lit "01") (lit "01")
        <=? dayNumber (lit "2024") (lit "01") (lit "09"))%N.
Proof.
  split; [reflexivity|].
  apply (date_filter_is_chronological (fun s => s) (fun _ _ => false) txAtm
           (lit "01") (lit "01") (lit "2024")
           (lit "2023") (lit "12") (lit "31")
           (lit "2024") (lit "01") (lit "09")); reflexivity.
Defined.
